(** * A single-file index over a line-oriented text file

    Shallow embedding of [main.cpp] (and of the variant translation unit that
    builds the index with [createIndexInMemorySort]): the index builder, the
    ordered listing and the binary-search lookup, together with the part of
    the C++ stream library they run on.

    Conventions.
    - A byte is a [byte]; a [std::string] and the contents of a file are a
      [list byte].  Names of files and command-line arguments are [string]s.
    - [size_t] is a [Z] in [0, 2^64) and [std::streamoff] a [Z] in
      [-2^63, 2^63); arithmetic on them is written with its wrap-around.
      The target is the usual LP64 little-endian POSIX one:
      [sizeof(std::streamoff) = 8], and a stream opened without
      [std::ios::binary] reads the same bytes as one opened with it.
    - The file system maps names to contents; a name that is not mapped
      cannot be opened for reading, and some names cannot be opened for
      writing.
    - A run either returns, or leaves defined behaviour / ends in an uncaught
      exception ([Anomaly]).  Loops are written with fuel; the operations are
      shown to return on the fuel their callers pass ([createIndex_returns],
      [listRecords_returns], [searchForKey_returns]).
    - [std::sort] and [atoi] belong to the C++ and C libraries: the program is
      parameterised by them, and [std::sort] is used through its contract
      only. *)

From Stdlib Require Import ZArith Lia Permutation Sorted.
From Stdlib.Strings Require Import Byte.
From stdpp Require Import base tactics option list gmap strings.

Local Open Scope Z_scope.

(* ================================================================== *)
(** * Bytes and strings of bytes *)

#[global] Instance byte_eq_dec : EqDecision byte.
Proof. intros x y. destruct (Byte.eqb x y) eqn:E; [left|right].
  - now apply Byte.byte_dec_bl.
  - intros ->. now rewrite Byte.byte_dec_lb in E.
Defined.

(** The line delimiter of [getline], ['\n']. *)
Definition newline : byte := "010"%byte.

(** [bytes "abc"] is the byte string of a literal. *)
Definition bytes (s : string) : list byte := String.list_byte_of_string s.

(** A text file made of the given lines, each one newline-terminated. *)
Definition text (lines : list string) : list byte :=
  concat (map (fun l => bytes l ++ [newline]) lines).

(** [std::string::compare]: bytes are compared as [unsigned char], a proper
    prefix is smaller. *)
Fixpoint string_compare (a b : list byte) : comparison :=
  match a, b with
  | [], [] => Eq
  | [], _ :: _ => Lt
  | _ :: _, [] => Gt
  | x :: a', y :: b' =>
      match N.compare (Byte.to_N x) (Byte.to_N y) with
      | Eq => string_compare a' b'
      | c => c
      end
  end.

(** [a < b] on [std::string]. *)
Definition string_lt (a b : list byte) : bool :=
  match string_compare a b with Lt => true | _ => false end.

(** [s.substr(pos, n)] for [pos <= s.size()]. *)
Definition substr (s : list byte) (pos n : Z) : list byte :=
  take (Z.to_nat n) (drop (Z.to_nat pos) s).

(* ================================================================== *)
(** * Machine integers *)

Definition SIZE_WIDTH : Z := 2 ^ 64.
Definition STREAMOFF_MAX : Z := 2 ^ 63 - 1.

(** Largest request [new char[n]] and [std::string::resize] can serve: past
    [PTRDIFF_MAX] the allocation throws. *)
Definition ALLOC_MAX : Z := 2 ^ 63 - 1.

(** Reduction to [size_t]. *)
Definition wrap64 (z : Z) : Z := z mod SIZE_WIDTH.

(** Conversion of a 64-bit pattern to the signed [std::streamoff]. *)
Definition to_streamoff (z : Z) : Z :=
  let u := wrap64 z in if u <=? STREAMOFF_MAX then u else u - SIZE_WIDTH.

Definition byte_of_Z (z : Z) : byte :=
  default "000"%byte (Byte.of_N (Z.to_N (z mod 256))).

(** The object representation of an integer on [n] bytes, least significant
    byte first (two's complement). *)
Fixpoint le_bytes (n : nat) (z : Z) : list byte :=
  match n with
  | O => []
  | S n' => byte_of_Z z :: le_bytes n' (z / 256)
  end.

(** The unsigned value of a little-endian byte string. *)
Fixpoint le_value (l : list byte) : Z :=
  match l with
  | [] => 0
  | b :: l' => Z.of_N (Byte.to_N b) + 256 * le_value l'
  end.

(** [reinterpret_cast<const char*>(&offset)], [sizeof(offset)] bytes. *)
Definition streamoff_bytes (offset : Z) : list byte := le_bytes 8 offset.

(** The [std::streamoff] whose low bytes are [l] and whose other bytes are 0. *)
Definition streamoff_of_bytes (l : list byte) : Z := to_streamoff (le_value l).

(* ================================================================== *)
(** * Outcomes of a run *)

Inductive anomaly : Type :=
  | length_error        (* std::string::resize past max_size() *)
  | bad_alloc           (* new char[n] that cannot be served *)
  | division_by_zero    (* integer division by 0 *)
  | indeterminate_read. (* use of bytes no read has written *)

Inductive outcome (A : Type) : Type :=
  | Returns (a : A)
  | Anomaly (why : anomaly)
  | OutOfFuel.
Arguments Returns {A} a.
Arguments Anomaly {A} why.
Arguments OutOfFuel {A}.

#[global] Instance outcome_ret : MRet outcome := fun A a => Returns a.
#[global] Instance outcome_bind : MBind outcome := fun A B f m =>
  match m with
  | Returns a => f a
  | Anomaly why => Anomaly why
  | OutOfFuel => OutOfFuel
  end.

#[global] Instance outcome_fmap : FMap outcome := fun A B f m =>
  match m with
  | Returns a => Returns (f a)
  | Anomaly why => Anomaly why
  | OutOfFuel => OutOfFuel
  end.

(* ================================================================== *)
(** * Input streams ([std::ifstream]) *)

Record ifstream : Type := Ifstream {
  content : list byte;   (* the bytes of the file *)
  gpos : nat;            (* the get position *)
  eofbit : bool;
  failbit : bool;
  gcount : nat           (* characters extracted by the last unformatted read *)
}.

(** A stream just opened on a file with these bytes. *)
Definition ifstream_of (file : list byte) : ifstream := Ifstream file 0 false false 0.

Definition good (s : ifstream) : bool := negb (eofbit s) && negb (failbit s).

(** [setstate(failbit)]. *)
Definition set_fail (s : ifstream) : ifstream :=
  Ifstream (content s) (gpos s) (eofbit s) true (gcount s).

(** Index of the first newline of [l]. *)
Fixpoint find_newline (l : list byte) : option nat :=
  match l with
  | [] => None
  | b :: l' => if decide (b = newline) then Some O else S <$> find_newline l'
  end.

(** [getline(s, str)]: when the sentry fails, [failbit] is set and [str] is
    left alone.  Otherwise characters are extracted up to and including the
    next newline, which is not stored; reaching the end of the file sets
    [eofbit], and [failbit] too when nothing at all was extracted.  [gcount]
    is not affected. *)
Definition getline (s : ifstream) (str : list byte) : ifstream * list byte :=
  if good s then
    let rest := drop (gpos s) (content s) in
    match find_newline rest with
    | Some i => (Ifstream (content s) (gpos s + i + 1) false false (gcount s), take i rest)
    | None =>
        (Ifstream (content s) (gpos s + length rest) true (bool_decide (rest = [])) (gcount s),
         rest)
    end
  else (set_fail s, str).

(** [s.tellg()]: the sentry sets [failbit] on a stream that is not good, and
    the answer is then -1. *)
Definition tellg (s : ifstream) : ifstream * Z :=
  if good s then (s, Z.of_nat (gpos s)) else (set_fail s, -1).

(** [s.seekg(pos)] and [s.seekg(pos, std::ios::beg)] (C++11): [eofbit] is
    cleared first; a failed stream stays failed and does not move; seeking
    to a negative position fails. *)
Definition seekg (s : ifstream) (pos : Z) : ifstream :=
  if failbit s then Ifstream (content s) (gpos s) false true (gcount s)
  else if pos <? 0 then Ifstream (content s) (gpos s) false true (gcount s)
  else Ifstream (content s) (Z.to_nat pos) false false (gcount s).

(** [s.seekg(0, std::ios::end)]. *)
Definition seekg_end (s : ifstream) : ifstream :=
  if failbit s then Ifstream (content s) (gpos s) false true (gcount s)
  else Ifstream (content s) (length (content s)) false false (gcount s).

(** [s.read(buf, n)]: the bytes stored in [buf]; fewer than [n] of them set
    [eofbit] and [failbit]. *)
Definition read (s : ifstream) (n : Z) : ifstream * list byte :=
  if good s then
    let got := take (Z.to_nat n) (drop (gpos s) (content s)) in
    let short := bool_decide (Z.of_nat (length got) < n) in
    (Ifstream (content s) (gpos s + length got) short short (length got), got)
  else (Ifstream (content s) (gpos s) (eofbit s) true 0, []).

(** [f.write(buf, n)] on an output stream, seen as the bytes written so far;
    every call site passes a buffer of at least [n] bytes. *)
Definition write (f : list byte) (buf : list byte) (n : Z) : list byte :=
  f ++ take (Z.to_nat n) buf.

(* ================================================================== *)
(** * The file system *)

Record filesystem : Type := Filesystem {
  files : gmap string (list byte);   (* the files that can be opened for reading *)
  unwritable : gset string           (* names that cannot be opened for writing *)
}.

(** [std::ifstream f(name)]: the bytes the stream will read. *)
Definition ifstream_open (fs : filesystem) (name : string) : option (list byte) :=
  files fs !! name.

(** [std::ofstream f(name)]: the file is created or truncated. *)
Definition ofstream_open (fs : filesystem) (name : string) : option filesystem :=
  if decide (name ∈ unwritable fs) then None
  else Some (Filesystem (<[name := []]> (files fs)) (unwritable fs)).

(** [f.close()] on an output stream that wrote [written]. *)
Definition ofstream_close (fs : filesystem) (name : string) (written : list byte) : filesystem :=
  Filesystem (<[name := written]> (files fs)) (unwritable fs).

(** [std::remove(name)]. *)
Definition remove (fs : filesystem) (name : string) : filesystem :=
  Filesystem (delete name (files fs)) (unwritable fs).

(* ================================================================== *)
(** * The program *)

(** [struct IndexEntry]. *)
Record IndexEntry : Type := mkIndexEntry {
  key : list byte;
  offset : Z
}.

(** [compareIndexEntries]. *)
Definition compareIndexEntries (a b : IndexEntry) : bool :=
  string_lt (key a) (key b).

(** What [std::sort(first, last, comp)] promises: the range is rearranged,
    and afterwards no element compares less than one that stands before
    it.  Nothing is promised about the order of equivalent elements. *)
Definition sorted_by (comp : IndexEntry -> IndexEntry -> bool) (l : list IndexEntry) : Prop :=
  forall (i j : nat) (a b : IndexEntry),
    l !! i = Some a -> l !! j = Some b -> (i < j)%nat -> comp b a = false.

Definition std_sort_contract (sort : list IndexEntry -> list IndexEntry) : Prop :=
  forall l, Permutation (sort l) l /\ sorted_by compareIndexEntries (sort l).

(** One serialized entry: [keyLength] bytes of the key, then the offset. *)
Definition write_entry (keyLength : Z) (f : list byte) (entry : IndexEntry) : list byte :=
  write (write f (key entry) keyLength) (streamoff_bytes (offset entry)) 8.

(** The loop [for (const auto& entry : indexEntries)] that writes the final
    index file. *)
Definition write_entries (keyLength : Z) (indexEntries : list IndexEntry) (f : list byte)
  : list byte :=
  foldl (write_entry keyLength) f indexEntries.

(** [checkOrCreateIndexFile]: opens the file for reading, looks at the stream
    state and closes it; the file system is not changed. *)
Definition checkOrCreateIndexFile (fs : filesystem) (indexFilename : string) : filesystem :=
  match ifstream_open fs indexFilename with
  | Some _ => fs
  | None => fs
  end.

(** The [while (getline(dataFile, line))] loop of [createIndex]; the result
    is what has been written to the temporary index file. *)
Fixpoint createIndex_scan (fuel : nat) (keyLength : Z) (dataFile : ifstream)
    (line : list byte) (offset : Z) (tempIndexFile : list byte) : outcome (list byte) :=
  match fuel with
  | O => OutOfFuel
  | S fuel' =>
      let '(dataFile, line) := getline dataFile line in
      if failbit dataFile then Returns tempIndexFile
      else
        let tempIndexFile :=
          if keyLength <=? Z.of_nat (length line) then
            let key := substr line 0 keyLength in
            write (write tempIndexFile key keyLength) (streamoff_bytes offset) 8
          else tempIndexFile in
        let '(dataFile, offset) := tellg dataFile in
        createIndex_scan fuel' keyLength dataFile line offset tempIndexFile
  end.

(** The [while (tempIndexFileIn.good())] loop of [createIndex].  [resize]
    zero-fills the key, so a short read of the key leaves zeros behind;
    [entry.offset] starts out indeterminate, so an offset read that stores
    some but not all of its bytes leaves such a value in the entry. *)
Fixpoint createIndex_load (fuel : nat) (keyLength : Z) (tempIndexFileIn : ifstream)
    (indexEntries : list IndexEntry) : outcome (list IndexEntry) :=
  match fuel with
  | O => OutOfFuel
  | S fuel' =>
      if good tempIndexFileIn then
        if ALLOC_MAX <? keyLength then Anomaly length_error
        else
          let '(tempIndexFileIn, got) := read tempIndexFileIn keyLength in
          let entry_key := got ++ replicate (Z.to_nat keyLength - length got) "000"%byte in
          let '(tempIndexFileIn, got8) := read tempIndexFileIn 8 in
          if decide (gcount tempIndexFileIn = O) then Returns indexEntries
          else if decide (gcount tempIndexFileIn = 8%nat) then
            createIndex_load fuel' keyLength tempIndexFileIn
              (indexEntries ++ [mkIndexEntry entry_key (streamoff_of_bytes got8)])
          else Anomaly indeterminate_read
      else Returns indexEntries
  end.

(** The [while (getline(dataFile, line))] loop of [createIndexInMemorySort]
    in [main.cpp], which advances the offset by the length of the line. *)
Fixpoint createIndexInMemorySort_scan (fuel : nat) (keyLength : Z) (dataFile : ifstream)
    (line : list byte) (offset : Z) (indexEntries : list IndexEntry)
  : outcome (list IndexEntry) :=
  match fuel with
  | O => OutOfFuel
  | S fuel' =>
      let '(dataFile, line) := getline dataFile line in
      if failbit dataFile then Returns indexEntries
      else
        let indexEntries :=
          if keyLength <=? Z.of_nat (length line) then
            let key := substr line 0 keyLength in
            indexEntries ++ [mkIndexEntry key offset]
          else indexEntries in
        let offset := to_streamoff (wrap64 offset + wrap64 (Z.of_nat (length line) + 1)) in
        createIndexInMemorySort_scan fuel' keyLength dataFile line offset indexEntries
  end.

(** The same loop in the variant translation unit, which asks the stream for
    the offset. *)
Fixpoint createIndexInMemorySort_scan_tellg (fuel : nat) (keyLength : Z) (dataFile : ifstream)
    (line : list byte) (offset : Z) (indexEntries : list IndexEntry)
  : outcome (list IndexEntry) :=
  match fuel with
  | O => OutOfFuel
  | S fuel' =>
      let '(dataFile, line) := getline dataFile line in
      if failbit dataFile then Returns indexEntries
      else
        let indexEntries :=
          if keyLength <=? Z.of_nat (length line) then
            let key := substr line 0 keyLength in
            indexEntries ++ [mkIndexEntry key offset]
          else indexEntries in
        let '(dataFile, offset) := tellg dataFile in
        createIndexInMemorySort_scan_tellg fuel' keyLength dataFile line offset indexEntries
  end.

(** The [while (indexFile.good())] loop of [listRecords]; the result is the
    lines sent to [std::cout], each one followed there by [std::endl].  The
    data stream is the same object in every iteration. *)
Fixpoint listRecords_loop (fuel : nat) (keyLength : Z) (indexFile dataFile : ifstream)
    (cout : list (list byte)) : outcome (list (list byte)) :=
  match fuel with
  | O => OutOfFuel
  | S fuel' =>
      if good indexFile then
        if ALLOC_MAX <? keyLength then Anomaly bad_alloc
        else
          let '(indexFile, buffer) := read indexFile keyLength in
          if Z.of_nat (gcount indexFile) <? keyLength then Returns cout
          else
            let '(indexFile, got8) := read indexFile 8 in
            if negb (good indexFile) then Returns cout
            else
              let offset := streamoff_of_bytes got8 in
              let dataFile := seekg dataFile offset in
              let '(dataFile, record) := getline dataFile [] in
              listRecords_loop fuel' keyLength indexFile dataFile (cout ++ [record])
      else Returns cout
  end.

(** The state of the binary search of [searchForKey]. *)
Record search_state : Type := SearchState {
  low : Z;
  high : Z;
  found : bool;
  recordOffset : Z
}.

(** The body of the [while (low < high)] loop of [searchForKey]: one probe of
    the index file.  [buffer] comes from [new char[keyLength]]: what a short
    read leaves unwritten in it is indeterminate.  [recordOffset] is 0 until
    the read that follows a match.  [found] in the result tells that the
    iteration ended in [break]. *)
Definition searchForKey_probe (keyLength : Z) (key : list byte)
    (indexFile : ifstream) (st : search_state) : outcome (ifstream * search_state) :=
  let mid := wrap64 (low st + wrap64 (high st - low st) / 2) in
  let indexFile := seekg indexFile (to_streamoff (wrap64 (mid * wrap64 (keyLength + 8)))) in
  if ALLOC_MAX <? keyLength then Anomaly bad_alloc
  else
    let '(indexFile, buffer) := read indexFile keyLength in
    if Z.of_nat (length buffer) <? keyLength then Anomaly indeterminate_read
    else
      let currentKey := buffer in
      if string_lt currentKey key then
        Returns (indexFile, SearchState (wrap64 (mid + 1)) (high st) (found st) (recordOffset st))
      else if string_lt key currentKey then
        Returns (indexFile, SearchState (low st) mid (found st) (recordOffset st))
      else
        let '(indexFile, got8) := read indexFile 8 in
        Returns (indexFile, SearchState (low st) (high st) true (streamoff_of_bytes got8)).

(** The loop itself: probes are made while [low < high], until one of them
    ends in [break]. *)
Fixpoint searchForKey_loop (fuel : nat) (keyLength : Z) (key : list byte)
    (indexFile : ifstream) (st : search_state) : outcome search_state :=
  match fuel with
  | O => OutOfFuel
  | S fuel' =>
      if low st <? high st then
        '(indexFile, st) ← searchForKey_probe keyLength key indexFile st;
        if found st then Returns st
        else searchForKey_loop fuel' keyLength key indexFile st
      else Returns st
  end.

(** The part of [searchForKey] before the loop, on the opened index file:
    the size of the file, the number of records and the first search state. *)
Definition searchForKey_init (keyLength : Z) (index : list byte)
  : outcome (ifstream * search_state) :=
  let indexFile := ifstream_of index in
  let indexFile := seekg_end indexFile in
  let '(indexFile, fileSize) := tellg indexFile in
  let indexFile := seekg indexFile 0 in
  if decide (wrap64 (keyLength + 8) = 0) then Anomaly division_by_zero
  else
    let numRecords := wrap64 fileSize / wrap64 (keyLength + 8) in
    Returns (indexFile, SearchState 0 numRecords false 0).

(** [searchForKey] up to the end of the loop. *)
Definition searchForKey_lookup (keyLength : Z) (key : list byte) (index : list byte)
  : outcome search_state :=
  '(indexFile, st) ← searchForKey_init keyLength index;
  searchForKey_loop (S (length index)) keyLength key indexFile st.

(** One iteration of the loop: from a state in which the loop condition
    holds and no [break] was taken, the probe leads to the next state. *)
Definition search_iteration (keyLength : Z) (key : list byte)
    (a b : ifstream * search_state) : Prop :=
  low (snd a) < high (snd a) /\ found (snd a) = false /\
  searchForKey_probe keyLength key (fst a) (snd a) = Returns b.

(** The last part of [searchForKey]: the line sent to [std::cout]. *)
Definition searchForKey_print (data : list byte) (st : search_state) : list byte :=
  if found st then
    let dataFile := seekg (ifstream_of data) (recordOffset st) in
    let '(dataFile, record) := getline dataFile [] in
    record
  else bytes "Record not found".

(** What a call leaves behind: the file system, [std::cout] as the lines sent
    to it (each followed by [std::endl]) and [std::cerr] likewise. *)
Record effects : Type := Effects {
  fs_after : filesystem;
  cout : list (list byte);
  cerr : list string
}.

(** [argv[i]]. *)
Definition argument (argv : list string) (i : nat) : string :=
  default ""%string (argv !! i).

Section Program.

(** [std::sort], called as [std::sort(v.begin(), v.end(), compareIndexEntries)],
    and [atoi]. *)
Variable std_sort : list IndexEntry -> list IndexEntry.
Variable atoi : string -> Z.

(** [createIndex]: the temporary-file strategy.  The data stream fetches its
    bytes at its first read, which comes after the temporary file has been
    truncated. *)
Definition createIndex (fs : filesystem) (dataFilename indexFilename : string)
    (keyLength : Z) : outcome effects :=
  match ifstream_open fs dataFilename with
  | None => Returns (Effects fs [] ["Error opening data file for reading."%string])
  | Some _ =>
      let tempIndexFilename := (indexFilename +:+ ".tmp")%string in
      let fs := checkOrCreateIndexFile fs tempIndexFilename in
      match ofstream_open fs tempIndexFilename with
      | None => Returns (Effects fs [] ["Error opening temporary index file for writing."%string])
      | Some fs =>
          let data := default [] (ifstream_open fs dataFilename) in
          tempIndexFile ← createIndex_scan (S (length data)) keyLength (ifstream_of data) [] 0 [];
          let fs := ofstream_close fs tempIndexFilename tempIndexFile in
          indexEntries ←
            match ifstream_open fs tempIndexFilename with
            | Some temp => createIndex_load (S (length temp)) keyLength (ifstream_of temp) []
            | None => Returns []
            end;
          let indexEntries := std_sort indexEntries in
          let fs :=
            match ofstream_open fs indexFilename with
            | Some fs => ofstream_close fs indexFilename (write_entries keyLength indexEntries [])
            | None => fs
            end in
          Returns (Effects (remove fs tempIndexFilename) [] [])
      end
  end.

(** [createIndexInMemorySort] of [main.cpp]: the in-memory strategy. *)
Definition createIndexInMemorySort (fs : filesystem) (dataFilename indexFilename : string)
    (keyLength : Z) : outcome effects :=
  match ifstream_open fs dataFilename with
  | None => Returns (Effects fs [] ["Error opening data file for reading."%string])
  | Some data =>
      indexEntries ←
        createIndexInMemorySort_scan (S (length data)) keyLength (ifstream_of data) [] 0 [];
      let indexEntries := std_sort indexEntries in
      match ofstream_open fs indexFilename with
      | None => Returns (Effects fs [] ["Error opening index file for writing."%string])
      | Some fs =>
          Returns (Effects (ofstream_close fs indexFilename
                              (write_entries keyLength indexEntries [])) [] [])
      end
  end.

(** [createIndexInMemorySort] of the variant translation unit. *)
Definition createIndexInMemorySort_tellg (fs : filesystem) (dataFilename indexFilename : string)
    (keyLength : Z) : outcome effects :=
  match ifstream_open fs dataFilename with
  | None => Returns (Effects fs [] ["Error opening data file for reading."%string])
  | Some data =>
      indexEntries ←
        createIndexInMemorySort_scan_tellg (S (length data)) keyLength (ifstream_of data) [] 0 [];
      let indexEntries := std_sort indexEntries in
      match ofstream_open fs indexFilename with
      | None => Returns (Effects fs [] ["Error opening index file for writing."%string])
      | Some fs =>
          Returns (Effects (ofstream_close fs indexFilename
                              (write_entries keyLength indexEntries [])) [] [])
      end
  end.

(** [listRecords]. *)
Definition listRecords (fs : filesystem) (dataFilename indexFilename : string)
    (keyLength : Z) : outcome effects :=
  match ifstream_open fs indexFilename with
  | None => Returns (Effects fs [] ["Error opening index file for reading."%string])
  | Some index =>
      match ifstream_open fs dataFilename with
      | None => Returns (Effects fs [] ["Error opening data file for reading."%string])
      | Some data =>
          lines ← listRecords_loop (S (length index)) keyLength
                    (ifstream_of index) (ifstream_of data) [];
          Returns (Effects fs lines [])
      end
  end.

(** [searchForKey]. *)
Definition searchForKey (fs : filesystem) (dataFilename indexFilename : string)
    (key : list byte) (keyLength : Z) : outcome effects :=
  match ifstream_open fs indexFilename with
  | None => Returns (Effects fs [] ["Error opening index file for reading."%string])
  | Some index =>
      match ifstream_open fs dataFilename with
      | None => Returns (Effects fs [] ["Error opening data file for reading."%string])
      | Some data =>
          st ← searchForKey_lookup keyLength key index;
          Returns (Effects fs [searchForKey_print data st] [])
      end
  end.

(** [main]: the exit status and the effects of the run.  [argv] holds
    [argc] strings. *)
Definition main (argv : list string) (fs : filesystem) : outcome (Z * effects) :=
  let argc := Z.of_nat (length argv) in
  if argc <? 5 then
    Returns (1, Effects fs []
      [("Usage: " +:+ argument argv 0 +:+ " -c|-l|-s datafile indexfile keylength [key]")%string])
  else
    let mode := argument argv 1 in
    let dataFilename := argument argv 2 in
    let indexFilename := argument argv 3 in
    let keyLength := wrap64 (atoi (argument argv 4)) in
    let fs := checkOrCreateIndexFile fs indexFilename in
    if decide (mode = "-c"%string) then
      e ← createIndex fs dataFilename indexFilename keyLength;
      Returns (0, e)
    else if decide (mode = "-l"%string) then
      e ← listRecords fs dataFilename indexFilename keyLength;
      Returns (0, e)
    else if decide (mode = "-s"%string) then
      if decide (argc = 6) then
        let key := bytes (argument argv 5) in
        e ← searchForKey fs dataFilename indexFilename key keyLength;
        Returns (0, e)
      else
        Returns (1, Effects fs []
          [("Usage: " +:+ argument argv 0 +:+ " -s datafile indexfile keylength key")%string])
    else
      Returns (1, Effects fs []
        ["Invalid mode. Use -c to create index, -l to list records, or -s to search for a key."%string]).

End Program.

(* ================================================================== *)
(** * Instances of the library functions *)

(** Insertion of [x] into a sorted list, behind the elements that are not
    greater than it. *)
Fixpoint insert_entry (x : IndexEntry) (l : list IndexEntry) : list IndexEntry :=
  match l with
  | [] => [x]
  | y :: l' => if compareIndexEntries x y then x :: l else y :: insert_entry x l'
  end.

(** Insertion sort, the elements taken from left to right: an instance of
    [std::sort] (it is what libstdc++ runs on ranges of up to 16 elements). *)
Definition insertion_sort (l : list IndexEntry) : list IndexEntry :=
  foldl (fun sorted x => insert_entry x sorted) [] l.

Definition digit_value (b : byte) : option Z :=
  let n := Z.of_N (Byte.to_N b) in
  if (48 <=? n) && (n <=? 57) then Some (n - 48) else None.

Fixpoint decimal_value (acc : Z) (l : list byte) : Z :=
  match l with
  | [] => acc
  | b :: l' =>
      match digit_value b with
      | Some d => decimal_value (10 * acc + d) l'
      | None => acc
      end
  end.

(** An instance of [atoi] on strings that start with an optional sign and
    decimal digits. *)
Definition atoi_decimal (s : string) : Z :=
  match bytes s with
  | "-"%byte :: l => - decimal_value 0 l
  | "+"%byte :: l => decimal_value 0 l
  | l => decimal_value 0 l
  end.

(* ================================================================== *)
(** * The records of a data file and the entries of an index file *)

(** The bytes of [l] before its first newline. *)
Fixpoint first_line (l : list byte) : list byte :=
  match l with
  | [] => []
  | b :: l' => if decide (b = newline) then [] else b :: first_line l'
  end.

(** A line starts at the beginning of the file and behind every newline. *)
Definition line_start (data : list byte) (off : nat) : Prop :=
  off = O \/ (0 < off)%nat /\ data !! (off - 1)%nat = Some newline.

(** [r] is the record of [data] whose first byte is at offset [off]: a line
    starts there, before the end of the file, and [r] runs up to the next
    newline or to the end of the file. *)
Definition is_record (data : list byte) (off : nat) (r : list byte) : Prop :=
  line_start data off /\ (off < length data)%nat /\ r = first_line (drop off data).

(** Seeking a fresh stream on [data] to [off] and reading one line. *)
Definition read_line_at (data : list byte) (off : Z) : list byte :=
  (getline (seekg (ifstream_of data) off) []).2.

(** The number of whole entries of an index file. *)
Definition entry_count (keyLength : Z) (index : list byte) : nat :=
  Z.to_nat (Z.of_nat (length index) / (keyLength + 8)).

(** The [i]-th entry of an index file, read at [i * (keyLength + 8)]. *)
Definition entry_at (keyLength : Z) (index : list byte) (i : nat) : IndexEntry :=
  let at_entry := drop (i * Z.to_nat (keyLength + 8)) index in
  mkIndexEntry (take (Z.to_nat keyLength) at_entry)
               (streamoff_of_bytes (take 8 (drop (Z.to_nat keyLength) at_entry))).

(** The entries of an index file, read one by one from its start. *)
Definition index_entries (keyLength : Z) (index : list byte) : list IndexEntry :=
  map (entry_at keyLength index) (seq 0 (entry_count keyLength index)).

(** Keys in non-decreasing byte-lexicographic order. *)
Definition keys_nondecreasing (keys : list (list byte)) : Prop :=
  forall (i j : nat) (a b : list byte),
    keys !! i = Some a -> keys !! j = Some b -> (i <= j)%nat -> string_compare a b <> Gt.

(** The entry the builder makes of the record [r] found at offset [off]. *)
Definition entry_of (keyLength : Z) (off : nat) (r : list byte) : IndexEntry :=
  mkIndexEntry (substr r 0 keyLength) (Z.of_nat off).

(** [es] holds, once each, the entries of the records of [data] that start at
    or behind [p] and are at least [keyLength] bytes long, and nothing else. *)
Definition indexes_from (p : nat) (data : list byte) (keyLength : Z) (es : list IndexEntry)
  : Prop :=
  NoDup (offset <$> es) /\
  forall e, e ∈ es <->
    exists (off : nat) (r : list byte),
      (p <= off)%nat /\ is_record data off r /\ keyLength <= Z.of_nat (length r) /\
      e = entry_of keyLength off r.

(** The entries of a list all carry keys of [keyLength] bytes and offsets
    that are positions in a file. *)
Definition well_formed_entries (keyLength : Z) (es : list IndexEntry) : Prop :=
  Forall (fun e => Z.of_nat (length (key e)) = keyLength /\ 0 <= offset e <= STREAMOFF_MAX) es.

(** The state a probe leads to, told by the entries of the index file. *)
Definition probe_state (keyLength : Z) (target index : list byte) (st : search_state)
  : search_state :=
  let mid := low st + (high st - low st) / 2 in
  let e := entry_at keyLength index (Z.to_nat mid) in
  if string_lt (key e) target then
    SearchState (mid + 1) (high st) (found st) (recordOffset st)
  else if string_lt target (key e) then
    SearchState (low st) mid (found st) (recordOffset st)
  else SearchState (low st) (high st) true (offset e).

(** The invariant of the search loop: the bounds are in order and inside the
    index file, and every entry that carries the target key lies in
    [low, high). *)
Definition search_invariant (keyLength : Z) (target index : list byte) (st : search_state)
  : Prop :=
  0 <= low st <= high st /\ high st <= Z.of_nat (entry_count keyLength index) /\
  forall i : nat,
    (i < entry_count keyLength index)%nat ->
    key (entry_at keyLength index i) = target ->
    low st <= Z.of_nat i < high st.

(** How the loop may end: without a match and with an empty range, or with
    the offset of an entry of the range that carries the target key. *)
Definition search_finished (keyLength : Z) (target index : list byte) (st : search_state)
  : Prop :=
  (found st = false /\ low st = high st) \/
  (found st = true /\
   exists i : nat,
     (i < entry_count keyLength index)%nat /\ low st <= Z.of_nat i < high st /\
     key (entry_at keyLength index i) = target /\
     recordOffset st = offset (entry_at keyLength index i)).

(** The command lines [main] refuses: fewer than four arguments, an unknown
    mode, or a search without exactly one key. *)
Definition malformed_arguments (argv : list string) : Prop :=
  (length argv < 5)%nat \/
  (argument argv 1 <> "-c"%string /\ argument argv 1 <> "-l"%string /\
   argument argv 1 <> "-s"%string) \/
  (argument argv 1 = "-s"%string /\ length argv <> 6%nat).

(** The diagnostic for the first file that a well-formed command line needs
    and that cannot be opened: the data file or the temporary file of a
    build, the index file or the data file of a listing or of a search. *)
Definition unopenable_file_diagnostic (argv : list string) (fs : filesystem) : option string :=
  if decide (argument argv 1 = "-c"%string) then
    match files fs !! argument argv 2 with
    | None => Some "Error opening data file for reading."%string
    | Some _ =>
        if decide ((argument argv 3 +:+ ".tmp")%string ∈ unwritable fs)
        then Some "Error opening temporary index file for writing."%string
        else None
    end
  else
    match files fs !! argument argv 3 with
    | None => Some "Error opening index file for reading."%string
    | Some _ =>
        match files fs !! argument argv 2 with
        | None => Some "Error opening data file for reading."%string
        | Some _ => None
        end
    end.

(** Every file is small enough for its size, and for the size of an index
    built over it, to be a [std::streamoff]. *)
Definition file_sizes_fit (fs : filesystem) : Prop :=
  forall name file, files fs !! name = Some file ->
    9 * Z.of_nat (length file) <= STREAMOFF_MAX.

(* ================================================================== *)
(** * Sample files *)

(** A data file of four records, the last one shorter than four bytes. *)
Definition sample_data : list byte := text ["AAAA-1"; "CCCC-3"; "BBBB-2"; "xy"]%string.

Definition sample_fs : filesystem :=
  Filesystem {[ "data.txt"%string := sample_data ]} ∅.

(** The index file of [sample_data] for keys of four bytes. *)
Definition sample_index : list byte :=
  write_entries 4
    (insertion_sort [mkIndexEntry (bytes "AAAA") 0; mkIndexEntry (bytes "CCCC") 7;
                     mkIndexEntry (bytes "BBBB") 14]) [].

Definition sample_indexed_fs : filesystem :=
  Filesystem {[ "data.txt"%string := sample_data; "index.idx"%string := sample_index ]} ∅.

(** A data file in which two records start with the same four bytes. *)
Definition duplicate_keys_data : list byte := text ["AAAA-1"; "AAAA-2"]%string.

Definition duplicate_keys_fs : filesystem :=
  Filesystem {[ "data.txt"%string := duplicate_keys_data ]} ∅.

(** The data file of the scenario of the specification, and that file with
    its index for keys of four bytes. *)
Definition scenario_data : list byte := text ["AAAA-1"; "BBBB-2"; "CCCC-3"]%string.

Definition scenario_fs : filesystem :=
  Filesystem {[ "data.txt"%string := scenario_data ]} ∅.

Definition scenario_indexed_fs : filesystem :=
  Filesystem {[ "data.txt"%string := scenario_data;
                "index.idx"%string :=
                  write_entries 4
                    [mkIndexEntry (bytes "AAAA") 0; mkIndexEntry (bytes "BBBB") 7;
                     mkIndexEntry (bytes "CCCC") 14] [] ]} ∅.

(** The sample data file beside an index file that cannot be opened for
    writing. *)
Definition locked_index_fs : filesystem :=
  Filesystem {[ "data.txt"%string := sample_data ]} {[ "index.idx"%string ]}.

(** The sample data file under the name of the temporary file of a build. *)
Definition temporary_name_fs : filesystem :=
  Filesystem {[ "index.idx.tmp"%string := sample_data ]} ∅.

(** The sample data file where the temporary file of a build cannot be
    opened for writing. *)
Definition locked_temporary_fs : filesystem :=
  Filesystem {[ "data.txt"%string := sample_data ]} {[ "index.idx.tmp"%string ]}.

(** An offset at which [listRecords] reads no line: a negative one, to which
    [seekg] cannot go, and one at or behind the end of the data file, where
    [getline] extracts nothing. *)
Definition unreadable_at (data : list byte) (off : Z) : bool :=
  (off <? 0) || (Z.of_nat (length data) <=? off).

(** The lines of a listing, told by the entries of the index file.  [failed]
    tells that the data stream has failed: it is the same stream for every
    entry and nothing clears its state, so from the first unreadable offset
    on every line is empty. *)
Fixpoint listed_lines (data : list byte) (failed : bool) (es : list IndexEntry)
  : list (list byte) :=
  match es with
  | [] => []
  | e :: es' =>
      let failed := failed || unreadable_at data (offset e) in
      (if failed then [] else first_line (drop (Z.to_nat (offset e)) data))
        :: listed_lines data failed es'
  end.

(** The sample index file beside a data file that has lost its last two
    records: the offset of the second entry is the length of the data file,
    the offset of the third entry is the start of its second record. *)
Definition stale_index_fs : filesystem :=
  Filesystem {[ "data.txt"%string := text ["AAAA-1"; "CCCC-3"]%string;
                "index.idx"%string := sample_index ]} ∅.

(* ================================================================== *)
(** * The variant translation unit *)

Module InMemory.

(** [main] of the variant translation unit: it differs from [main] of
    [main.cpp] in its build mode, which calls [createIndexInMemorySort]. *)
Definition main (std_sort : list IndexEntry -> list IndexEntry) (atoi : string -> Z)
    (argv : list string) (fs : filesystem) : outcome (Z * effects) :=
  let argc := Z.of_nat (length argv) in
  if argc <? 5 then
    Returns (1, Effects fs []
      [("Usage: " +:+ argument argv 0 +:+ " -c|-l|-s datafile indexfile keylength [key]")%string])
  else
    let mode := argument argv 1 in
    let dataFilename := argument argv 2 in
    let indexFilename := argument argv 3 in
    let keyLength := wrap64 (atoi (argument argv 4)) in
    let fs := checkOrCreateIndexFile fs indexFilename in
    if decide (mode = "-c"%string) then
      e ← createIndexInMemorySort_tellg std_sort fs dataFilename indexFilename keyLength;
      Returns (0, e)
    else if decide (mode = "-l"%string) then
      e ← listRecords fs dataFilename indexFilename keyLength;
      Returns (0, e)
    else if decide (mode = "-s"%string) then
      if decide (argc = 6) then
        let key := bytes (argument argv 5) in
        e ← searchForKey fs dataFilename indexFilename key keyLength;
        Returns (0, e)
      else
        Returns (1, Effects fs []
          [("Usage: " +:+ argument argv 0 +:+ " -s datafile indexfile keylength key")%string])
    else
      Returns (1, Effects fs []
        ["Invalid mode. Use -c to create index, -l to list records, or -s to search for a key."%string]).

End InMemory.

(* ================================================================== *)
(** * Facts about byte strings *)

Lemma to_N_inj (x y : byte) : Byte.to_N x = Byte.to_N y -> x = y.
Proof.
  intros H. assert (Some x = Some y) as [= ->]; [|done].
  by rewrite <- (Byte.of_to_N x), <- (Byte.of_to_N y), H.
Qed.

Lemma string_compare_refl a : string_compare a a = Eq.
Proof. induction a as [|x a IH]; simpl; [done|]. by rewrite N.compare_refl. Qed.

Lemma string_compare_eq a b : string_compare a b = Eq -> a = b.
Proof.
  revert b. induction a as [|x a IH]; intros [|y b]; simpl; try done.
  destruct (N.compare_spec (Byte.to_N x) (Byte.to_N y)) as [E| |]; try done.
  intros H. f_equal; [by apply to_N_inj | by apply IH].
Qed.

Lemma string_compare_antisym a b : string_compare b a = CompOpp (string_compare a b).
Proof.
  revert b. induction a as [|x a IH]; intros [|y b]; simpl; try done.
  rewrite (N.compare_antisym (Byte.to_N x) (Byte.to_N y)).
  destruct (Byte.to_N x ?= Byte.to_N y)%N; simpl; auto.
Qed.

Lemma string_compare_lt_trans a b c :
  string_compare a b = Lt -> string_compare b c = Lt -> string_compare a c = Lt.
Proof.
  revert b c. induction a as [|x a IH]; intros [|y b] [|z c]; simpl; try done.
  destruct (N.compare_spec (Byte.to_N x) (Byte.to_N y)) as [E|L|G];
    destruct (N.compare_spec (Byte.to_N y) (Byte.to_N z)) as [E'|L'|G']; try done.
  - rewrite E, E', N.compare_refl. apply IH.
  - intros _ _. rewrite E. by apply N.compare_lt_iff in L' as ->.
  - intros _ _. rewrite <- E'. by apply N.compare_lt_iff in L as ->.
  - intros _ _. assert (Byte.to_N x < Byte.to_N z)%N as L'' by lia.
    by apply N.compare_lt_iff in L'' as ->.
Qed.

Lemma string_lt_irrefl a : string_lt a a = false.
Proof. unfold string_lt. by rewrite string_compare_refl. Qed.

Lemma string_lt_false_iff a b : string_lt a b = false <-> string_compare b a <> Gt.
Proof.
  unfold string_lt. rewrite (string_compare_antisym a b).
  destruct (string_compare a b); simpl; split; congruence.
Qed.

(** The third branch of the comparison in [searchForKey]: neither string is
    less than the other. *)
Lemma string_lt_neither a b : string_lt a b = false -> string_lt b a = false -> a = b.
Proof.
  unfold string_lt. rewrite (string_compare_antisym a b).
  destruct (string_compare a b) eqn:E; simpl; try done.
  intros _ _. by apply string_compare_eq.
Qed.

Lemma string_lt_trans a b c : string_lt a b = true -> string_lt b c = true -> string_lt a c = true.
Proof.
  unfold string_lt.
  destruct (string_compare a b) eqn:E1; try done.
  destruct (string_compare b c) eqn:E2; try done.
  by rewrite (string_compare_lt_trans _ _ _ E1 E2).
Qed.

(* ================================================================== *)
(** * Facts about machine integers *)

Lemma wrap64_small z : 0 <= z < SIZE_WIDTH -> wrap64 z = z.
Proof. intros H. unfold wrap64. by apply Z.mod_small. Qed.

Lemma to_streamoff_small z : 0 <= z <= STREAMOFF_MAX -> to_streamoff z = z.
Proof.
  intros H. unfold to_streamoff. cbv zeta. rewrite wrap64_small.
  - destruct (Z.leb_spec z STREAMOFF_MAX); lia.
  - unfold STREAMOFF_MAX, SIZE_WIDTH in *. lia.
Qed.

Lemma length_le_bytes n z : length (le_bytes n z) = n.
Proof. revert z. induction n as [|n IH]; intros z; simpl; [done|]. by rewrite IH. Qed.

Lemma to_N_byte_of_Z z : Z.of_N (Byte.to_N (byte_of_Z z)) = z mod 256.
Proof.
  unfold byte_of_Z. pose proof (Z.mod_pos_bound z 256 ltac:(lia)) as Hb.
  destruct (Byte.of_N (Z.to_N (z mod 256))) as [b|] eqn:E; simpl.
  - apply Byte.to_of_N in E. rewrite E. lia.
  - apply Byte.of_N_None_iff in E. lia.
Qed.

Lemma le_value_le_bytes n z : le_value (le_bytes n z) = z mod 256 ^ Z.of_nat n.
Proof.
  revert z. induction n as [|n IH]; intros z.
  - simpl. by rewrite Z.mod_1_r.
  - cbn [le_bytes le_value]. rewrite to_N_byte_of_Z, IH.
    rewrite Nat2Z.inj_succ, Z.pow_succ_r by lia.
    rewrite Z.rem_mul_r by lia. lia.
Qed.

(** An offset survives the trip through its eight bytes. *)
Lemma streamoff_of_bytes_bytes z :
  0 <= z <= STREAMOFF_MAX -> streamoff_of_bytes (streamoff_bytes z) = z.
Proof.
  intros H. unfold streamoff_of_bytes, streamoff_bytes. rewrite le_value_le_bytes.
  change (256 ^ Z.of_nat 8) with SIZE_WIDTH. fold (wrap64 z).
  rewrite wrap64_small; [by apply to_streamoff_small|].
  unfold STREAMOFF_MAX, SIZE_WIDTH in *. lia.
Qed.

(* ================================================================== *)
(** * Lines *)

Lemma first_line_no_newline l : newline ∉ first_line l.
Proof.
  induction l as [|b l IH]; simpl; [apply not_elem_of_nil|].
  destruct (decide (b = newline)) as [|Hb]; [apply not_elem_of_nil|].
  rewrite elem_of_cons. intros [E|?]; [by apply Hb|done].
Qed.

Lemma find_newline_Some l i :
  find_newline l = Some i ->
  l !! i = Some newline /\ take i l = first_line l /\ (i < length l)%nat.
Proof.
  revert i. induction l as [|b l IH]; intros i; simpl; [done|].
  destruct (decide (b = newline)) as [->|Hb].
  - intros [= <-]. simpl. split_and!; [done|done|lia].
  - destruct (find_newline l) as [j|] eqn:E; simpl; [|done].
    intros [= <-]. destruct (IH j eq_refl) as (H1 & H2 & H3).
    simpl. split_and!; [done|by rewrite H2|lia].
Qed.

Lemma find_newline_None l : find_newline l = None -> first_line l = l.
Proof.
  induction l as [|b l IH]; simpl; [done|].
  destruct (decide (b = newline)); [done|].
  destruct (find_newline l); simpl; [done|]. intros _. by rewrite IH.
Qed.

(** No line starts inside a line. *)
Lemma line_start_not_inside data p off :
  line_start data off -> (p < off)%nat ->
  (off <= p + length (first_line (drop p data)))%nat -> False.
Proof.
  intros [->|[Hpos Hnl]] Hlt Hle; [lia|].
  apply (first_line_no_newline (drop p data)).
  apply list_elem_of_lookup. exists (off - 1 - p)%nat.
  assert (off - 1 - p < length (first_line (drop p data)))%nat as Hin by lia.
  assert (first_line (drop p data) = take (length (first_line (drop p data))) (drop p data)) as ->.
  { destruct (find_newline (drop p data)) as [i|] eqn:E.
    - apply find_newline_Some in E as (_ & E & Hi). rewrite <- E.
      by rewrite length_take_le by lia.
    - apply find_newline_None in E. rewrite E. by rewrite firstn_all. }
  rewrite lookup_take_lt by done. rewrite lookup_drop.
  by replace (p + (off - 1 - p))%nat with (off - 1)%nat by lia.
Qed.

(* ================================================================== *)
(** * The scan of the data file *)

Lemma is_record_unique data off r r' : is_record data off r -> is_record data off r' -> r = r'.
Proof. intros (_ & _ & ->) (_ & _ & ->). done. Qed.

Lemma indexes_from_nil p data keyLength :
  (length data <= p)%nat -> indexes_from p data keyLength [].
Proof.
  intros Hp. split; [constructor|]. intros e. split.
  - intros H. by apply elem_of_nil in H.
  - intros (off & r & Hoff & (_ & Hlt & _) & _). lia.
Qed.

(** The step of the scan: the record at [p] runs to [p'], no record starts
    in between, and [es] covers what starts at or behind [p']. *)
Lemma indexes_from_step p p' data keyLength es :
  line_start data p -> (p < length data)%nat ->
  (p + length (first_line (drop p data)) < p')%nat ->
  (forall off, line_start data off -> (off < length data)%nat -> (p < off)%nat -> (p' <= off)%nat) ->
  indexes_from p' data keyLength es ->
  indexes_from p data keyLength
    (if keyLength <=? Z.of_nat (length (first_line (drop p data)))
     then entry_of keyLength p (first_line (drop p data)) :: es else es).
Proof.
  intros Hstart Hp Hp' Hnext [Hnodup Hes].
  assert (is_record data p (first_line (drop p data))) as Hrec by done.
  assert (forall e, e ∈ es -> (Z.of_nat p' <= offset e)) as Hoffs.
  { intros e (off & r & Hoff & _ & _ & ->)%Hes. simpl. lia. }
  split.
  - destruct (_ <=? _); [|done]. simpl. constructor; [|done].
    intros (e & He & Hin)%list_elem_of_fmap. apply Hoffs in Hin. lia.
  - intros e. split.
    + destruct (Z.leb_spec keyLength (Z.of_nat (length (first_line (drop p data))))) as [Hk|Hk].
      * intros [->|Hin]%elem_of_cons.
        -- exists p, (first_line (drop p data)). split_and!; [lia|done..].
        -- apply Hes in Hin as (off & r & Hoff & Hr). exists off, r. split; [lia|done].
      * intros Hin. apply Hes in Hin as (off & r & Hoff & Hr). exists off, r. split; [lia|done].
    + intros (off & r & Hoff & Hr & Hk & ->).
      destruct (decide (off = p)) as [->|Hne].
      * rewrite (is_record_unique _ _ _ _ Hr Hrec) in *.
        destruct (Z.leb_spec keyLength (Z.of_nat (length (first_line (drop p data))))); [|lia].
        apply elem_of_cons. by left.
      * assert (e_in : entry_of keyLength off r ∈ es).
        { apply Hes. exists off, r. split_and!; try done.
          destruct Hr as (Hs & Hl & _). apply Hnext; [done|done|lia]. }
        destruct (_ <=? _); [apply elem_of_cons; by right|done].
Qed.

Lemma scan_tellg_spec fuel keyLength data : forall p line acc gc,
  line_start data p -> (p <= length data)%nat -> (length data - p < fuel)%nat ->
  exists es,
    createIndexInMemorySort_scan_tellg fuel keyLength (Ifstream data p false false gc)
      line (Z.of_nat p) acc = Returns (acc ++ es) /\
    indexes_from p data keyLength es /\
    (0 <= keyLength -> Z.of_nat (length es) * (keyLength + 8) <= 9 * Z.of_nat (length data - p)).
Proof.
  induction fuel as [|fuel IH]; intros p line acc gc Hstart Hp Hfuel; [lia|].
  cbn [createIndexInMemorySort_scan_tellg]. unfold getline. cbn [good eofbit failbit negb andb content gpos gcount].
  destruct (find_newline (drop p data)) as [i|] eqn:Efind.
  - (* a line that ends in a newline *)
    apply find_newline_Some in Efind as (Hnl & Htake & Hi).
    rewrite length_drop in Hi. rewrite lookup_drop in Hnl.
    cbn [failbit]. unfold tellg. cbn [good eofbit failbit negb andb gpos].
    assert (length (first_line (drop p data)) = i) as Hlen.
    { rewrite <- Htake, length_take_le; [done|]. rewrite length_drop. lia. }
    destruct (IH (p + i + 1)%nat (take i (drop p data))
                (if keyLength <=? Z.of_nat (length (take i (drop p data)))
                 then acc ++ [mkIndexEntry (substr (take i (drop p data)) 0 keyLength) (Z.of_nat p)]
                 else acc) gc) as (es & Hrun & Hes & Hsize).
    { right. split; [lia|]. by replace (p + i + 1 - 1)%nat with (p + i)%nat by lia. }
    { lia. }
    { lia. }
    rewrite Hrun. rewrite Htake in *.
    exists (if keyLength <=? Z.of_nat (length (first_line (drop p data)))
            then entry_of keyLength p (first_line (drop p data)) :: es else es).
    split_and!.
    + destruct (_ <=? _); [|done]. by rewrite <- app_assoc.
    + apply (indexes_from_step p (p + i + 1)%nat); [done|lia|lia| |done].
      intros off Hs Hl Hlt. destruct (decide (p + i + 1 <= off)%nat); [done|].
      exfalso. apply (line_start_not_inside data p off); [done|lia|lia].
    + intros Hk. specialize (Hsize Hk).
      destruct (Z.leb_spec keyLength (Z.of_nat (length (first_line (drop p data)))));
        cbn [length]; lia.
  - (* the end of the file *)
    apply find_newline_None in Efind.
    cbn [failbit]. case_bool_decide as Hrest.
    + (* nothing left *)
      exists []. rewrite app_nil_r. split_and!; [done| |simpl; lia].
      apply indexes_from_nil.
      apply (f_equal length) in Hrest. rewrite length_drop in Hrest. simpl in Hrest. lia.
    + (* a last line without newline *)
      assert (p < length data)%nat as Hlt.
      { destruct (decide (p < length data)%nat); [done|]. destruct Hrest.
        apply drop_ge. lia. }
      unfold tellg. cbn [good eofbit failbit negb andb gpos set_fail content gcount].
      destruct fuel as [|fuel]; [lia|].
      cbn [createIndexInMemorySort_scan_tellg]. unfold getline.
      cbn [good eofbit failbit negb andb gpos set_fail content gcount].
      rewrite <- Efind.
      exists (if keyLength <=? Z.of_nat (length (first_line (drop p data)))
              then entry_of keyLength p (first_line (drop p data)) :: [] else []).
      split_and!.
      * destruct (_ <=? _); [done|by rewrite app_nil_r].
      * apply (indexes_from_step p (S (length data))); [done|done| | |].
        -- rewrite Efind, length_drop. lia.
        -- intros off Hs Hl Hoff. exfalso.
           apply (line_start_not_inside data p off); [done|lia|].
           rewrite Efind, length_drop. lia.
        -- apply indexes_from_nil. lia.
      * intros Hk. rewrite Efind, length_drop.
        destruct (Z.leb_spec keyLength (Z.of_nat (length data - p))); cbn [length]; lia.
Qed.

(* ================================================================== *)
(** * The three scans agree *)

Lemma write_entries_snoc keyLength es e f :
  write_entries keyLength (es ++ [e]) f = write_entry keyLength (write_entries keyLength es f) e.
Proof. unfold write_entries. by rewrite foldl_app. Qed.

(** [createIndex] writes to the temporary file what the in-memory scan
    collects. *)
Lemma createIndex_scan_tellg fuel keyLength : forall dataFile line off acc,
  createIndex_scan fuel keyLength dataFile line off (write_entries keyLength acc []) =
  (fun es => write_entries keyLength es []) <$>
    createIndexInMemorySort_scan_tellg fuel keyLength dataFile line off acc.
Proof.
  induction fuel as [|fuel IH]; intros dataFile line off acc; [done|].
  cbn [createIndex_scan createIndexInMemorySort_scan_tellg].
  destruct (getline dataFile line) as [dataFile' line'].
  destruct (failbit dataFile'); [done|].
  destruct (tellg dataFile') as [dataFile'' off'].
  destruct (keyLength <=? Z.of_nat (length line')); [|apply IH].
  rewrite <- IH. by rewrite write_entries_snoc.
Qed.

(** Adding up the lengths of the lines gives the offsets the stream reports,
    as long as they are offsets of lines that are read. *)
Lemma scan_length_tellg fuel keyLength data : forall p line acc gc,
  (p <= length data)%nat -> Z.of_nat (length data) <= STREAMOFF_MAX ->
  createIndexInMemorySort_scan fuel keyLength (Ifstream data p false false gc)
    line (Z.of_nat p) acc =
  createIndexInMemorySort_scan_tellg fuel keyLength (Ifstream data p false false gc)
    line (Z.of_nat p) acc.
Proof.
  induction fuel as [|fuel IH]; intros p line acc gc Hp Hsize; [done|].
  cbn [createIndexInMemorySort_scan createIndexInMemorySort_scan_tellg].
  unfold getline. cbn [good eofbit failbit negb andb content gpos gcount].
  destruct (find_newline (drop p data)) as [i|] eqn:Efind.
  - apply find_newline_Some in Efind as (_ & _ & Hi). rewrite length_drop in Hi.
    cbn [failbit]. unfold tellg. cbn [good eofbit failbit negb andb gpos].
    rewrite length_take_le by (rewrite length_drop; lia).
    assert (to_streamoff (wrap64 (Z.of_nat p) + wrap64 (Z.of_nat i + 1)) = Z.of_nat (p + i + 1))
      as ->.
    { unfold STREAMOFF_MAX in Hsize.
      rewrite !wrap64_small by (unfold SIZE_WIDTH; lia).
      rewrite to_streamoff_small by (unfold STREAMOFF_MAX; lia). lia. }
    apply IH; [lia|done].
  - cbn [failbit]. case_bool_decide; [done|].
    unfold tellg. cbn [good eofbit failbit negb andb gpos set_fail content gcount].
    destruct fuel as [|fuel]; [done|].
    cbn [createIndexInMemorySort_scan createIndexInMemorySort_scan_tellg].
    unfold getline. by cbn [good eofbit failbit negb andb gpos set_fail content gcount].
Qed.

(* ================================================================== *)
(** * Serialized entries *)

Lemma write_entry_app keyLength f e :
  Z.of_nat (length (key e)) = keyLength ->
  write_entry keyLength f e = f ++ key e ++ streamoff_bytes (offset e).
Proof.
  intros Hk. unfold write_entry, write. rewrite <- app_assoc. f_equal.
  by rewrite firstn_all2 by lia.
Qed.

Lemma write_entries_cons keyLength e es f :
  Z.of_nat (length (key e)) = keyLength ->
  write_entries keyLength (e :: es) f =
  f ++ key e ++ streamoff_bytes (offset e) ++ write_entries keyLength es [].
Proof.
  intros Hk. unfold write_entries. cbn [foldl]. rewrite write_entry_app by done.
  assert (forall g, foldl (write_entry keyLength) g es =
                    g ++ foldl (write_entry keyLength) [] es) as Hshift.
  { induction es as [|e' es IH] using rev_ind; intros g.
    - simpl. by rewrite app_nil_r.
    - rewrite !foldl_app. cbn [foldl]. rewrite (IH g).
      unfold write_entry, write. by rewrite !app_assoc. }
  rewrite Hshift. by rewrite <- !app_assoc.
Qed.

Lemma length_write_entries keyLength es :
  well_formed_entries keyLength es ->
  Z.of_nat (length (write_entries keyLength es [])) = Z.of_nat (length es) * (keyLength + 8).
Proof.
  induction 1 as [|e es [Hk _] _ IH]; [done|].
  rewrite write_entries_cons by done. cbn [app]. rewrite !length_app.
  unfold streamoff_bytes. rewrite length_le_bytes. cbn [length]. lia.
Qed.

(* ================================================================== *)
(** * Reading entries back *)

(** A read that stays inside the file stores all its bytes and leaves the
    stream good. *)
Lemma read_within s n :
  good s = true -> 0 <= n -> (gpos s + Z.to_nat n <= length (content s))%nat ->
  read s n =
  (Ifstream (content s) (gpos s + Z.to_nat n) false false (Z.to_nat n),
   take (Z.to_nat n) (drop (gpos s) (content s))).
Proof.
  intros Hgood Hn Hin. unfold read. rewrite Hgood. cbv zeta.
  rewrite length_take_le by (rewrite length_drop; lia).
  rewrite bool_decide_eq_false_2 by lia. done.
Qed.

Lemma read_at_end s n :
  good s = true -> (length (content s) <= gpos s)%nat ->
  read s n =
  (Ifstream (content s) (gpos s) (bool_decide (0 < n)) (bool_decide (0 < n)) 0, []).
Proof.
  intros Hgood Hend. unfold read. rewrite Hgood. cbv zeta.
  rewrite drop_ge by done. rewrite take_nil. cbn [length].
  by rewrite Nat.add_0_r.
Qed.

Lemma read_not_good s n :
  good s = false -> read s n = (Ifstream (content s) (gpos s) (eofbit s) true 0, []).
Proof. intros Hgood. unfold read. by rewrite Hgood. Qed.

Lemma createIndex_load_spec keyLength es :
  0 <= keyLength <= ALLOC_MAX -> well_formed_entries keyLength es ->
  forall fuel pre acc gc,
    (length es < fuel)%nat ->
    createIndex_load fuel keyLength
      (Ifstream (pre ++ write_entries keyLength es []) (length pre) false false gc) acc =
    Returns (acc ++ es).
Proof.
  intros Hk Hwf. induction Hwf as [|e es [Hlen Hoff] Hwf IH]; intros fuel pre acc gc Hfuel.
  - destruct fuel as [|fuel]; [simpl in Hfuel; lia|].
    cbn [createIndex_load good eofbit failbit negb andb].
    destruct (Z.ltb_spec ALLOC_MAX keyLength); [lia|].
    unfold write_entries. cbn [foldl]. rewrite app_nil_r.
    rewrite read_at_end by done. cbn [content gpos].
    case_bool_decide.
    + rewrite read_not_good by done. cbn [gcount].
      rewrite decide_True by done. by rewrite app_nil_r.
    + rewrite read_at_end by done. cbn [gcount].
      rewrite decide_True by done. by rewrite app_nil_r.
  - destruct fuel as [|fuel]; [simpl in Hfuel; lia|].
    cbn [createIndex_load good eofbit failbit negb andb].
    destruct (Z.ltb_spec ALLOC_MAX keyLength); [lia|].
    rewrite write_entries_cons by done. cbn [app].
    rewrite read_within; cbn [good eofbit failbit negb andb content gpos];
      [|done|lia|rewrite !length_app; lia].
    rewrite drop_app_length.
    replace (Z.to_nat keyLength) with (length (key e)) by lia.
    rewrite take_app_length.
    rewrite read_within; cbn [good eofbit failbit negb andb content gpos];
      [|done|lia|rewrite !length_app; unfold streamoff_bytes; rewrite length_le_bytes; lia].
    cbn [gcount]. rewrite decide_False by (change (Z.to_nat 8) with 8%nat; lia).
    rewrite decide_True by done.
    rewrite (app_assoc pre (key e)), drop_app_length'
      by (rewrite length_app; lia).
    change (Z.to_nat 8) with (length (streamoff_bytes (offset e))).
    rewrite take_app_length.
    rewrite Nat.sub_diag. cbn [replicate]. rewrite app_nil_r.
    rewrite streamoff_of_bytes_bytes by done.
    replace (mkIndexEntry (key e) (offset e)) with e by by destruct e.
    rewrite (app_assoc (pre ++ key e)).
    replace (length pre + length (key e) + length (streamoff_bytes (offset e)))%nat
      with (length ((pre ++ key e) ++ streamoff_bytes (offset e)))
      by (rewrite !length_app; lia).
    rewrite IH by (simpl in Hfuel; lia).
    by rewrite <- app_assoc.
Qed.

(* ================================================================== *)
(** * Insertion sort meets the contract of [std::sort] *)

Lemma insert_entry_Permutation x l : Permutation (insert_entry x l) (x :: l).
Proof.
  induction l as [|y l IH]; simpl; [done|].
  destruct (compareIndexEntries x y); [done|].
  rewrite IH. apply perm_swap.
Qed.

Lemma insert_entry_sorted x l :
  StronglySorted (fun a b => compareIndexEntries b a = false) l ->
  StronglySorted (fun a b => compareIndexEntries b a = false) (insert_entry x l).
Proof.
  induction 1 as [|y l Hsorted IH Hall]; simpl.
  - repeat constructor.
  - destruct (compareIndexEntries x y) eqn:Exy.
    + constructor; [by constructor|]. constructor.
      * unfold compareIndexEntries in *. destruct (string_lt (key y) (key x)) eqn:E; [|done].
        pose proof (string_lt_trans _ _ _ Exy E) as Hxx. by rewrite string_lt_irrefl in Hxx.
      * eapply Forall_impl; [exact Hall|]. intros z Hz. simpl in Hz.
        unfold compareIndexEntries in *. destruct (string_lt (key z) (key x)) eqn:E; [|done].
        by rewrite (string_lt_trans _ _ _ E Exy) in Hz.
    + constructor; [done|].
      rewrite (insert_entry_Permutation x l). by constructor.
Qed.

Lemma StronglySorted_sorted_by comp l :
  StronglySorted (fun a b => comp b a = false) l -> sorted_by comp l.
Proof.
  induction 1 as [|y l Hsorted IH Hall]; intros i j a b Hi Hj Hlt.
  - by rewrite lookup_nil in Hi.
  - destruct j as [|j]; [lia|]. simpl in Hj. destruct i as [|i].
    + simpl in Hi. injection Hi as ->.
      rewrite Forall_forall in Hall. apply Hall.
      by eapply list_elem_of_lookup_2.
    + simpl in Hi. apply (IH i j); [done|done|lia].
Qed.

Lemma insertion_sort_contract : std_sort_contract insertion_sort.
Proof.
  intros l. unfold insertion_sort.
  assert (forall acc, StronglySorted (fun a b => compareIndexEntries b a = false) acc ->
            Permutation (foldl (fun sorted x => insert_entry x sorted) acc l) (acc ++ l) /\
            StronglySorted (fun a b => compareIndexEntries b a = false)
              (foldl (fun sorted x => insert_entry x sorted) acc l)) as Hgen.
  { induction l as [|x l IH]; intros acc Hacc; simpl.
    - by rewrite app_nil_r.
    - destruct (IH (insert_entry x acc)) as [Hperm Hsorted]; [by apply insert_entry_sorted|].
      split; [|done]. rewrite Hperm, insert_entry_Permutation.
      simpl. apply Permutation_middle. }
  destruct (Hgen []) as [Hperm Hsorted]; [constructor|].
  split; [done|]. by apply StronglySorted_sorted_by.
Qed.

(* ================================================================== *)
(** * What a sorted rearrangement keeps *)

Lemma indexes_from_Permutation p data keyLength es es' :
  Permutation es' es -> indexes_from p data keyLength es -> indexes_from p data keyLength es'.
Proof.
  intros Hperm [Hnodup Hes]. split.
  - by rewrite Hperm.
  - intros e. rewrite <- Hes. by rewrite Hperm.
Qed.

Lemma indexes_from_well_formed p data keyLength es :
  0 <= keyLength -> Z.of_nat (length data) <= STREAMOFF_MAX ->
  indexes_from p data keyLength es -> well_formed_entries keyLength es.
Proof.
  intros Hk Hsize [_ Hes]. apply Forall_forall. intros e He.
  apply Hes in He as (off & r & _ & (_ & Hoff & _) & Hlen & ->).
  unfold entry_of, substr. simpl. rewrite drop_0, length_take_le by lia. lia.
Qed.

(* ================================================================== *)
(** * The builders *)

Lemma string_length_append (s1 s2 : string) :
  String.length (s1 +:+ s2) = (String.length s1 + String.length s2)%nat.
Proof. induction s1 as [|c s1 IH]; simpl; [done|]. by rewrite IH. Qed.

Lemma temp_not_index (indexFilename : string) :
  (indexFilename +:+ ".tmp")%string <> indexFilename.
Proof.
  intros H. apply (f_equal String.length) in H.
  rewrite string_length_append in H. simpl in H. lia.
Qed.

Lemma checkOrCreateIndexFile_id fs name : checkOrCreateIndexFile fs name = fs.
Proof. unfold checkOrCreateIndexFile. by destruct (ifstream_open fs name). Qed.

Lemma ofstream_open_writable fs name :
  name ∉ unwritable fs ->
  ofstream_open fs name = Some (Filesystem (<[name := []]> (files fs)) (unwritable fs)).
Proof. intros H. unfold ofstream_open. by rewrite decide_False. Qed.

(** The scan of a whole data file returns, with one entry per record that is
    long enough; the index they make is not larger than nine times the data
    file. *)
Lemma scan_data_file keyLength data :
  0 <= keyLength ->
  exists es,
    createIndexInMemorySort_scan_tellg (S (length data)) keyLength (ifstream_of data) [] 0 [] =
      Returns es /\
    indexes_from 0 data keyLength es /\
    Z.of_nat (length es) * (keyLength + 8) <= 9 * Z.of_nat (length data).
Proof.
  intros Hk.
  destruct (scan_tellg_spec (S (length data)) keyLength data 0 [] [] 0)
    as (es & Hrun & Hes & Hsize); [by left|lia|lia|].
  exists es. split_and!; [done|done|]. specialize (Hsize Hk). lia.
Qed.

Section Build.

Variable std_sort : list IndexEntry -> list IndexEntry.
Hypothesis std_sort_ok : std_sort_contract std_sort.

Variables (fs : filesystem) (dataFilename indexFilename : string).
Variables (data : list byte) (keyLength : Z) (es : list IndexEntry).

Hypothesis data_file : files fs !! dataFilename = Some data.
Hypothesis keyLength_range : 0 <= keyLength <= ALLOC_MAX.
Hypothesis data_size : 9 * Z.of_nat (length data) <= STREAMOFF_MAX.
Hypothesis index_writable : indexFilename ∉ unwritable fs.
Hypothesis temp_writable : (indexFilename +:+ ".tmp")%string ∉ unwritable fs.
Hypothesis data_not_temp : dataFilename <> (indexFilename +:+ ".tmp")%string.

Hypothesis scanned :
  createIndexInMemorySort_scan_tellg (S (length data)) keyLength (ifstream_of data) [] 0 [] =
    Returns es.
Hypothesis scanned_entries : indexes_from 0 data keyLength es.

Lemma createIndex_run :
  createIndex std_sort fs dataFilename indexFilename keyLength =
  Returns (Effects
    (Filesystem (delete (indexFilename +:+ ".tmp")%string
                   (<[indexFilename := write_entries keyLength (std_sort es) []]> (files fs)))
                (unwritable fs)) [] []).
Proof using data_file keyLength_range data_size index_writable temp_writable data_not_temp
  scanned scanned_entries.
  unfold createIndex, ifstream_open. rewrite data_file.
  rewrite checkOrCreateIndexFile_id, ofstream_open_writable by done.
  cbn [files]. rewrite lookup_insert_ne by done.
  rewrite data_file. cbn [default from_option id].
  pose proof (createIndex_scan_tellg (S (length data)) keyLength (ifstream_of data) [] 0 [])
    as Hscan.
  change (write_entries keyLength [] []) with (@nil byte) in Hscan.
  rewrite Hscan, scanned. cbn [fmap outcome_fmap mbind outcome_bind].
  unfold ofstream_close. cbn [files unwritable].
  rewrite lookup_insert_eq.
  assert (well_formed_entries keyLength es) as Hwf.
  { apply (indexes_from_well_formed 0 data); [lia|lia|done]. }
  pose proof (length_write_entries keyLength es Hwf) as Hlen.
  pose proof (createIndex_load_spec keyLength es keyLength_range Hwf
                (S (length (write_entries keyLength es []))) [] [] 0) as Hload.
  cbn [app length] in Hload. unfold ifstream_of. rewrite Hload by nia.
  cbn [mbind outcome_bind].
  rewrite ofstream_open_writable by done. cbn [files unwritable].
  unfold ofstream_close, remove. cbn [files unwritable].
  do 2 f_equal. f_equal. apply map_eq. intros name.
  destruct (decide (name = (indexFilename +:+ ".tmp")%string)) as [->|Hne].
  - by rewrite !lookup_delete_eq.
  - rewrite !lookup_delete_ne by done.
    destruct (decide (name = indexFilename)) as [->|Hne'].
    + by rewrite !lookup_insert_eq.
    + by rewrite !lookup_insert_ne by done.
Qed.

Lemma createIndexInMemorySort_tellg_run :
  createIndexInMemorySort_tellg std_sort fs dataFilename indexFilename keyLength =
  Returns (Effects
    (Filesystem (<[indexFilename := write_entries keyLength (std_sort es) []]> (files fs))
                (unwritable fs)) [] []).
Proof using data_file index_writable scanned.
  unfold createIndexInMemorySort_tellg. unfold ifstream_open. rewrite data_file.
  rewrite scanned. cbn [mbind outcome_bind].
  rewrite ofstream_open_writable by done. unfold ofstream_close. cbn [files unwritable].
  by rewrite insert_insert_eq.
Qed.

Lemma createIndexInMemorySort_run :
  createIndexInMemorySort std_sort fs dataFilename indexFilename keyLength =
  Returns (Effects
    (Filesystem (<[indexFilename := write_entries keyLength (std_sort es) []]> (files fs))
                (unwritable fs)) [] []).
Proof using data_file data_size index_writable scanned.
  unfold createIndexInMemorySort. unfold ifstream_open. rewrite data_file.
  pose proof (scan_length_tellg (S (length data)) keyLength data 0 [] [] 0) as Hscan.
  unfold ifstream_of. change (Z.of_nat 0) with 0 in Hscan. rewrite Hscan by lia.
  unfold ifstream_of in scanned. rewrite scanned. cbn [mbind outcome_bind].
  rewrite ofstream_open_writable by done. unfold ofstream_close. cbn [files unwritable].
  by rewrite insert_insert_eq.
Qed.

End Build.

(* ================================================================== *)
(** * The binary search, on any index file *)

Section Search.

Variables (keyLength : Z) (target index : list byte).

Hypothesis keyLength_range : 0 <= keyLength <= ALLOC_MAX.
Hypothesis index_size : Z.of_nat (length index) <= STREAMOFF_MAX.

Lemma stride_no_wrap : wrap64 (keyLength + 8) = keyLength + 8.
Proof using keyLength_range.
  clear index_size. apply wrap64_small. unfold ALLOC_MAX, SIZE_WIDTH in *. lia.
Qed.

Lemma entry_count_Z :
  Z.of_nat (entry_count keyLength index) = Z.of_nat (length index) / (keyLength + 8).
Proof using keyLength_range.
  clear index_size. unfold entry_count. apply Z2Nat.id. apply Z.div_pos; lia.
Qed.

Lemma entry_count_bound :
  Z.of_nat (entry_count keyLength index) * (keyLength + 8) <= Z.of_nat (length index).
Proof using keyLength_range.
  clear index_size. rewrite entry_count_Z. rewrite Z.mul_comm. apply Z.mul_div_le. lia.
Qed.

Lemma searchForKey_init_spec :
  searchForKey_init keyLength index =
  Returns (Ifstream index 0 false false 0,
           SearchState 0 (Z.of_nat (entry_count keyLength index)) false 0).
Proof using keyLength_range index_size.
  unfold searchForKey_init, ifstream_of, seekg_end, tellg, seekg.
  cbn [good eofbit failbit negb andb content gpos gcount fst snd].
  change (0 <? 0) with false. cbv iota.
  rewrite stride_no_wrap. rewrite decide_False by lia.
  rewrite wrap64_small by (unfold STREAMOFF_MAX, SIZE_WIDTH in *; lia).
  by rewrite entry_count_Z.
Qed.

(** A probe inside the range reads a whole target, and the offset behind it
    when the target matches. *)
Lemma searchForKey_probe_spec s st :
  content s = index -> failbit s = false ->
  0 <= low st -> low st < high st -> high st <= Z.of_nat (entry_count keyLength index) ->
  exists s',
    searchForKey_probe keyLength target s st = Returns (s', probe_state keyLength target index st) /\
    content s' = index /\ failbit s' = false.
Proof using keyLength_range index_size.
  intros Hcontent Hfail Hlow Hlt Hhigh.
  pose proof entry_count_bound as Hbound.
  unfold searchForKey_probe. cbv zeta.
  destruct (Z.ltb_spec ALLOC_MAX keyLength); [lia|].
  unfold STREAMOFF_MAX, ALLOC_MAX in *.
  set (mid := low st + (high st - low st) / 2).
  assert (low st <= mid < high st) as Hmid.
  { unfold mid. pose proof (Z.div_pos (high st - low st) 2).
    assert ((high st - low st) / 2 < high st - low st) by (apply Z.div_lt; lia). lia. }
  assert ((mid + 1) * (keyLength + 8) <= Z.of_nat (length index)) as Hin by nia.
  rewrite stride_no_wrap.
  rewrite (wrap64_small (high st - low st)) by (unfold SIZE_WIDTH; lia).
  fold mid. rewrite (wrap64_small mid) by (unfold SIZE_WIDTH; lia).
  rewrite (wrap64_small (mid * _)) by (unfold SIZE_WIDTH; nia).
  rewrite to_streamoff_small by (unfold STREAMOFF_MAX; nia).
  rewrite (wrap64_small (mid + 1)) by (unfold SIZE_WIDTH; lia).
  unfold seekg. rewrite Hfail.
  destruct (Z.ltb_spec (mid * (keyLength + 8)) 0); [nia|].
  rewrite Hcontent.
  rewrite read_within; cbn [good eofbit failbit negb andb content gpos]; [|done|lia|nia].
  rewrite length_take_le by (rewrite length_drop; nia).
  destruct (Z.ltb_spec (Z.of_nat (Z.to_nat keyLength)) keyLength); [lia|].
  assert (Z.to_nat (mid * (keyLength + 8)) = (Z.to_nat mid * Z.to_nat (keyLength + 8))%nat)
    as Hpos by (apply Z2Nat.inj_mul; lia).
  unfold probe_state. cbv zeta. fold mid. unfold entry_at. cbv zeta. cbn [key offset].
  rewrite <- Hpos.
  destruct (string_lt (take (Z.to_nat keyLength) (drop (Z.to_nat (mid * (keyLength + 8))) index)) target).
  { eexists. split; [reflexivity|done]. }
  destruct (string_lt target _).
  { eexists. split; [reflexivity|done]. }
  rewrite read_within; cbn [good eofbit failbit negb andb content gpos]; [|done|lia|nia].
  rewrite drop_drop.
  eexists. split; [reflexivity|done].
Qed.


Lemma index_entries_lookup i :
  (i < entry_count keyLength index)%nat ->
  index_entries keyLength index !! i = Some (entry_at keyLength index i).
Proof using Type.
  intros Hi. unfold index_entries. rewrite list_lookup_fmap.
  by rewrite lookup_seq_lt.
Qed.

(** The three ways a probe can go. *)
Lemma probe_state_cases st :
  let mid := low st + (high st - low st) / 2 in
  let e := entry_at keyLength index (Z.to_nat mid) in
  (string_lt (key e) target = true /\
   probe_state keyLength target index st =
     SearchState (mid + 1) (high st) (found st) (recordOffset st)) \/
  (string_lt target (key e) = true /\
   probe_state keyLength target index st =
     SearchState (low st) mid (found st) (recordOffset st)) \/
  (key e = target /\
   probe_state keyLength target index st =
     SearchState (low st) (high st) true (offset e)).
Proof using Type.
  intros mid e. unfold probe_state. cbv zeta. fold mid. fold e.
  destruct (string_lt (key e) target) eqn:E1; [by left|].
  destruct (string_lt target (key e)) eqn:E2; [right; by left|].
  right; right. split; [|done]. by apply string_lt_neither.
Qed.

Lemma mid_between st :
  low st < high st ->
  low st <= low st + (high st - low st) / 2 < high st.
Proof using Type.
  clear keyLength_range index_size.
  intros Hlt. pose proof (Z.div_pos (high st - low st) 2).
  assert ((high st - low st) / 2 < high st - low st) by (apply Z.div_lt; lia). lia.
Qed.

(** The loop returns: every probe halves the range or ends the search. *)
Lemma searchForKey_loop_spec fuel : forall s st,
  content s = index -> failbit s = false -> found st = false ->
  0 <= low st <= high st -> high st <= Z.of_nat (entry_count keyLength index) ->
  high st - low st < Z.of_nat fuel ->
  exists s' st',
    searchForKey_loop fuel keyLength target s st = Returns st' /\
    rtc (search_iteration keyLength target) (s, st) (s', st') /\
    search_finished keyLength target index st'.
Proof using keyLength_range index_size.
  induction fuel as [|fuel IH]; intros s st Hcontent Hfail Hfound Hbounds Hhigh Hfuel; [lia|].
  cbn [searchForKey_loop].
  destruct (Z.ltb_spec (low st) (high st)) as [Hlt|Hge].
  - destruct (searchForKey_probe_spec s st) as (s1 & Hprobe & Hcontent1 & Hfail1);
      [done|done|lia|done|done|].
    rewrite Hprobe. cbn [mbind outcome_bind].
    assert (search_iteration keyLength target (s, st) (s1, probe_state keyLength target index st))
      as Hstep by done.
    pose proof (mid_between st Hlt) as Hmid.
    destruct (probe_state_cases st) as [[Hcmp Hst]|[[Hcmp Hst]|[Hcmp Hst]]];
      rewrite Hst in *; cbn [found]; rewrite ?Hfound in *.
    + destruct (IH s1 (SearchState (low st + (high st - low st) / 2 + 1) (high st)
                         false (recordOffset st)))
        as (s' & st' & Hrun & Hreach & Hfin); cbn [low high found]; try done; try lia.
      exists s', st'. split_and!; [done| |done]. by eapply rtc_l.
    + destruct (IH s1 (SearchState (low st) (low st + (high st - low st) / 2)
                         false (recordOffset st)))
        as (s' & st' & Hrun & Hreach & Hfin); cbn [low high found]; try done; try lia.
      exists s', st'. split_and!; [done| |done]. by eapply rtc_l.
    + eexists s1, _. split_and!; [done|by apply rtc_once|].
      right. split; [done|]. exists (Z.to_nat (low st + (high st - low st) / 2)).
      cbn [low high recordOffset]. split_and!; [lia|lia|lia|done|done].
  - exists s, st. split_and!; [done|done|]. left. split; [done|lia].
Qed.

(** The whole lookup returns, in one of the two ways the loop can end. *)
Lemma searchForKey_lookup_returns :
  exists s st,
    searchForKey_lookup keyLength target index = Returns st /\
    rtc (search_iteration keyLength target)
      (Ifstream index 0 false false 0,
       SearchState 0 (Z.of_nat (entry_count keyLength index)) false 0) (s, st) /\
    search_finished keyLength target index st.
Proof using keyLength_range index_size.
  unfold searchForKey_lookup. rewrite searchForKey_init_spec. cbn [mbind outcome_bind].
  apply searchForKey_loop_spec; cbn [content failbit found low high]; try done; try lia.
  pose proof entry_count_bound. nia.
Qed.

Hypothesis index_sorted : keys_nondecreasing (key <$> index_entries keyLength index).

Lemma sorted_entries (i j : nat) :
  (i <= j)%nat -> (j < entry_count keyLength index)%nat ->
  string_lt (key (entry_at keyLength index j))
            (key (entry_at keyLength index i)) = false.
Proof using index_sorted.
  intros Hij Hj. apply string_lt_false_iff.
  apply (index_sorted i j); [| |done].
  - rewrite list_lookup_fmap, index_entries_lookup by lia. done.
  - rewrite list_lookup_fmap, index_entries_lookup by lia. done.
Qed.

(** A probe keeps the invariant. *)
Lemma probe_state_invariant st :
  low st < high st ->
  search_invariant keyLength target index st ->
  search_invariant keyLength target index (probe_state keyLength target index st).
Proof using index_sorted keyLength_range.
  intros Hlt (Hbounds & Hhigh & Hkeys).
  pose proof (mid_between st Hlt) as Hmid.
  destruct (probe_state_cases st) as [[Hcmp ->]|[[Hcmp ->]|[Hcmp ->]]];
    (split_and!; cbn [low high]; [lia|lia|lia|]); [| |done].
  - intros i Hi Hkey. specialize (Hkeys i Hi Hkey).
    destruct (Z.le_gt_cases (Z.of_nat i) (low st + (high st - low st) / 2)) as [Hle|]; [|lia].
    exfalso. rewrite <- Hkey in Hcmp.
    rewrite (sorted_entries i (Z.to_nat (low st + (high st - low st) / 2))) in Hcmp by lia.
    done.
  - intros i Hi Hkey. specialize (Hkeys i Hi Hkey).
    destruct (Z.lt_ge_cases (Z.of_nat i) (low st + (high st - low st) / 2)) as [|Hge]; [lia|].
    exfalso. rewrite <- Hkey in Hcmp.
    rewrite (sorted_entries (Z.to_nat (low st + (high st - low st) / 2)) i) in Hcmp by lia.
    done.
Qed.


(** The invariant holds in every state the loop goes through. *)
Lemma search_invariant_reachable a b :
  rtc (search_iteration keyLength target) a b ->
  content (fst a) = index -> failbit (fst a) = false ->
  search_invariant keyLength target index (snd a) ->
  content (fst b) = index /\ failbit (fst b) = false /\
  search_invariant keyLength target index (snd b).
Proof using index_sorted keyLength_range index_size.
  induction 1 as [a|a b c Hstep _ IH]; intros Hcontent Hfail Hinv; [done|].
  destruct Hstep as (Hlt & _ & Hprobe).
  destruct (searchForKey_probe_spec (fst a) (snd a)) as (s1 & Hprobe' & Hcontent1 & Hfail1);
    [done|done|apply Hinv|done|apply Hinv|].
  rewrite Hprobe' in Hprobe. injection Hprobe as <-.
  apply IH; cbn [fst snd]; [done|done|]. by apply probe_state_invariant.
Qed.

Lemma search_invariant_start :
  search_invariant keyLength target index
    (SearchState 0 (Z.of_nat (entry_count keyLength index)) false 0).
Proof using Type.
  clear. split_and!; cbn [low high]; [lia|lia|lia|]. intros i Hi _. lia.
Qed.

(** On a sorted index file the lookup finds the target whenever an entry
    carries it. *)
Lemma searchForKey_lookup_spec :
  exists st,
    searchForKey_lookup keyLength target index = Returns st /\
    search_finished keyLength target index st /\
    (found st = false ->
     forall i : nat, (i < entry_count keyLength index)%nat ->
       key (entry_at keyLength index i) <> target).
Proof using index_sorted keyLength_range index_size.
  destruct searchForKey_lookup_returns as (s & st & Hrun & Hreach & Hfin).
  exists st. split_and!; [done|done|]. intros Hfound i Hi Hkey.
  apply search_invariant_reachable in Hreach as (_ & _ & (_ & _ & Hkeys));
    [|done|done|apply search_invariant_start].
  cbn [snd] in Hkeys. specialize (Hkeys i Hi Hkey).
  destruct Hfin as [[_ Heq]|[Htrue _]]; [lia|congruence].
Qed.

End Search.

(* ================================================================== *)
(** * The index file a builder writes *)

Lemma drop_write_entries keyLength es :
  0 <= keyLength -> well_formed_entries keyLength es ->
  forall i : nat,
    drop (i * Z.to_nat (keyLength + 8)) (write_entries keyLength es []) =
    write_entries keyLength (drop i es) [].
Proof.
  intros Hk Hwf. induction Hwf as [|e es [Hlen Hoff] Hwf IH]; intros i.
  - rewrite drop_nil. unfold write_entries. cbn [foldl]. by rewrite drop_nil.
  - destruct i as [|i]; [done|]. cbn [drop]. rewrite <- IH.
    rewrite write_entries_cons by done. cbn [app].
    rewrite (app_assoc (key e)).
    replace (S i * Z.to_nat (keyLength + 8))%nat
      with (length (key e ++ streamoff_bytes (offset e)) + i * Z.to_nat (keyLength + 8))%nat.
    + by rewrite <- drop_drop, drop_app_length.
    + rewrite length_app. unfold streamoff_bytes. rewrite length_le_bytes. lia.
Qed.

Lemma entry_count_write_entries keyLength es :
  0 <= keyLength -> well_formed_entries keyLength es ->
  entry_count keyLength (write_entries keyLength es []) = length es.
Proof.
  intros Hk Hwf. unfold entry_count. rewrite length_write_entries by done.
  rewrite Z.div_mul by lia. lia.
Qed.

Lemma entry_at_write_entries keyLength es i e :
  0 <= keyLength -> well_formed_entries keyLength es ->
  es !! i = Some e -> entry_at keyLength (write_entries keyLength es []) i = e.
Proof.
  intros Hk Hwf Hi. unfold entry_at. cbv zeta. rewrite drop_write_entries by done.
  pose proof Hwf as Hwf'. unfold well_formed_entries in Hwf'. rewrite Forall_forall in Hwf'.
  destruct (Hwf' e) as [Hlen Hoff]; [by eapply list_elem_of_lookup_2|].
  rewrite (drop_S es e i Hi). rewrite write_entries_cons by done. cbn [app].
  replace (Z.to_nat keyLength) with (length (key e)) by lia.
  rewrite take_app_length, drop_app_length.
  change 8%nat with (length (streamoff_bytes (offset e))).
  rewrite take_app_length, streamoff_of_bytes_bytes by done.
  by destruct e.
Qed.

Lemma index_entries_write_entries keyLength es :
  0 <= keyLength -> well_formed_entries keyLength es ->
  index_entries keyLength (write_entries keyLength es []) = es.
Proof.
  intros Hk Hwf. unfold index_entries. rewrite entry_count_write_entries by done.
  apply list_eq. intros i. rewrite list_lookup_fmap.
  destruct (es !! i) as [e|] eqn:Hi.
  - rewrite lookup_seq_lt by (by eapply lookup_lt_Some). cbn [fmap option_fmap option_map].
    f_equal. by apply entry_at_write_entries.
  - apply lookup_ge_None in Hi. by rewrite lookup_seq_ge by lia.
Qed.

Lemma sorted_by_keys_nondecreasing es :
  sorted_by compareIndexEntries es -> keys_nondecreasing (key <$> es).
Proof.
  intros Hsorted i j a b Hi Hj Hij.
  rewrite list_lookup_fmap in Hi, Hj.
  destruct (es !! i) as [ei|] eqn:Ei; [|done].
  destruct (es !! j) as [ej|] eqn:Ej; [|done].
  injection Hi as <-. injection Hj as <-.
  destruct (decide (i = j)) as [->|Hne].
  - assert (ei = ej) as -> by congruence. by rewrite string_compare_refl.
  - apply string_lt_false_iff. apply (Hsorted i j ei ej); [done|done|lia].
Qed.

(* ================================================================== *)
(** * Reading a record back *)

Lemma read_line_at_offset data (off : nat) :
  read_line_at data (Z.of_nat off) = first_line (drop off data).
Proof.
  unfold read_line_at, seekg, ifstream_of. cbn [failbit].
  destruct (Z.ltb_spec (Z.of_nat off) 0); [lia|].
  unfold getline. cbn [good eofbit failbit negb andb content gpos].
  rewrite Nat2Z.id.
  destruct (find_newline (drop off data)) as [i|] eqn:Efind; cbn [snd].
  - by apply find_newline_Some in Efind as (_ & -> & _).
  - by apply find_newline_None in Efind as ->.
Qed.

Lemma read_line_at_record data off r :
  is_record data off r -> read_line_at data (Z.of_nat off) = r.
Proof. intros (_ & _ & ->). apply read_line_at_offset. Qed.

Lemma searchForKey_print_found data st :
  found st = true -> searchForKey_print data st = read_line_at data (recordOffset st).
Proof.
  intros Hfound. unfold searchForKey_print, read_line_at. rewrite Hfound.
  by destruct (getline _ _).
Qed.

Lemma searchForKey_print_not_found data st :
  found st = false -> searchForKey_print data st = bytes "Record not found".
Proof. intros Hfound. unfold searchForKey_print. by rewrite Hfound. Qed.

(* ================================================================== *)
(** * The listing *)

(** Seeking the data stream to the start of a record and reading a line
    gives the record and leaves the stream usable. *)
Lemma getline_seekg_record dataFile data (off : nat) :
  content dataFile = data -> failbit dataFile = false -> (off < length data)%nat ->
  exists dataFile',
    getline (seekg dataFile (Z.of_nat off)) [] = (dataFile', first_line (drop off data)) /\
    content dataFile' = data /\ failbit dataFile' = false.
Proof.
  intros Hcontent Hfail Hoff. unfold seekg. rewrite Hfail.
  destruct (Z.ltb_spec (Z.of_nat off) 0); [lia|].
  unfold getline. cbn [good eofbit failbit negb andb content gpos gcount].
  rewrite Nat2Z.id, Hcontent.
  destruct (find_newline (drop off data)) as [i|] eqn:Efind.
  - apply find_newline_Some in Efind as (_ & -> & _). by eexists.
  - apply find_newline_None in Efind. rewrite Efind.
    eexists. split_and!; [done|done|]. cbn [failbit].
    apply bool_decide_eq_false_2. intros Hnil.
    apply (f_equal length) in Hnil. rewrite length_drop in Hnil. simpl in Hnil. lia.
Qed.

Lemma listRecords_loop_spec keyLength data es :
  0 <= keyLength <= ALLOC_MAX -> well_formed_entries keyLength es ->
  Forall (fun e => offset e < Z.of_nat (length data)) es ->
  forall fuel pre dataFile cout gc,
    content dataFile = data -> failbit dataFile = false -> (length es < fuel)%nat ->
    listRecords_loop fuel keyLength
      (Ifstream (pre ++ write_entries keyLength es []) (length pre) false false gc)
      dataFile cout =
    Returns (cout ++ map (fun e => first_line (drop (Z.to_nat (offset e)) data)) es).
Proof.
  intros Hk Hwf Hoffs. revert Hoffs.
  induction Hwf as [|e es [Hlen Hoff] Hwf IH]; intros Hoffs fuel pre dataFile cout gc
    Hcontent Hfail Hfuel.
  - destruct fuel as [|fuel]; [simpl in Hfuel; lia|].
    cbn [listRecords_loop good eofbit failbit negb andb].
    destruct (Z.ltb_spec ALLOC_MAX keyLength); [lia|].
    unfold write_entries. cbn [foldl]. rewrite app_nil_r.
    rewrite read_at_end by done. cbn [content gpos gcount map].
    destruct (Z.ltb_spec (Z.of_nat 0) keyLength) as [Hpos|Hzero]; [by rewrite app_nil_r|].
    rewrite bool_decide_eq_false_2 by lia.
    rewrite read_at_end by done. cbn [good eofbit failbit negb andb].
    rewrite bool_decide_eq_true_2 by lia. cbn [negb andb]. by rewrite app_nil_r.
  - destruct fuel as [|fuel]; [simpl in Hfuel; lia|].
    apply Forall_cons in Hoffs as [Hoff' Hoffs].
    cbn [listRecords_loop good eofbit failbit negb andb].
    destruct (Z.ltb_spec ALLOC_MAX keyLength); [lia|].
    rewrite write_entries_cons by done. cbn [app].
    rewrite read_within; cbn [good eofbit failbit negb andb content gpos];
      [|done|lia|rewrite !length_app; lia].
    cbn [gcount]. destruct (Z.ltb_spec (Z.of_nat (Z.to_nat keyLength)) keyLength); [lia|].
    rewrite read_within; cbn [good eofbit failbit negb andb content gpos];
      [|done|lia|rewrite !length_app; unfold streamoff_bytes; rewrite length_le_bytes; lia].
    rewrite (app_assoc pre (key e)), drop_app_length'
      by (rewrite length_app; lia).
    change (Z.to_nat 8) with (length (streamoff_bytes (offset e))).
    rewrite take_app_length, streamoff_of_bytes_bytes by done.
    destruct (getline_seekg_record dataFile data (Z.to_nat (offset e)))
      as (dataFile' & Hget & Hcontent' & Hfail'); [done|done|lia|].
    rewrite Z2Nat.id in Hget by lia. rewrite Hget.
    rewrite (app_assoc (pre ++ key e)).
    replace (length pre + Z.to_nat keyLength + length (streamoff_bytes (offset e)))%nat
      with (length ((pre ++ key e) ++ streamoff_bytes (offset e)))
      by (rewrite !length_app; lia).
    rewrite IH; [|done|done|done|simpl in Hfuel; lia].
    cbn [map]. by rewrite <- app_assoc.
Qed.

(* ================================================================== *)
(** * Searching and listing the index file of a build *)

Lemma entry_at_key_length keyLength index i :
  0 <= keyLength -> (i < entry_count keyLength index)%nat ->
  Z.of_nat (length (key (entry_at keyLength index i))) = keyLength.
Proof.
  intros Hk Hi. unfold entry_at, entry_count in *. cbn [key].
  assert (Z.of_nat (S i) <= Z.of_nat (length index) / (keyLength + 8)) as Hle by lia.
  assert (Z.of_nat (S i) * (keyLength + 8) <= Z.of_nat (length index)) as Hin.
  { etrans; [apply Z.mul_le_mono_nonneg_r; [lia|exact Hle]|].
    rewrite Z.mul_comm. apply Z.mul_div_le. lia. }
  rewrite length_take_le; [lia|]. rewrite length_drop. nia.
Qed.

(** The lookup in the sorted entries [es] of a build. *)
Lemma searchForKey_lookup_built keyLength target es :
  0 <= keyLength <= ALLOC_MAX -> well_formed_entries keyLength es ->
  Z.of_nat (length (write_entries keyLength es [])) <= STREAMOFF_MAX ->
  sorted_by compareIndexEntries es ->
  exists st,
    searchForKey_lookup keyLength target (write_entries keyLength es []) = Returns st /\
    ((found st = false /\ forall e, e ∈ es -> key e <> target) \/
     (found st = true /\ exists e, e ∈ es /\ key e = target /\ recordOffset st = offset e)).
Proof.
  intros Hk Hwf Hsize Hsorted.
  destruct (searchForKey_lookup_spec keyLength target (write_entries keyLength es []))
    as (st & Hrun & Hfin & Habsent); [done|done| |].
  { rewrite index_entries_write_entries by (done || lia).
    by apply sorted_by_keys_nondecreasing. }
  exists st. split; [done|].
  rewrite entry_count_write_entries in Habsent by (done || lia).
  destruct (found st) eqn:Hfound.
  - right. split; [done|].
    destruct Hfin as [[? _]|(_ & i & Hi & _ & Hkey & Hoff)]; [congruence|].
    rewrite entry_count_write_entries in Hi by (done || lia).
    destruct (lookup_lt_is_Some_2 es i Hi) as [e He].
    rewrite (entry_at_write_entries keyLength es i e) in * by (done || lia).
    exists e. split; [by eapply list_elem_of_lookup_2|done].
  - left. split; [done|]. intros e (i & He)%list_elem_of_lookup Hkey.
    apply (Habsent eq_refl i); [by eapply lookup_lt_Some|].
    by rewrite (entry_at_write_entries keyLength es i e) by (done || lia).
Qed.

Lemma searchForKey_unfold fs dataFilename indexFilename key keyLength index data :
  files fs !! indexFilename = Some index -> files fs !! dataFilename = Some data ->
  searchForKey fs dataFilename indexFilename key keyLength =
  st ← searchForKey_lookup keyLength key index;
  Returns (Effects fs [searchForKey_print data st] []).
Proof. intros Hindex Hdata. unfold searchForKey, ifstream_open. by rewrite Hindex, Hdata. Qed.

Lemma listRecords_unfold fs dataFilename indexFilename keyLength index data :
  files fs !! indexFilename = Some index -> files fs !! dataFilename = Some data ->
  listRecords fs dataFilename indexFilename keyLength =
  lines ← listRecords_loop (S (length index)) keyLength (ifstream_of index) (ifstream_of data) [];
  Returns (Effects fs lines []).
Proof. intros Hindex Hdata. unfold listRecords, ifstream_open. by rewrite Hindex, Hdata. Qed.

(** The listing of the entries [es] of a build prints the record of each
    entry, in the order of the index file. *)
Lemma listRecords_loop_built keyLength data es :
  0 <= keyLength <= ALLOC_MAX -> Z.of_nat (length data) <= STREAMOFF_MAX ->
  indexes_from 0 data keyLength es ->
  listRecords_loop (S (length (write_entries keyLength es []))) keyLength
    (ifstream_of (write_entries keyLength es [])) (ifstream_of data) [] =
  Returns (map (fun e => read_line_at data (offset e)) es).
Proof.
  intros Hk Hsize Hes.
  assert (well_formed_entries keyLength es) as Hwf
    by (apply (indexes_from_well_formed 0 data); [lia|done|done]).
  pose proof (length_write_entries keyLength es Hwf) as Hlen.
  assert (Forall (fun e => offset e < Z.of_nat (length data) /\
                           read_line_at data (offset e) =
                           first_line (drop (Z.to_nat (offset e)) data)) es) as Hoffs.
  { apply Forall_forall. intros e He. apply Hes in He as (off & r & _ & (_ & Hoff & _) & _ & ->).
    cbn [entry_of offset]. split; [lia|]. by rewrite read_line_at_offset, Nat2Z.id. }
  assert (length es < S (length (write_entries keyLength es [])))%nat as Hfuel by nia.
  pose proof (listRecords_loop_spec keyLength data es Hk Hwf
                (Forall_impl _ _ _ Hoffs (fun e H => proj1 H))
                (S (length (write_entries keyLength es []))) [] (Ifstream data 0 false false 0)
                [] 0%nat eq_refl eq_refl Hfuel) as Hloop.
  cbn [app length] in Hloop. unfold ifstream_of. rewrite Hloop.
  f_equal. apply map_ext_in. intros e He%list_elem_of_In.
  rewrite Forall_forall in Hoffs. by destruct (Hoffs e He) as [_ ->].
Qed.

(* ================================================================== *)
(** * A build followed by queries *)

Section Built.

Variable std_sort : list IndexEntry -> list IndexEntry.
Hypothesis std_sort_ok : std_sort_contract std_sort.

Variables (fs : filesystem) (dataFilename indexFilename : string).
Variables (data : list byte) (keyLength : Z).

Hypothesis data_file : files fs !! dataFilename = Some data.
Hypothesis keyLength_range : 0 <= keyLength <= ALLOC_MAX.
Hypothesis data_size : 9 * Z.of_nat (length data) <= STREAMOFF_MAX.
Hypothesis index_writable : indexFilename ∉ unwritable fs.
Hypothesis temp_writable : (indexFilename +:+ ".tmp")%string ∉ unwritable fs.
Hypothesis data_not_temp : dataFilename <> (indexFilename +:+ ".tmp")%string.

(** What [createIndex] leaves behind: no diagnostic, and an index file that
    holds the sorted entries of the records that are long enough. *)
Lemma createIndex_builds :
  exists e es,
    createIndex std_sort fs dataFilename indexFilename keyLength = Returns e /\
    cout e = [] /\ cerr e = [] /\
    files (fs_after e) !! indexFilename = Some (write_entries keyLength es []) /\
    (dataFilename <> indexFilename -> files (fs_after e) !! dataFilename = Some data) /\
    indexes_from 0 data keyLength es /\
    sorted_by compareIndexEntries es /\
    well_formed_entries keyLength es /\
    Z.of_nat (length (write_entries keyLength es [])) <= STREAMOFF_MAX.
Proof using std_sort_ok data_file keyLength_range data_size index_writable temp_writable
  data_not_temp.
  destruct (scan_data_file keyLength data) as (es0 & Hscan & Hes0 & Hsize); [lia|].
  destruct (std_sort_ok es0) as [Hperm Hsorted].
  assert (indexes_from 0 data keyLength (std_sort es0)) as Hes
    by by apply (indexes_from_Permutation 0 data keyLength es0).
  assert (well_formed_entries keyLength (std_sort es0)) as Hwf
    by (apply (indexes_from_well_formed 0 data); [lia|lia|done]).
  eexists _, (std_sort es0). split.
  { by apply (createIndex_run std_sort fs dataFilename indexFilename data keyLength es0). }
  cbn [cout cerr fs_after files]. split_and!; try done.
  - rewrite lookup_delete_ne by apply temp_not_index. by rewrite lookup_insert_eq.
  - intros Hne. rewrite lookup_delete_ne by done. by rewrite lookup_insert_ne.
  - rewrite length_write_entries by done. rewrite Hperm. lia.
Qed.


Hypothesis data_not_index : dataFilename <> indexFilename.

(** An entry of the build stands for a record that is long enough, and its
    offset leads back to that record. *)
Lemma indexed_entry_record es e :
  indexes_from 0 data keyLength es -> e ∈ es ->
  exists (off : nat) (r : list byte),
    is_record data off r /\ keyLength <= Z.of_nat (length r) /\
    e = entry_of keyLength off r /\ read_line_at data (offset e) = r.
Proof using Type.
  intros [_ Hes] He. apply Hes in He as (off & r & _ & Hrec & Hlen & ->).
  exists off, r. split_and!; [done|done|done|]. by apply read_line_at_record.
Qed.

(** C2 (sort correctness): the index file that [createIndex] writes has its
    keys in non-decreasing byte-lexicographic order when it is read entry by
    entry from its start. *)
Theorem index_keys_nondecreasing :
  exists e index,
    createIndex std_sort fs dataFilename indexFilename keyLength = Returns e /\
    files (fs_after e) !! indexFilename = Some index /\
    keys_nondecreasing (key <$> index_entries keyLength index).
Proof using std_sort_ok data_file keyLength_range data_size index_writable temp_writable
  data_not_temp.
  destruct createIndex_builds
    as (e & es & Hrun & _ & _ & Hindex & _ & _ & Hsorted & Hwf & _).
  exists e, (write_entries keyLength es []). split_and!; [done|done|].
  rewrite index_entries_write_entries by (done || lia).
  by apply sorted_by_keys_nondecreasing.
Qed.

(** C7 (stride integrity): the length of the index file that [createIndex]
    writes is a multiple of [keyLength + 8]; its entries are, once each, the
    entries of the records of at least [keyLength] bytes, and the length is
    their number times [keyLength + 8]. *)
Theorem index_length_multiple_of_stride :
  exists e index,
    createIndex std_sort fs dataFilename indexFilename keyLength = Returns e /\
    files (fs_after e) !! indexFilename = Some index /\
    Z.of_nat (length index) mod (keyLength + 8) = 0 /\
    indexes_from 0 data keyLength (index_entries keyLength index) /\
    Z.of_nat (length index) =
      Z.of_nat (length (index_entries keyLength index)) * (keyLength + 8).
Proof using std_sort_ok data_file keyLength_range data_size index_writable temp_writable
  data_not_temp.
  destruct createIndex_builds
    as (e & es & Hrun & _ & _ & Hindex & _ & Hes & _ & Hwf & _).
  exists e, (write_entries keyLength es []).
  rewrite index_entries_write_entries by (done || lia).
  rewrite length_write_entries by done.
  split_and!; [done|done| |done|done]. apply Z.mod_mul. lia.
Qed.

(** C8 (offset semantics): every entry of the index file that [createIndex]
    writes pairs the first [keyLength] bytes of a record with the offset of
    the first byte of that very record, and seeking the data file to that
    offset and reading one line gives the record. *)
Theorem index_entry_offset_is_record_start :
  exists e index,
    createIndex std_sort fs dataFilename indexFilename keyLength = Returns e /\
    files (fs_after e) !! indexFilename = Some index /\
    forall entry, entry ∈ index_entries keyLength index ->
      exists (off : nat) (r : list byte),
        is_record data off r /\ keyLength <= Z.of_nat (length r) /\
        key entry = substr r 0 keyLength /\ offset entry = Z.of_nat off /\
        read_line_at data (offset entry) = r.
Proof using std_sort_ok data_file keyLength_range data_size index_writable temp_writable
  data_not_temp.
  destruct createIndex_builds
    as (e & es & Hrun & _ & _ & Hindex & _ & Hes & _ & Hwf & _).
  exists e, (write_entries keyLength es []). split_and!; [done|done|].
  rewrite index_entries_write_entries by (done || lia).
  intros entry Hentry.
  destruct (indexed_entry_record es entry Hes Hentry) as (off & r & Hrec & Hlen & -> & Hread).
  by exists off, r.
Qed.

(** C9 (exclusion): a record shorter than [keyLength] has no entry in the
    index file that [createIndex] writes; no search, whatever the key,
    resolves to it or prints it as its match; and the listing does not
    print it. *)
Theorem short_record_excluded :
  exists e index,
    createIndex std_sort fs dataFilename indexFilename keyLength = Returns e /\
    files (fs_after e) !! indexFilename = Some index /\
    forall (off : nat) (r : list byte),
      is_record data off r -> Z.of_nat (length r) < keyLength ->
      (forall entry, entry ∈ index_entries keyLength index -> offset entry <> Z.of_nat off) /\
      (forall target, exists st,
         searchForKey_lookup keyLength target index = Returns st /\
         searchForKey (fs_after e) dataFilename indexFilename target keyLength =
           Returns (Effects (fs_after e) [searchForKey_print data st] []) /\
         (found st = true ->
          recordOffset st <> Z.of_nat off /\ searchForKey_print data st <> r)) /\
      (exists lines,
         listRecords (fs_after e) dataFilename indexFilename keyLength =
           Returns (Effects (fs_after e) lines []) /\
         r ∉ lines).
Proof using std_sort_ok data_file keyLength_range data_size index_writable temp_writable
  data_not_temp data_not_index.
  destruct createIndex_builds
    as (e & es & Hrun & _ & _ & Hindex & Hdata & Hes & Hsorted & Hwf & Hsize).
  specialize (Hdata data_not_index).
  exists e, (write_entries keyLength es []). split_and!; [done|done|].
  rewrite index_entries_write_entries by (done || lia).
  intros off r Hrec Hshort.
  assert (forall entry, entry ∈ es ->
            offset entry <> Z.of_nat off /\ read_line_at data (offset entry) <> r) as Hother.
  { intros entry Hentry.
    destruct (indexed_entry_record es entry Hes Hentry) as (off' & r' & Hrec' & Hlen & -> & Hread).
    cbn [entry_of offset] in *. split.
    - intros Heq. assert (off' = off) as -> by lia.
      rewrite (is_record_unique _ _ _ _ Hrec Hrec') in Hshort. lia.
    - rewrite Hread. intros ->. lia. }
  split_and!.
  - intros entry Hentry. by apply Hother.
  - intros target.
    destruct (searchForKey_lookup_built keyLength target es) as (st & Hlookup & Hcases);
      [done..|].
    exists st. split_and!; [done| |].
    + rewrite (searchForKey_unfold _ _ _ _ _ _ _ Hindex Hdata). by rewrite Hlookup.
    + intros Hfound. destruct Hcases as [[? _]|(_ & entry & Hentry & _ & Hoff)]; [congruence|].
      rewrite searchForKey_print_found, Hoff by done. by apply Hother.
  - exists (map (fun entry => read_line_at data (offset entry)) es). split.
    + rewrite (listRecords_unfold _ _ _ _ _ _ Hindex Hdata).
      rewrite listRecords_loop_built; [done|done|lia|done].
    + intros (entry & Hr & Hentry%list_elem_of_In)%list_elem_of_In%in_map_iff.
      by destruct (Hother entry Hentry) as [_ []].
Qed.

(** C1, amended (round trip): after [createIndex], searching the first
    [keyLength] bytes of a record of at least [keyLength] bytes prints the
    full line of a record that starts with these bytes; it is that very
    record when no other record of at least [keyLength] bytes starts with
    them. *)
Theorem search_prints_record_with_key :
  exists e,
    createIndex std_sort fs dataFilename indexFilename keyLength = Returns e /\
    forall (off : nat) (r : list byte),
      is_record data off r -> keyLength <= Z.of_nat (length r) ->
      exists (off' : nat) (r' : list byte),
        is_record data off' r' /\ keyLength <= Z.of_nat (length r') /\
        substr r' 0 keyLength = substr r 0 keyLength /\
        searchForKey (fs_after e) dataFilename indexFilename (substr r 0 keyLength) keyLength =
          Returns (Effects (fs_after e) [r'] []) /\
        ((forall (off'' : nat) (r'' : list byte),
            is_record data off'' r'' -> keyLength <= Z.of_nat (length r'') ->
            substr r'' 0 keyLength = substr r 0 keyLength -> off'' = off) ->
         r' = r).
Proof using std_sort_ok data_file keyLength_range data_size index_writable temp_writable
  data_not_temp data_not_index.
  destruct createIndex_builds
    as (e & es & Hrun & _ & _ & Hindex & Hdata & Hes & Hsorted & Hwf & Hsize).
  specialize (Hdata data_not_index).
  exists e. split; [done|]. intros off r Hrec Hlen.
  destruct (searchForKey_lookup_built keyLength (substr r 0 keyLength) es)
    as (st & Hlookup & Hcases); [done..|].
  destruct Hcases as [[_ Habsent]|(Hfound & entry & Hentry & Hkey & Hoff)].
  - exfalso. apply (Habsent (entry_of keyLength off r)); [|done].
    apply Hes. exists off, r. split_and!; [lia|done|done|done].
  - destruct (indexed_entry_record es entry Hes Hentry)
      as (off' & r' & Hrec' & Hlen' & -> & Hread).
    cbn [entry_of key offset] in *.
    exists off', r'. split_and!; [done|done|done| |].
    + rewrite (searchForKey_unfold _ _ _ _ _ _ _ Hindex Hdata). rewrite Hlookup.
      cbn [mbind outcome_bind]. by rewrite searchForKey_print_found, Hoff, Hread.
    + intros Hunique. rewrite (Hunique off' r' Hrec' Hlen' Hkey) in Hrec'.
      by apply (is_record_unique data off).
Qed.

(** C6 (negative lookup): on the index file that [createIndex] writes, a
    search for a key that no entry carries prints "Record not found"; and
    whatever the key, a search that finds a match prints a record whose
    first [keyLength] bytes are the search key. *)
Theorem absent_key_reports_not_found :
  exists e index,
    createIndex std_sort fs dataFilename indexFilename keyLength = Returns e /\
    files (fs_after e) !! indexFilename = Some index /\
    forall target,
      ((forall entry, entry ∈ index_entries keyLength index -> key entry <> target) ->
       searchForKey (fs_after e) dataFilename indexFilename target keyLength =
         Returns (Effects (fs_after e) [bytes "Record not found"] [])) /\
      (exists st,
         searchForKey_lookup keyLength target index = Returns st /\
         searchForKey (fs_after e) dataFilename indexFilename target keyLength =
           Returns (Effects (fs_after e) [searchForKey_print data st] []) /\
         (found st = true ->
          exists (off : nat) (r : list byte),
            is_record data off r /\ substr r 0 keyLength = target /\
            searchForKey_print data st = r)).
Proof using std_sort_ok data_file keyLength_range data_size index_writable temp_writable
  data_not_temp data_not_index.
  destruct createIndex_builds
    as (e & es & Hrun & _ & _ & Hindex & Hdata & Hes & Hsorted & Hwf & Hsize).
  specialize (Hdata data_not_index).
  exists e, (write_entries keyLength es []). split_and!; [done|done|].
  rewrite index_entries_write_entries by (done || lia).
  intros target.
  destruct (searchForKey_lookup_built keyLength target es) as (st & Hlookup & Hcases);
    [done..|].
  rewrite (searchForKey_unfold _ _ _ _ _ _ _ Hindex Hdata). rewrite Hlookup.
  cbn [mbind outcome_bind]. split.
  - intros Habsent.
    destruct Hcases as [[Hfound _]|(_ & entry & Hentry & Hkey & _)].
    + by rewrite searchForKey_print_not_found.
    + by destruct (Habsent entry Hentry).
  - exists st. split_and!; [done|done|]. intros Hfound.
    destruct Hcases as [[? _]|(_ & entry & Hentry & Hkey & Hoff)]; [congruence|].
    destruct (indexed_entry_record es entry Hes Hentry)
      as (off & r & Hrec & Hlen & -> & Hread).
    exists off, r. split_and!; [done|done|].
    by rewrite searchForKey_print_found, Hoff by done.
Qed.

(** C4, amended (strategy equivalence): when the temporary file can be
    opened for writing and is not the data file, and the key length is at
    most [PTRDIFF_MAX], the temporary-file builder and the two in-memory
    builders return and leave the same bytes in the index file. *)
Theorem build_strategies_agree :
  exists e1 e2 e3 index,
    createIndex std_sort fs dataFilename indexFilename keyLength = Returns e1 /\
    createIndexInMemorySort std_sort fs dataFilename indexFilename keyLength = Returns e2 /\
    createIndexInMemorySort_tellg std_sort fs dataFilename indexFilename keyLength =
      Returns e3 /\
    files (fs_after e1) !! indexFilename = Some index /\
    files (fs_after e2) !! indexFilename = Some index /\
    files (fs_after e3) !! indexFilename = Some index.
Proof using data_file keyLength_range data_size index_writable temp_writable data_not_temp.
  destruct (scan_data_file keyLength data) as (es0 & Hscan & Hes0 & Hsize); [lia|].
  eexists _, _, _, (write_entries keyLength (std_sort es0) []). split_and!.
  - by apply (createIndex_run std_sort fs dataFilename indexFilename data keyLength es0).
  - apply (createIndexInMemorySort_run std_sort fs dataFilename indexFilename data keyLength es0);
      done.
  - apply (createIndexInMemorySort_tellg_run std_sort fs dataFilename indexFilename data
             keyLength es0); done.
  - cbn [fs_after files].
    rewrite lookup_delete_ne by apply temp_not_index. by rewrite lookup_insert_eq.
  - cbn [fs_after files]. by rewrite lookup_insert_eq.
  - cbn [fs_after files]. by rewrite lookup_insert_eq.
Qed.

End Built.

(* ================================================================== *)
(** * The search loop *)

(** C3 (loop invariant and termination of the binary search): on an index
    file whose keys are in non-decreasing order, every state the loop of
    [searchForKey] goes through keeps each entry that carries the target key
    inside [low, high); and the loop ends, either with [low = high], no match
    and no entry that carries the key, or with a match whose offset has been
    read. *)
Theorem binary_search_invariant_and_termination (keyLength : Z) (target index : list byte) :
  0 <= keyLength <= ALLOC_MAX ->
  Z.of_nat (length index) <= STREAMOFF_MAX ->
  keys_nondecreasing (key <$> index_entries keyLength index) ->
  exists start,
    searchForKey_init keyLength index = Returns start /\
    (forall indexFile st,
       rtc (search_iteration keyLength target) start (indexFile, st) ->
       search_invariant keyLength target index st) /\
    (exists indexFile st,
       searchForKey_lookup keyLength target index = Returns st /\
       rtc (search_iteration keyLength target) start (indexFile, st) /\
       search_finished keyLength target index st /\
       (found st = false ->
        forall i : nat, (i < entry_count keyLength index)%nat ->
          key (entry_at keyLength index i) <> target)).
Proof.
  intros Hk Hsize Hsorted. eexists. split; [by apply searchForKey_init_spec|].
  assert (forall indexFile st,
            rtc (search_iteration keyLength target)
              (Ifstream index 0 false false 0,
               SearchState 0 (Z.of_nat (entry_count keyLength index)) false 0)
              (indexFile, st) ->
            search_invariant keyLength target index st) as Hinv.
  { intros indexFile st Hreach.
    apply (search_invariant_reachable keyLength target index Hk Hsize Hsorted) in Hreach
      as (_ & _ & Hinv); [done|done|done|].
    apply search_invariant_start. }
  split; [done|].
  destruct (searchForKey_lookup_returns keyLength target index Hk Hsize)
    as (s & st & Hrun & Hreach & Hfin).
  exists s, st. split_and!; [done|done|done|].
  intros Hfound i Hi Hkey.
  destruct (Hinv s st Hreach) as (_ & _ & Hkeys). specialize (Hkeys i Hi Hkey).
  destruct Hfin as [[_ Heq]|[Htrue _]]; [lia|congruence].
Qed.

(** C10 (a search key of the wrong length always misses): whatever the index
    file, a search key whose length is not [keyLength] equals no key read
    from it, so the search finds nothing and prints "Record not found". *)
Theorem wrong_length_key_not_found (fs : filesystem) (dataFilename indexFilename : string)
    (data index target : list byte) (keyLength : Z) :
  files fs !! indexFilename = Some index ->
  files fs !! dataFilename = Some data ->
  0 <= keyLength <= ALLOC_MAX ->
  Z.of_nat (length index) <= STREAMOFF_MAX ->
  Z.of_nat (length target) <> keyLength ->
  exists st,
    searchForKey_lookup keyLength target index = Returns st /\
    found st = false /\
    searchForKey fs dataFilename indexFilename target keyLength =
      Returns (Effects fs [bytes "Record not found"] []).
Proof.
  intros Hindex Hdata Hk Hsize Hlen.
  destruct (searchForKey_lookup_returns keyLength target index Hk Hsize)
    as (s & st & Hrun & _ & Hfin).
  assert (found st = false) as Hfound.
  { destruct Hfin as [[? _]|(_ & i & Hi & _ & Hkey & _)]; [done|].
    destruct Hlen. rewrite <- Hkey. apply entry_at_key_length; [lia|done]. }
  exists st. split_and!; [done|done|].
  rewrite (searchForKey_unfold _ _ _ _ _ _ _ Hindex Hdata), Hrun.
  cbn [mbind outcome_bind]. by rewrite searchForKey_print_not_found.
Qed.

(* ================================================================== *)
(** * Every operation returns *)

(** A read on a good stream either stores all its bytes or comes back
    short, with [eofbit] and [failbit] set. *)
Lemma read_cases s n :
  good s = true -> 0 <= n ->
  (read s n =
     (Ifstream (content s) (gpos s + Z.to_nat n) false false (Z.to_nat n),
      take (Z.to_nat n) (drop (gpos s) (content s))) /\
   (0 < n -> (gpos s + Z.to_nat n <= length (content s))%nat)) \/
  (exists got,
     read s n = (Ifstream (content s) (gpos s + length got) true true (length got), got) /\
     Z.of_nat (length got) < n).
Proof.
  intros Hgood Hn. unfold read. rewrite Hgood. cbv zeta.
  pose proof (length_take (drop (gpos s) (content s)) (Z.to_nat n)) as Hlen.
  rewrite length_drop in Hlen.
  case_bool_decide as Hshort.
  - right. by eexists.
  - left. split; [|lia]. by replace (length (take _ _)) with (Z.to_nat n) by lia.
Qed.

Lemma listRecords_loop_returns keyLength :
  0 <= keyLength <= ALLOC_MAX ->
  forall fuel indexFile dataFile cout,
    (length (content indexFile) - gpos indexFile < fuel)%nat ->
    exists lines, listRecords_loop fuel keyLength indexFile dataFile cout = Returns lines.
Proof.
  intros Hk. induction fuel as [|fuel IH]; intros indexFile dataFile cout Hfuel; [lia|].
  cbn [listRecords_loop]. destruct (good indexFile) eqn:Hgood; [|by eexists].
  destruct (Z.ltb_spec ALLOC_MAX keyLength); [lia|].
  destruct (read_cases indexFile keyLength) as [[-> Hin]|(got & -> & Hshort)]; [done|lia| |].
  - cbn [gcount].
    destruct (Z.ltb_spec (Z.of_nat (Z.to_nat keyLength)) keyLength); [lia|].
    set (s1 := Ifstream _ _ _ _ _).
    destruct (read_cases s1 8) as [[-> Hin8]|(got & -> & _)]; [done|lia| |].
    + cbn [good eofbit failbit negb andb].
      destruct (getline _ _) as [dataFile' record].
      apply IH. subst s1. cbn [content gpos] in *. lia.
    + cbn [good eofbit failbit negb andb]. by eexists.
  - cbn [gcount]. destruct (Z.ltb_spec (Z.of_nat (length got)) keyLength); [|lia].
    by eexists.
Qed.

Section Returns.

Variable std_sort : list IndexEntry -> list IndexEntry.
Variables (fs : filesystem) (dataFilename indexFilename : string) (keyLength : Z).

Hypothesis keyLength_range : 0 <= keyLength <= ALLOC_MAX.
Hypothesis sizes_fit : file_sizes_fit fs.

Lemma listRecords_returns :
  exists e, listRecords fs dataFilename indexFilename keyLength = Returns e.
Proof using keyLength_range.
  clear sizes_fit.
  unfold listRecords. destruct (ifstream_open fs indexFilename) as [index|]; [|by eexists].
  destruct (ifstream_open fs dataFilename) as [data|]; [|by eexists].
  destruct (listRecords_loop_returns keyLength keyLength_range (S (length index))
              (ifstream_of index) (ifstream_of data) []) as [lines ->]; [simpl; lia|].
  by eexists.
Qed.

Lemma searchForKey_returns key :
  exists e, searchForKey fs dataFilename indexFilename key keyLength = Returns e.
Proof using keyLength_range sizes_fit.
  unfold searchForKey, ifstream_open.
  destruct (files fs !! indexFilename) as [index|] eqn:Hindex; [|by eexists].
  destruct (files fs !! dataFilename) as [data|]; [|by eexists].
  destruct (searchForKey_lookup_returns keyLength key index) as (s & st & -> & _); [done| |].
  - specialize (sizes_fit _ _ Hindex). lia.
  - by eexists.
Qed.

Lemma createIndex_returns :
  exists e, createIndex std_sort fs dataFilename indexFilename keyLength = Returns e.
Proof using keyLength_range sizes_fit.
  unfold createIndex, ifstream_open.
  destruct (files fs !! dataFilename) as [data|] eqn:Hdata; [|by eexists].
  rewrite checkOrCreateIndexFile_id. unfold ofstream_open at 1.
  destruct (decide (_ ∈ unwritable fs)); [by eexists|].
  cbn [files].
  set (data' := default [] _).
  assert (9 * Z.of_nat (length data') <= STREAMOFF_MAX) as Hsize.
  { subst data'. destruct (decide ((indexFilename +:+ ".tmp")%string = dataFilename)) as [<-|Hne].
    - rewrite lookup_insert_eq. by cbn.
    - rewrite lookup_insert_ne by done. rewrite Hdata. cbn. by apply (sizes_fit dataFilename). }
  clearbody data'.
  destruct (scan_data_file keyLength data') as (es & Hscan & Hes & _); [lia|].
  pose proof (createIndex_scan_tellg (S (length data')) keyLength (ifstream_of data') [] 0 [])
    as Hscan'.
  change (write_entries keyLength [] []) with (@nil byte) in Hscan'.
  rewrite Hscan', Hscan. cbn [fmap outcome_fmap mbind outcome_bind].
  unfold ofstream_close. cbn [files unwritable].
  rewrite lookup_insert_eq.
  assert (well_formed_entries keyLength es) as Hwf
    by (apply (indexes_from_well_formed 0 data'); [lia|lia|done]).
  pose proof (length_write_entries keyLength es Hwf) as Hlen.
  pose proof (createIndex_load_spec keyLength es keyLength_range Hwf
                (S (length (write_entries keyLength es []))) [] [] 0) as Hload.
  cbn [app length] in Hload. unfold ifstream_of. rewrite Hload by nia.
  cbn [mbind outcome_bind]. by eexists.
Qed.

End Returns.

(* ================================================================== *)
(** * The exit status *)

Lemma createIndex_diagnostic std_sort fs dataFilename indexFilename keyLength e diagnostic :
  createIndex std_sort fs dataFilename indexFilename keyLength = Returns e ->
  match files fs !! dataFilename with
  | None => Some "Error opening data file for reading."%string
  | Some _ =>
      if decide ((indexFilename +:+ ".tmp")%string ∈ unwritable fs)
      then Some "Error opening temporary index file for writing."%string
      else None
  end = Some diagnostic ->
  e = Effects fs [] [diagnostic].
Proof.
  unfold createIndex, ifstream_open. destruct (files fs !! dataFilename) as [data|].
  - rewrite checkOrCreateIndexFile_id. unfold ofstream_open at 1.
    destruct (decide (_ ∈ unwritable fs)); [|done]. by intros [= <-] [= <-].
  - by intros [= <-] [= <-].
Qed.

Lemma read_diagnostic fs dataFilename indexFilename diagnostic :
  match files fs !! indexFilename with
  | None => Some "Error opening index file for reading."%string
  | Some _ =>
      match files fs !! dataFilename with
      | None => Some "Error opening data file for reading."%string
      | Some _ => None
      end
  end = Some diagnostic ->
  (forall keyLength e,
     listRecords fs dataFilename indexFilename keyLength = Returns e ->
     e = Effects fs [] [diagnostic]) /\
  (forall key keyLength e,
     searchForKey fs dataFilename indexFilename key keyLength = Returns e ->
     e = Effects fs [] [diagnostic]).
Proof.
  intros Hdiag. unfold listRecords, searchForKey, ifstream_open.
  destruct (files fs !! indexFilename) as [index|].
  - destruct (files fs !! dataFilename) as [data|]; [done|].
    injection Hdiag as <-. split; intros; congruence.
  - injection Hdiag as <-. split; intros; congruence.
Qed.

(** C5, amended (exit status): [main] returns 1, with one line on the error
    stream and nothing else done, exactly when the command line is
    malformed; on every other command line it returns 0, also after a search
    that found nothing, and also when a file it needs cannot be opened, in
    which case the diagnostic is all it writes. *)
Theorem main_exit_status (std_sort : list IndexEntry -> list IndexEntry) (atoi : string -> Z)
    (argv : list string) (fs : filesystem) :
  (~ malformed_arguments argv -> 0 <= atoi (argument argv 4) <= ALLOC_MAX) ->
  file_sizes_fit fs ->
  exists status e,
    main std_sort atoi argv fs = Returns (status, e) /\
    (malformed_arguments argv ->
     status = 1 /\ cout e = [] /\ (exists usage, cerr e = [usage]) /\ fs_after e = fs) /\
    (~ malformed_arguments argv ->
     status = 0 /\
     forall diagnostic,
       unopenable_file_diagnostic argv fs = Some diagnostic ->
       e = Effects fs [] [diagnostic]).
Proof.
  intros Hatoi Hsizes. unfold main. cbv zeta.
  destruct (Z.ltb_spec (Z.of_nat (length argv)) 5) as [Hargc|Hargc].
  { eexists _, _. split; [done|]. split.
    - intros _. cbn [cout cerr fs_after]. split_and!; [done|done|by eexists|done].
    - intros []. left. lia. }
  rewrite checkOrCreateIndexFile_id.
  assert (~ malformed_arguments argv ->
          0 <= wrap64 (atoi (argument argv 4)) <= ALLOC_MAX) as Hk.
  { intros Hok. specialize (Hatoi Hok). rewrite wrap64_small; [done|].
    unfold ALLOC_MAX, SIZE_WIDTH in *. lia. }
  unfold unopenable_file_diagnostic.
  destruct (decide (argument argv 1 = "-c"%string)) as [Hc|Hc].
  { assert (~ malformed_arguments argv) as Hok.
    { intros [?|[(? & _)|[? _]]]; [lia|done|congruence]. }
    destruct (createIndex_returns std_sort fs (argument argv 2) (argument argv 3) _
                (Hk Hok) Hsizes) as [e He].
    rewrite He. cbn [mbind outcome_bind]. eexists _, _. split; [done|]. split; [done|].
    intros _. split; [done|]. intros diagnostic Hdiag.
    by apply (createIndex_diagnostic _ _ _ _ _ _ _ He). }
  destruct (decide (argument argv 1 = "-l"%string)) as [Hl|Hl].
  { assert (~ malformed_arguments argv) as Hok.
    { intros [?|[(_ & ? & _)|[? _]]]; [lia|done|congruence]. }
    destruct (listRecords_returns fs (argument argv 2) (argument argv 3) _ (Hk Hok))
      as [e He].
    rewrite He. cbn [mbind outcome_bind]. eexists _, _. split; [done|]. split; [done|].
    intros _. split; [done|]. intros diagnostic Hdiag.
    by apply (read_diagnostic _ _ _ _ Hdiag) in He. }
  destruct (decide (argument argv 1 = "-s"%string)) as [Hs|Hs].
  - destruct (decide (Z.of_nat (length argv) = 6)) as [Hsix|Hsix].
    + assert (~ malformed_arguments argv) as Hok.
      { intros [?|[(_ & _ & ?)|[_ ?]]]; [lia|done|lia]. }
      destruct (searchForKey_returns fs (argument argv 2) (argument argv 3) _ (Hk Hok) Hsizes
                  (bytes (argument argv 5))) as [e He].
      rewrite He. cbn [mbind outcome_bind]. eexists _, _. split; [done|]. split; [done|].
      intros _. split; [done|]. intros diagnostic Hdiag.
      by apply (read_diagnostic _ _ _ _ Hdiag) in He.
    + eexists _, _. split; [done|]. split.
      * intros _. cbn [cout cerr fs_after]. split_and!; [done|done|by eexists|done].
      * intros []. right; right. split; [done|lia].
  - eexists _, _. split; [done|]. split.
    + intros _. cbn [cout cerr fs_after]. split_and!; [done|done|by eexists|done].
    + intros []. right; left. done.
Qed.

(* ================================================================== *)
(** * The claims on the sample files *)

Lemma sample_index_sorted : keys_nondecreasing (key <$> index_entries 4 sample_index).
Proof.
  unfold sample_index. rewrite index_entries_write_entries.
  - apply sorted_by_keys_nondecreasing, insertion_sort_contract.
  - lia.
  - assert (insertion_sort [mkIndexEntry (bytes "AAAA") 0; mkIndexEntry (bytes "CCCC") 7;
                             mkIndexEntry (bytes "BBBB") 14] =
            [mkIndexEntry (bytes "AAAA") 0; mkIndexEntry (bytes "BBBB") 14;
             mkIndexEntry (bytes "CCCC") 7]) as -> by reflexivity.
    repeat (constructor; [split; [reflexivity|by vm_compute]|]). constructor.
Qed.

Lemma sample_indexed_fs_sizes : file_sizes_fit sample_indexed_fs.
Proof.
  unfold file_sizes_fit, sample_indexed_fs. cbn [files].
  apply map_Forall_insert_2; [by vm_compute|].
  apply map_Forall_singleton. by vm_compute.
Qed.

(** The round trip of C1 fails on a data file with two records that share
    their first four bytes: the search for the key of the first record
    prints the second one. *)
Lemma duplicate_key_search_prints_other_record :
  exists e,
    createIndex insertion_sort duplicate_keys_fs "data.txt" "index.idx" 4 = Returns e /\
    is_record duplicate_keys_data 0 (bytes "AAAA-1") /\
    4 <= Z.of_nat (length (bytes "AAAA-1")) /\
    searchForKey (fs_after e) "data.txt" "index.idx" (substr (bytes "AAAA-1") 0 4) 4 =
      Returns (Effects (fs_after e) [bytes "AAAA-2"] []) /\
    bytes "AAAA-2" <> bytes "AAAA-1".
Proof.
  eexists. split; [vm_compute; reflexivity|].
  split_and!.
  - split_and!; [by left|simpl; lia|by vm_compute].
  - by vm_compute.
  - vm_compute. reflexivity.
  - done.
Qed.

(** Whatever [std::sort] does with equal keys, the round trip cannot hold for
    both records of that file: they are searched with the same key. *)
Lemma round_trip_fails_for_every_sort (std_sort : list IndexEntry -> list IndexEntry) e :
  createIndex std_sort duplicate_keys_fs "data.txt" "index.idx" 4 = Returns e ->
  ~ (forall (off : nat) (r : list byte),
       is_record duplicate_keys_data off r -> 4 <= Z.of_nat (length r) ->
       searchForKey (fs_after e) "data.txt" "index.idx" (substr r 0 4) 4 =
         Returns (Effects (fs_after e) [r] [])).
Proof.
  intros _ Hclaim.
  assert (is_record duplicate_keys_data 0 (bytes "AAAA-1")) as H1
    by (split_and!; [by left|simpl; lia|by vm_compute]).
  assert (is_record duplicate_keys_data 7 (bytes "AAAA-2")) as H2
    by (split_and!; [right; split; [lia|by vm_compute]|simpl; lia|by vm_compute]).
  apply Hclaim in H1; [|by vm_compute]. apply Hclaim in H2; [|by vm_compute].
  change (substr (bytes "AAAA-2") 0 4) with (substr (bytes "AAAA-1") 0 4) in H2.
  rewrite H1 in H2. discriminate H2.
Qed.

Lemma search_prints_record_with_key_sample :
  exists e,
    createIndex insertion_sort sample_fs "data.txt" "index.idx" 4 = Returns e /\
    forall (off : nat) (r : list byte),
      is_record sample_data off r -> 4 <= Z.of_nat (length r) ->
      exists (off' : nat) (r' : list byte),
        is_record sample_data off' r' /\ 4 <= Z.of_nat (length r') /\
        substr r' 0 4 = substr r 0 4 /\
        searchForKey (fs_after e) "data.txt" "index.idx" (substr r 0 4) 4 =
          Returns (Effects (fs_after e) [r'] []) /\
        ((forall (off'' : nat) (r'' : list byte),
            is_record sample_data off'' r'' -> 4 <= Z.of_nat (length r'') ->
            substr r'' 0 4 = substr r 0 4 -> off'' = off) ->
         r' = r).
Proof.
  apply (search_prints_record_with_key insertion_sort insertion_sort_contract sample_fs
           "data.txt" "index.idx" sample_data 4).
  - by vm_compute.
  - by vm_compute.
  - by vm_compute.
  - apply not_elem_of_empty.
  - apply not_elem_of_empty.
  - done.
  - done.
Defined.

Lemma index_keys_nondecreasing_sample :
  exists e index,
    createIndex insertion_sort sample_fs "data.txt" "index.idx" 4 = Returns e /\
    files (fs_after e) !! "index.idx"%string = Some index /\
    keys_nondecreasing (key <$> index_entries 4 index).
Proof.
  apply (index_keys_nondecreasing insertion_sort insertion_sort_contract sample_fs
           "data.txt" "index.idx" sample_data 4).
  - by vm_compute.
  - by vm_compute.
  - by vm_compute.
  - apply not_elem_of_empty.
  - apply not_elem_of_empty.
  - done.
Defined.

Lemma binary_search_invariant_and_termination_sample :
  exists start,
    searchForKey_init 4 sample_index = Returns start /\
    (forall indexFile st,
       rtc (search_iteration 4 (bytes "BBBB")) start (indexFile, st) ->
       search_invariant 4 (bytes "BBBB") sample_index st) /\
    (exists indexFile st,
       searchForKey_lookup 4 (bytes "BBBB") sample_index = Returns st /\
       rtc (search_iteration 4 (bytes "BBBB")) start (indexFile, st) /\
       search_finished 4 (bytes "BBBB") sample_index st /\
       (found st = false ->
        forall i : nat, (i < entry_count 4 sample_index)%nat ->
          key (entry_at 4 sample_index i) <> bytes "BBBB")).
Proof.
  apply (binary_search_invariant_and_termination 4 (bytes "BBBB") sample_index).
  - by vm_compute.
  - by vm_compute.
  - apply sample_index_sorted.
Defined.

Lemma build_strategies_agree_sample :
  exists e1 e2 e3 index,
    createIndex insertion_sort sample_fs "data.txt" "index.idx" 4 = Returns e1 /\
    createIndexInMemorySort insertion_sort sample_fs "data.txt" "index.idx" 4 = Returns e2 /\
    createIndexInMemorySort_tellg insertion_sort sample_fs "data.txt" "index.idx" 4 =
      Returns e3 /\
    files (fs_after e1) !! "index.idx"%string = Some index /\
    files (fs_after e2) !! "index.idx"%string = Some index /\
    files (fs_after e3) !! "index.idx"%string = Some index.
Proof.
  apply (build_strategies_agree insertion_sort sample_fs "data.txt" "index.idx" sample_data 4).
  - by vm_compute.
  - by vm_compute.
  - by vm_compute.
  - apply not_elem_of_empty.
  - apply not_elem_of_empty.
  - done.
Defined.

(** The equivalence of C4 fails in three situations.  A data file that has
    the name of the temporary file is truncated by [createIndex] before it
    is read, and the index file comes out empty, while the in-memory
    builders index its three records.  When the temporary file cannot be
    opened for writing, [createIndex] gives up and leaves no index file,
    while the in-memory builders write one.  And for a key length above
    [PTRDIFF_MAX] (here the [size_t] of -4) [createIndex] ends in
    [std::length_error], while the in-memory builders write an empty index
    file. *)
Lemma build_strategies_disagree :
  (exists e1 e2 e3,
     createIndex insertion_sort temporary_name_fs "index.idx.tmp" "index.idx" 4 =
       Returns e1 /\
     createIndexInMemorySort insertion_sort temporary_name_fs "index.idx.tmp" "index.idx" 4 =
       Returns e2 /\
     createIndexInMemorySort_tellg insertion_sort temporary_name_fs
       "index.idx.tmp" "index.idx" 4 = Returns e3 /\
     files (fs_after e1) !! "index.idx"%string = Some [] /\
     files (fs_after e2) !! "index.idx"%string = Some sample_index /\
     files (fs_after e3) !! "index.idx"%string = Some sample_index /\
     length sample_index = 36%nat) /\
  (exists e1 e2 e3,
     createIndex insertion_sort locked_temporary_fs "data.txt" "index.idx" 4 = Returns e1 /\
     createIndexInMemorySort insertion_sort locked_temporary_fs "data.txt" "index.idx" 4 =
       Returns e2 /\
     createIndexInMemorySort_tellg insertion_sort locked_temporary_fs
       "data.txt" "index.idx" 4 = Returns e3 /\
     files (fs_after e1) !! "index.idx"%string = None /\
     files (fs_after e2) !! "index.idx"%string = Some sample_index /\
     files (fs_after e3) !! "index.idx"%string = Some sample_index) /\
  (exists e2 e3,
     createIndex insertion_sort sample_fs "data.txt" "index.idx" (wrap64 (-4)) =
       Anomaly length_error /\
     createIndexInMemorySort insertion_sort sample_fs "data.txt" "index.idx" (wrap64 (-4)) =
       Returns e2 /\
     createIndexInMemorySort_tellg insertion_sort sample_fs
       "data.txt" "index.idx" (wrap64 (-4)) = Returns e3 /\
     files (fs_after e2) !! "index.idx"%string = Some [] /\
     files (fs_after e3) !! "index.idx"%string = Some []).
Proof.
  split_and!.
  - eexists _, _, _.
    split_and!; [vm_compute; reflexivity..|by vm_compute|by vm_compute|by vm_compute|done].
  - eexists _, _, _.
    split_and!; [vm_compute; reflexivity..|by vm_compute|by vm_compute|by vm_compute].
  - eexists _, _.
    split_and!; [by vm_compute|vm_compute; reflexivity..|by vm_compute|by vm_compute].
Qed.

(** Whatever [std::sort] does, the builders disagree on the data file that
    has the name of the temporary file: [createIndex] leaves an index file
    of no bytes, the in-memory builders one of 36 bytes. *)
Lemma build_strategies_disagree_for_every_sort
    (std_sort : list IndexEntry -> list IndexEntry) :
  std_sort_contract std_sort ->
  exists e1 e2 e3 index2 index3,
    createIndex std_sort temporary_name_fs "index.idx.tmp" "index.idx" 4 = Returns e1 /\
    createIndexInMemorySort std_sort temporary_name_fs "index.idx.tmp" "index.idx" 4 =
      Returns e2 /\
    createIndexInMemorySort_tellg std_sort temporary_name_fs "index.idx.tmp" "index.idx" 4 =
      Returns e3 /\
    files (fs_after e1) !! "index.idx"%string = Some [] /\
    files (fs_after e2) !! "index.idx"%string = Some index2 /\
    files (fs_after e3) !! "index.idx"%string = Some index3 /\
    length index2 = 36%nat /\ length index3 = 36%nat.
Proof.
  intros Hsort.
  assert (std_sort [] = []) as Hnil
    by (destruct (Hsort []) as [Hperm _]; by apply Permutation_nil_r in Hperm).
  set (es0 := [mkIndexEntry (bytes "AAAA") 0; mkIndexEntry (bytes "CCCC") 7;
               mkIndexEntry (bytes "BBBB") 14]).
  assert (createIndexInMemorySort_scan_tellg (S (length sample_data)) 4
            (ifstream_of sample_data) [] 0 [] = Returns es0) as Hscan
    by (vm_compute; reflexivity).
  assert (length (write_entries 4 (std_sort es0) []) = 36%nat) as Hlen.
  { destruct (Hsort es0) as [Hperm _].
    assert (well_formed_entries 4 (std_sort es0)) as Hwf.
    { unfold well_formed_entries. rewrite Hperm. subst es0.
      repeat (constructor; [split; [reflexivity|by vm_compute]|]). constructor. }
    apply Nat2Z.inj. rewrite (length_write_entries 4 _ Hwf), Hperm. reflexivity. }
  eexists _, _, _, _, _. split_and!.
  - unfold createIndex, ifstream_open, temporary_name_fs. cbn [files].
    rewrite lookup_singleton_eq.
    rewrite checkOrCreateIndexFile_id, ofstream_open_writable by apply not_elem_of_empty.
    cbn [files]. change ("index.idx" +:+ ".tmp")%string with "index.idx.tmp"%string.
    rewrite lookup_insert_eq. cbn [default from_option id length].
    cbn [createIndex_scan]. unfold getline, ifstream_of.
    cbn [good eofbit failbit negb andb content gpos gcount drop find_newline].
    rewrite bool_decide_eq_true_2 by done. cbn [mbind outcome_bind].
    unfold ofstream_close. cbn [files unwritable length].
    rewrite lookup_insert_eq. cbn [length].
    change (createIndex_load 1 4 (Ifstream [] 0 false false 0) []) with
      (@Returns (list IndexEntry) []).
    cbn [mbind outcome_bind]. rewrite Hnil.
    rewrite ofstream_open_writable by apply not_elem_of_empty. reflexivity.
  - apply (createIndexInMemorySort_run std_sort temporary_name_fs "index.idx.tmp" "index.idx"
             sample_data 4 es0); [by vm_compute|by vm_compute|apply not_elem_of_empty|done].
  - apply (createIndexInMemorySort_tellg_run std_sort temporary_name_fs "index.idx.tmp"
             "index.idx" sample_data 4 es0); [by vm_compute|apply not_elem_of_empty|done].
  - cbn [fs_after files remove].
    rewrite lookup_delete_ne by discriminate. by rewrite lookup_insert_eq.
  - cbn [fs_after files]. by rewrite lookup_insert_eq.
  - cbn [fs_after files]. by rewrite lookup_insert_eq.
  - done.
  - done.
Qed.

(** The exit status of C5 fails on a build whose data file does not exist:
    the diagnostic is written, and the status is 0. *)
Lemma unopenable_data_file_exits_0 :
  main insertion_sort atoi_decimal ["prog"; "-c"; "missing.txt"; "index.idx"; "4"]%string
    sample_fs =
  Returns (0, Effects sample_fs [] ["Error opening data file for reading."%string]).
Proof. vm_compute. reflexivity. Qed.

Lemma main_exit_status_sample :
  exists status e,
    main insertion_sort atoi_decimal
      ["prog"; "-s"; "data.txt"; "index.idx"; "4"; "ZZZZ"]%string sample_indexed_fs =
      Returns (status, e) /\
    (malformed_arguments ["prog"; "-s"; "data.txt"; "index.idx"; "4"; "ZZZZ"]%string ->
     status = 1 /\ cout e = [] /\ (exists usage, cerr e = [usage]) /\
     fs_after e = sample_indexed_fs) /\
    (~ malformed_arguments ["prog"; "-s"; "data.txt"; "index.idx"; "4"; "ZZZZ"]%string ->
     status = 0 /\
     forall diagnostic,
       unopenable_file_diagnostic
         ["prog"; "-s"; "data.txt"; "index.idx"; "4"; "ZZZZ"]%string sample_indexed_fs =
         Some diagnostic ->
       e = Effects sample_indexed_fs [] [diagnostic]).
Proof.
  apply (main_exit_status insertion_sort atoi_decimal
           ["prog"; "-s"; "data.txt"; "index.idx"; "4"; "ZZZZ"]%string sample_indexed_fs).
  - intros _. by vm_compute.
  - apply sample_indexed_fs_sizes.
Defined.

Lemma absent_key_reports_not_found_sample :
  exists e index,
    createIndex insertion_sort sample_fs "data.txt" "index.idx" 4 = Returns e /\
    files (fs_after e) !! "index.idx"%string = Some index /\
    forall target,
      ((forall entry, entry ∈ index_entries 4 index -> key entry <> target) ->
       searchForKey (fs_after e) "data.txt" "index.idx" target 4 =
         Returns (Effects (fs_after e) [bytes "Record not found"] [])) /\
      (exists st,
         searchForKey_lookup 4 target index = Returns st /\
         searchForKey (fs_after e) "data.txt" "index.idx" target 4 =
           Returns (Effects (fs_after e) [searchForKey_print sample_data st] []) /\
         (found st = true ->
          exists (off : nat) (r : list byte),
            is_record sample_data off r /\ substr r 0 4 = target /\
            searchForKey_print sample_data st = r)).
Proof.
  apply (absent_key_reports_not_found insertion_sort insertion_sort_contract sample_fs
           "data.txt" "index.idx" sample_data 4).
  - by vm_compute.
  - by vm_compute.
  - by vm_compute.
  - apply not_elem_of_empty.
  - apply not_elem_of_empty.
  - done.
  - done.
Defined.

Lemma index_length_multiple_of_stride_sample :
  exists e index,
    createIndex insertion_sort sample_fs "data.txt" "index.idx" 4 = Returns e /\
    files (fs_after e) !! "index.idx"%string = Some index /\
    Z.of_nat (length index) mod (4 + 8) = 0 /\
    indexes_from 0 sample_data 4 (index_entries 4 index) /\
    Z.of_nat (length index) = Z.of_nat (length (index_entries 4 index)) * (4 + 8).
Proof.
  apply (index_length_multiple_of_stride insertion_sort insertion_sort_contract sample_fs
           "data.txt" "index.idx" sample_data 4).
  - by vm_compute.
  - by vm_compute.
  - by vm_compute.
  - apply not_elem_of_empty.
  - apply not_elem_of_empty.
  - done.
Defined.

Lemma index_entry_offset_is_record_start_sample :
  exists e index,
    createIndex insertion_sort sample_fs "data.txt" "index.idx" 4 = Returns e /\
    files (fs_after e) !! "index.idx"%string = Some index /\
    forall entry, entry ∈ index_entries 4 index ->
      exists (off : nat) (r : list byte),
        is_record sample_data off r /\ 4 <= Z.of_nat (length r) /\
        key entry = substr r 0 4 /\ offset entry = Z.of_nat off /\
        read_line_at sample_data (offset entry) = r.
Proof.
  apply (index_entry_offset_is_record_start insertion_sort insertion_sort_contract sample_fs
           "data.txt" "index.idx" sample_data 4).
  - by vm_compute.
  - by vm_compute.
  - by vm_compute.
  - apply not_elem_of_empty.
  - apply not_elem_of_empty.
  - done.
Defined.

Lemma short_record_excluded_sample :
  exists e index,
    createIndex insertion_sort sample_fs "data.txt" "index.idx" 4 = Returns e /\
    files (fs_after e) !! "index.idx"%string = Some index /\
    forall (off : nat) (r : list byte),
      is_record sample_data off r -> Z.of_nat (length r) < 4 ->
      (forall entry, entry ∈ index_entries 4 index -> offset entry <> Z.of_nat off) /\
      (forall target, exists st,
         searchForKey_lookup 4 target index = Returns st /\
         searchForKey (fs_after e) "data.txt" "index.idx" target 4 =
           Returns (Effects (fs_after e) [searchForKey_print sample_data st] []) /\
         (found st = true ->
          recordOffset st <> Z.of_nat off /\ searchForKey_print sample_data st <> r)) /\
      (exists lines,
         listRecords (fs_after e) "data.txt" "index.idx" 4 =
           Returns (Effects (fs_after e) lines []) /\
         r ∉ lines).
Proof.
  apply (short_record_excluded insertion_sort insertion_sort_contract sample_fs
           "data.txt" "index.idx" sample_data 4).
  - by vm_compute.
  - by vm_compute.
  - by vm_compute.
  - apply not_elem_of_empty.
  - apply not_elem_of_empty.
  - done.
  - done.
Defined.

Lemma wrong_length_key_not_found_sample :
  exists st,
    searchForKey_lookup 4 (bytes "BB") sample_index = Returns st /\
    found st = false /\
    searchForKey sample_indexed_fs "data.txt" "index.idx" (bytes "BB") 4 =
      Returns (Effects sample_indexed_fs [bytes "Record not found"] []).
Proof.
  apply (wrong_length_key_not_found sample_indexed_fs "data.txt" "index.idx"
           sample_data sample_index (bytes "BB") 4).
  - by vm_compute.
  - by vm_compute.
  - by vm_compute.
  - by vm_compute.
  - by vm_compute.
Defined.

(* ================================================================== *)
(** * Runs of the program *)

(** The scenario of the specification: three records, keys of four bytes. *)
Example scenario_build :
  exists e,
    main insertion_sort atoi_decimal ["INDEX"; "-c"; "data.txt"; "index.idx"; "4"]%string
      scenario_fs = Returns (0, e) /\
    cout e = [] /\ cerr e = [] /\
    index_entries 4 <$> (files (fs_after e) !! "index.idx"%string) =
      Some [mkIndexEntry (bytes "AAAA") 0; mkIndexEntry (bytes "BBBB") 7;
            mkIndexEntry (bytes "CCCC") 14] /\
    files (fs_after e) !! "index.idx.tmp"%string = None.
Proof. eexists. split; [vm_compute; reflexivity|]. by vm_compute. Qed.

Example scenario_search_hit :
  main insertion_sort atoi_decimal
    ["INDEX"; "-s"; "data.txt"; "index.idx"; "4"; "BBBB"]%string scenario_indexed_fs =
  Returns (0, Effects scenario_indexed_fs [bytes "BBBB-2"] []).
Proof. vm_compute. reflexivity. Qed.

Example scenario_search_miss :
  main insertion_sort atoi_decimal
    ["INDEX"; "-s"; "data.txt"; "index.idx"; "4"; "ZZZZ"]%string scenario_indexed_fs =
  Returns (0, Effects scenario_indexed_fs [bytes "Record not found"] []).
Proof. vm_compute. reflexivity. Qed.

Example scenario_list :
  main insertion_sort atoi_decimal
    ["INDEX"; "-l"; "data.txt"; "index.idx"; "4"]%string scenario_indexed_fs =
  Returns (0, Effects scenario_indexed_fs
                [bytes "AAAA-1"; bytes "BBBB-2"; bytes "CCCC-3"] []).
Proof. vm_compute. reflexivity. Qed.

(** Malformed command lines. *)
Example too_few_arguments :
  main insertion_sort atoi_decimal ["INDEX"; "-c"; "data.txt"]%string scenario_fs =
  Returns (1, Effects scenario_fs []
                ["Usage: INDEX -c|-l|-s datafile indexfile keylength [key]"%string]).
Proof. vm_compute. reflexivity. Qed.

Example search_without_key :
  main insertion_sort atoi_decimal ["INDEX"; "-s"; "data.txt"; "index.idx"; "4"]%string
    scenario_indexed_fs =
  Returns (1, Effects scenario_indexed_fs []
                ["Usage: INDEX -s datafile indexfile keylength key"%string]).
Proof. vm_compute. reflexivity. Qed.

(** A key length argument of -1 is the [size_t] 2^64 - 1: no line is that
    long, the temporary file stays empty, and [resize] throws in
    [createIndex]; the in-memory builders write an empty index file. *)
Example negative_key_length_build :
  createIndex insertion_sort scenario_fs "data.txt" "index.idx" (wrap64 (-1)) =
    Anomaly length_error /\
  exists e,
    createIndexInMemorySort insertion_sort scenario_fs "data.txt" "index.idx" (wrap64 (-1)) =
      Returns e /\
    files (fs_after e) !! "index.idx"%string = Some [].
Proof. split; [by vm_compute|]. eexists. split; [vm_compute; reflexivity|by vm_compute]. Qed.

(** A key length argument of -8 makes [keyLength + sizeof(std::streamoff)]
    wrap to 0, and the search divides by it. *)
Example key_length_minus_8_search :
  searchForKey_lookup (wrap64 (-8)) (bytes "AAAA") [] = Anomaly division_by_zero.
Proof. by vm_compute. Qed.

(* ================================================================== *)
(** * Further properties of the builders *)

(** X1: [compareIndexEntries] is the strict weak ordering [std::sort] asks
    for: irreflexive and transitive, and two entries neither of which is
    less than the other have the same key. *)
Theorem compareIndexEntries_strict_weak_order :
  (forall a, compareIndexEntries a a = false) /\
  (forall a b c,
     compareIndexEntries a b = true -> compareIndexEntries b c = true ->
     compareIndexEntries a c = true) /\
  (forall a b,
     compareIndexEntries a b = false -> compareIndexEntries b a = false -> key a = key b).
Proof.
  unfold compareIndexEntries. split_and!.
  - intros a. apply string_lt_irrefl.
  - intros a b c. apply string_lt_trans.
  - intros a b. apply string_lt_neither.
Qed.

(** X2: the loop of [createIndex] that loads the temporary file reads back
    the entries that were written to it, in their order, when every key has
    [keyLength] bytes and every offset is a position in a file. *)
Theorem temporary_file_round_trip (keyLength : Z) (es : list IndexEntry) :
  0 <= keyLength <= ALLOC_MAX ->
  well_formed_entries keyLength es ->
  createIndex_load (S (length (write_entries keyLength es []))) keyLength
    (ifstream_of (write_entries keyLength es [])) [] = Returns es.
Proof.
  intros Hk Hwf.
  pose proof (length_write_entries keyLength es Hwf) as Hlen.
  pose proof (createIndex_load_spec keyLength es Hk Hwf
                (S (length (write_entries keyLength es []))) [] [] 0) as Hload.
  cbn [app length] in Hload. apply Hload. nia.
Qed.

Lemma temporary_file_round_trip_sample :
  createIndex_load
    (S (length (write_entries 4 [mkIndexEntry (bytes "CCCC") 7; mkIndexEntry (bytes "AAAA") 0] [])))
    4 (ifstream_of (write_entries 4 [mkIndexEntry (bytes "CCCC") 7; mkIndexEntry (bytes "AAAA") 0] []))
    [] =
  Returns [mkIndexEntry (bytes "CCCC") 7; mkIndexEntry (bytes "AAAA") 0].
Proof.
  apply (temporary_file_round_trip 4 [mkIndexEntry (bytes "CCCC") 7; mkIndexEntry (bytes "AAAA") 0]).
  - by vm_compute.
  - repeat (constructor; [split; [reflexivity|by vm_compute]|]). constructor.
Defined.

Section Footprint.

Variable std_sort : list IndexEntry -> list IndexEntry.
Hypothesis std_sort_ok : std_sort_contract std_sort.

Variables (fs : filesystem) (dataFilename indexFilename : string).
Variables (data : list byte) (keyLength : Z).

Hypothesis data_file : files fs !! dataFilename = Some data.
Hypothesis keyLength_range : 0 <= keyLength <= ALLOC_MAX.
Hypothesis data_size : 9 * Z.of_nat (length data) <= STREAMOFF_MAX.
Hypothesis temp_writable : (indexFilename +:+ ".tmp")%string ∉ unwritable fs.
Hypothesis data_not_temp : dataFilename <> (indexFilename +:+ ".tmp")%string.

(** X3: a build with [createIndex] writes nothing to the output streams,
    leaves no temporary file behind (a file that had that name is gone), and
    leaves every file other than the index file and the temporary file as
    it was. *)
Theorem createIndex_footprint :
  indexFilename ∉ unwritable fs ->
  exists e,
    createIndex std_sort fs dataFilename indexFilename keyLength = Returns e /\
    cout e = [] /\ cerr e = [] /\
    files (fs_after e) !! (indexFilename +:+ ".tmp")%string = None /\
    (forall name,
       name <> indexFilename -> name <> (indexFilename +:+ ".tmp")%string ->
       files (fs_after e) !! name = files fs !! name) /\
    unwritable (fs_after e) = unwritable fs.
Proof using data_file keyLength_range data_size temp_writable data_not_temp.
  intros index_writable.
  destruct (scan_data_file keyLength data) as (es0 & Hscan & Hes0 & _); [lia|].
  eexists. split.
  { by apply (createIndex_run std_sort fs dataFilename indexFilename data keyLength es0). }
  cbn [cout cerr fs_after files unwritable]. split_and!; [done|done| | |done].
  - by rewrite lookup_delete_eq.
  - intros name Hidx Htmp. rewrite lookup_delete_ne by done. by rewrite lookup_insert_ne.
Qed.

(** X4: when the index file cannot be opened for writing, [createIndex]
    says nothing: it returns without a diagnostic, the index file is as it
    was, and the temporary file it wrote is removed. *)
Theorem createIndex_unwritable_index_is_silent :
  indexFilename ∈ unwritable fs ->
  createIndex std_sort fs dataFilename indexFilename keyLength =
  Returns (Effects
    (Filesystem (delete (indexFilename +:+ ".tmp")%string (files fs)) (unwritable fs)) [] []).
Proof using data_file keyLength_range data_size temp_writable data_not_temp.
  intros index_unwritable.
  destruct (scan_data_file keyLength data) as (es & Hscan & Hes & _); [lia|].
  unfold createIndex, ifstream_open. rewrite data_file.
  rewrite checkOrCreateIndexFile_id, ofstream_open_writable by done.
  cbn [files]. rewrite lookup_insert_ne by done.
  rewrite data_file. cbn [default from_option id].
  pose proof (createIndex_scan_tellg (S (length data)) keyLength (ifstream_of data) [] 0 [])
    as Hscan'.
  change (write_entries keyLength [] []) with (@nil byte) in Hscan'.
  rewrite Hscan', Hscan. cbn [fmap outcome_fmap mbind outcome_bind].
  unfold ofstream_close. cbn [files unwritable].
  rewrite lookup_insert_eq.
  assert (well_formed_entries keyLength es) as Hwf
    by (apply (indexes_from_well_formed 0 data); [lia|lia|done]).
  pose proof (length_write_entries keyLength es Hwf) as Hlen.
  pose proof (createIndex_load_spec keyLength es keyLength_range Hwf
                (S (length (write_entries keyLength es []))) [] [] 0) as Hload.
  cbn [app length] in Hload. unfold ifstream_of. rewrite Hload by nia.
  cbn [mbind outcome_bind]. unfold ofstream_open. cbn [unwritable].
  rewrite decide_True by done. unfold remove. cbn [files unwritable].
  do 3 f_equal. apply map_eq. intros name.
  destruct (decide (name = (indexFilename +:+ ".tmp")%string)) as [->|Hne].
  - by rewrite !lookup_delete_eq.
  - rewrite !lookup_delete_ne by done. by rewrite !lookup_insert_ne.
Qed.

(** X5: in the same situation the in-memory builders report the failure and
    change nothing. *)
Theorem createIndexInMemorySort_unwritable_index_is_reported :
  indexFilename ∈ unwritable fs ->
  createIndexInMemorySort std_sort fs dataFilename indexFilename keyLength =
    Returns (Effects fs [] ["Error opening index file for writing."%string]) /\
  createIndexInMemorySort_tellg std_sort fs dataFilename indexFilename keyLength =
    Returns (Effects fs [] ["Error opening index file for writing."%string]).
Proof using data_file keyLength_range data_size.
  intros index_unwritable.
  destruct (scan_data_file keyLength data) as (es & Hscan & _ & _); [lia|].
  pose proof (scan_length_tellg (S (length data)) keyLength data 0 [] [] 0) as Hsame.
  change (Z.of_nat 0) with 0 in Hsame.
  unfold createIndexInMemorySort, createIndexInMemorySort_tellg, ifstream_open.
  rewrite data_file. unfold ifstream_of in *. rewrite Hsame by lia. rewrite Hscan.
  cbn [mbind outcome_bind]. unfold ofstream_open. by rewrite decide_True.
Qed.

End Footprint.

Lemma createIndex_footprint_sample :
  exists e,
    createIndex insertion_sort sample_fs "data.txt" "index.idx" 4 = Returns e /\
    cout e = [] /\ cerr e = [] /\
    files (fs_after e) !! "index.idx.tmp"%string = None /\
    (forall name,
       name <> "index.idx"%string -> name <> "index.idx.tmp"%string ->
       files (fs_after e) !! name = files sample_fs !! name) /\
    unwritable (fs_after e) = unwritable sample_fs.
Proof.
  apply (createIndex_footprint insertion_sort sample_fs "data.txt" "index.idx" sample_data 4).
  - by vm_compute.
  - by vm_compute.
  - by vm_compute.
  - apply not_elem_of_empty.
  - done.
  - apply not_elem_of_empty.
Defined.

Lemma createIndex_unwritable_index_is_silent_sample :
  createIndex insertion_sort locked_index_fs "data.txt" "index.idx" 4 =
  Returns (Effects
    (Filesystem (delete "index.idx.tmp"%string (files locked_index_fs))
                (unwritable locked_index_fs)) [] []).
Proof.
  apply (createIndex_unwritable_index_is_silent insertion_sort locked_index_fs
           "data.txt" "index.idx" sample_data 4).
  - by vm_compute.
  - by vm_compute.
  - by vm_compute.
  - unfold locked_index_fs. cbn [unwritable]. rewrite not_elem_of_singleton. discriminate.
  - done.
  - unfold locked_index_fs. cbn [unwritable]. by apply elem_of_singleton.
Defined.

Lemma createIndexInMemorySort_unwritable_index_is_reported_sample :
  createIndexInMemorySort insertion_sort locked_index_fs "data.txt" "index.idx" 4 =
    Returns (Effects locked_index_fs [] ["Error opening index file for writing."%string]) /\
  createIndexInMemorySort_tellg insertion_sort locked_index_fs "data.txt" "index.idx" 4 =
    Returns (Effects locked_index_fs [] ["Error opening index file for writing."%string]).
Proof.
  apply (createIndexInMemorySort_unwritable_index_is_reported insertion_sort locked_index_fs
           "data.txt" "index.idx" sample_data 4).
  - by vm_compute.
  - by vm_compute.
  - by vm_compute.
  - unfold locked_index_fs. cbn [unwritable]. by apply elem_of_singleton.
Defined.

(* ================================================================== *)
(** * Edge cases of a build *)

Lemma indexes_from_no_long_record data keyLength es :
  indexes_from 0 data keyLength es ->
  (forall (off : nat) (r : list byte),
     is_record data off r -> Z.of_nat (length r) < keyLength) ->
  es = [].
Proof.
  intros [_ Hes] Hshort. destruct es as [|e es]; [done|].
  destruct (proj1 (Hes e)) as (off & r & _ & Hrec & Hlen & _); [apply elem_of_cons; by left|].
  specialize (Hshort off r Hrec). lia.
Qed.

Lemma is_record_length data off r :
  is_record data off r -> (length r <= length data)%nat.
Proof.
  intros (_ & Hoff & ->).
  assert (forall l, (length (first_line l) <= length l)%nat) as Hfl.
  { induction l as [|b l IH]; simpl; [lia|]. destruct (decide (b = newline)); simpl; lia. }
  etrans; [apply Hfl|]. rewrite length_drop. lia.
Qed.

(** X6: when no record of the data file is at least [keyLength] bytes long
    (an empty data file is one case), [createIndex] writes an empty index
    file; the listing then prints nothing and every search prints
    "Record not found". *)
Theorem build_without_long_record
    (std_sort : list IndexEntry -> list IndexEntry) (fs : filesystem)
    (dataFilename indexFilename : string) (data : list byte) (keyLength : Z) :
  std_sort_contract std_sort ->
  files fs !! dataFilename = Some data ->
  0 <= keyLength <= ALLOC_MAX ->
  9 * Z.of_nat (length data) <= STREAMOFF_MAX ->
  indexFilename ∉ unwritable fs ->
  (indexFilename +:+ ".tmp")%string ∉ unwritable fs ->
  dataFilename <> (indexFilename +:+ ".tmp")%string ->
  dataFilename <> indexFilename ->
  (forall (off : nat) (r : list byte),
     is_record data off r -> Z.of_nat (length r) < keyLength) ->
  exists e,
    createIndex std_sort fs dataFilename indexFilename keyLength = Returns e /\
    files (fs_after e) !! indexFilename = Some [] /\
    listRecords (fs_after e) dataFilename indexFilename keyLength =
      Returns (Effects (fs_after e) [] []) /\
    forall target,
      searchForKey (fs_after e) dataFilename indexFilename target keyLength =
        Returns (Effects (fs_after e) [bytes "Record not found"] []).
Proof.
  intros Hsort Hdata Hk Hsize Hidx Htmp Hnt Hni Hshort.
  destruct (createIndex_builds std_sort Hsort fs dataFilename indexFilename data keyLength
              Hdata Hk Hsize Hidx Htmp Hnt)
    as (e & es & Hrun & _ & _ & Hindex & Hdata' & Hes & Hsorted & Hwf & Hlen).
  specialize (Hdata' Hni).
  pose proof (indexes_from_no_long_record data keyLength es Hes Hshort) as ->.
  change (write_entries keyLength [] []) with (@nil byte) in *.
  exists e. split_and!; [done|done| |].
  - rewrite (listRecords_unfold _ _ _ _ _ _ Hindex Hdata').
    pose proof (listRecords_loop_built keyLength data [] Hk ltac:(lia) Hes) as Hloop.
    change (write_entries keyLength [] []) with (@nil byte) in Hloop.
    by rewrite Hloop.
  - intros target.
    destruct (searchForKey_lookup_built keyLength target [] Hk Hwf Hlen Hsorted)
      as (st & Hlookup & Hcases).
    change (write_entries keyLength [] []) with (@nil byte) in Hlookup.
    rewrite (searchForKey_unfold _ _ _ _ _ _ _ Hindex Hdata'), Hlookup.
    cbn [mbind outcome_bind].
    destruct Hcases as [[Hfound _]|(_ & entry & Hentry & _)].
    + by rewrite searchForKey_print_not_found.
    + by apply elem_of_nil in Hentry.
Qed.

(** X7: the index file that [createIndex] writes is determined by the bytes
    of the data file and by [keyLength]: the names of the files, the other
    files and what the index file held before play no part. *)
Theorem index_determined_by_data
    (std_sort : list IndexEntry -> list IndexEntry) (fs1 fs2 : filesystem)
    (dataFilename1 indexFilename1 dataFilename2 indexFilename2 : string)
    (data : list byte) (keyLength : Z) :
  files fs1 !! dataFilename1 = Some data ->
  files fs2 !! dataFilename2 = Some data ->
  0 <= keyLength <= ALLOC_MAX ->
  9 * Z.of_nat (length data) <= STREAMOFF_MAX ->
  indexFilename1 ∉ unwritable fs1 ->
  (indexFilename1 +:+ ".tmp")%string ∉ unwritable fs1 ->
  dataFilename1 <> (indexFilename1 +:+ ".tmp")%string ->
  indexFilename2 ∉ unwritable fs2 ->
  (indexFilename2 +:+ ".tmp")%string ∉ unwritable fs2 ->
  dataFilename2 <> (indexFilename2 +:+ ".tmp")%string ->
  exists e1 e2 index,
    createIndex std_sort fs1 dataFilename1 indexFilename1 keyLength = Returns e1 /\
    createIndex std_sort fs2 dataFilename2 indexFilename2 keyLength = Returns e2 /\
    files (fs_after e1) !! indexFilename1 = Some index /\
    files (fs_after e2) !! indexFilename2 = Some index.
Proof.
  intros Hdata1 Hdata2 Hk Hsize Hidx1 Htmp1 Hnt1 Hidx2 Htmp2 Hnt2.
  destruct (scan_data_file keyLength data) as (es0 & Hscan & Hes0 & _); [lia|].
  eexists _, _, (write_entries keyLength (std_sort es0) []). split_and!.
  - by apply (createIndex_run std_sort fs1 dataFilename1 indexFilename1 data keyLength es0).
  - by apply (createIndex_run std_sort fs2 dataFilename2 indexFilename2 data keyLength es0).
  - cbn [fs_after files].
    rewrite lookup_delete_ne by apply temp_not_index. by rewrite lookup_insert_eq.
  - cbn [fs_after files].
    rewrite lookup_delete_ne by apply temp_not_index. by rewrite lookup_insert_eq.
Qed.

(** X8: [createIndex] called with one name for the data file and the index
    file reads the data first and then overwrites it: the file ends up
    holding the index of what it held before. *)
Theorem build_onto_data_file_overwrites_it
    (std_sort : list IndexEntry -> list IndexEntry) (fs : filesystem)
    (filename : string) (data : list byte) (keyLength : Z) :
  std_sort_contract std_sort ->
  files fs !! filename = Some data ->
  0 <= keyLength <= ALLOC_MAX ->
  9 * Z.of_nat (length data) <= STREAMOFF_MAX ->
  filename ∉ unwritable fs ->
  (filename +:+ ".tmp")%string ∉ unwritable fs ->
  exists e index,
    createIndex std_sort fs filename filename keyLength = Returns e /\
    cerr e = [] /\
    files (fs_after e) !! filename = Some index /\
    indexes_from 0 data keyLength (index_entries keyLength index).
Proof.
  intros Hsort Hdata Hk Hsize Hidx Htmp.
  assert (filename <> (filename +:+ ".tmp")%string) as Hnt
    by (intros Heq; by apply (temp_not_index filename)).
  destruct (createIndex_builds std_sort Hsort fs filename filename data keyLength
              Hdata Hk Hsize Hidx Htmp Hnt)
    as (e & es & Hrun & _ & Herr & Hindex & _ & Hes & _ & Hwf & _).
  exists e, (write_entries keyLength es []). split_and!; [done|done|done|].
  by rewrite index_entries_write_entries by (done || lia).
Qed.

(** X9: [createIndex] called on a data file that has the name of its own
    temporary file, [indexFilename + ".tmp"], truncates it before the first
    line is read: the index file comes out empty and the data file is
    removed. *)
Theorem build_from_temporary_name_destroys_data
    (std_sort : list IndexEntry -> list IndexEntry) (fs : filesystem)
    (indexFilename : string) (data : list byte) (keyLength : Z) :
  std_sort_contract std_sort ->
  files fs !! (indexFilename +:+ ".tmp")%string = Some data ->
  0 <= keyLength <= ALLOC_MAX ->
  indexFilename ∉ unwritable fs ->
  (indexFilename +:+ ".tmp")%string ∉ unwritable fs ->
  exists e,
    createIndex std_sort fs (indexFilename +:+ ".tmp")%string indexFilename keyLength =
      Returns e /\
    cerr e = [] /\
    files (fs_after e) !! indexFilename = Some [] /\
    files (fs_after e) !! (indexFilename +:+ ".tmp")%string = None.
Proof.
  intros Hsort Hdata Hk Hidx Htmp.
  assert (std_sort [] = []) as Hnil
    by (destruct (Hsort []) as [Hperm _]; by apply Permutation_nil_r in Hperm).
  unfold createIndex, ifstream_open. rewrite Hdata.
  rewrite checkOrCreateIndexFile_id, ofstream_open_writable by done.
  cbn [files]. rewrite lookup_insert_eq. cbn [default from_option id length].
  cbn [createIndex_scan]. unfold getline, ifstream_of.
  cbn [good eofbit failbit negb andb content gpos gcount drop find_newline].
  rewrite bool_decide_eq_true_2 by done. cbn [mbind outcome_bind].
  unfold ofstream_close. cbn [files unwritable length].
  rewrite lookup_insert_eq.
  pose proof (createIndex_load_spec keyLength [] Hk ltac:(constructor) 1%nat [] [] 0) as Hload.
  change (write_entries keyLength [] []) with (@nil byte) in Hload. cbn [app length] in Hload.
  cbn [length]. unfold ifstream_of in Hload.
  rewrite Hload by lia. cbn [mbind outcome_bind app]. rewrite Hnil.
  rewrite ofstream_open_writable by done.
  eexists. split; [done|]. cbn [cerr fs_after files remove].
  split_and!; [done| |].
  - rewrite lookup_delete_ne by apply temp_not_index. by rewrite lookup_insert_eq.
  - by rewrite lookup_delete_eq.
Qed.

(** X10: a key length past [PTRDIFF_MAX] (what a negative [keylength]
    argument becomes) matches no line; [createIndex] then loads its empty
    temporary file and ends in the [std::length_error] of [resize], while
    the in-memory builder returns and writes an empty index file. *)
Theorem build_with_oversized_key_length
    (std_sort : list IndexEntry -> list IndexEntry) (fs : filesystem)
    (dataFilename indexFilename : string) (data : list byte) (keyLength : Z) :
  std_sort_contract std_sort ->
  files fs !! dataFilename = Some data ->
  ALLOC_MAX < keyLength ->
  Z.of_nat (length data) <= STREAMOFF_MAX ->
  indexFilename ∉ unwritable fs ->
  (indexFilename +:+ ".tmp")%string ∉ unwritable fs ->
  dataFilename <> (indexFilename +:+ ".tmp")%string ->
  createIndex std_sort fs dataFilename indexFilename keyLength = Anomaly length_error /\
  createIndexInMemorySort std_sort fs dataFilename indexFilename keyLength =
    Returns (Effects (Filesystem (<[indexFilename := []]> (files fs)) (unwritable fs)) [] []) /\
  createIndexInMemorySort_tellg std_sort fs dataFilename indexFilename keyLength =
    Returns (Effects (Filesystem (<[indexFilename := []]> (files fs)) (unwritable fs)) [] []).
Proof.
  intros Hsort Hdata Hk Hsize Hidx Htmp Hnt.
  assert (std_sort [] = []) as Hnil
    by (destruct (Hsort []) as [Hperm _]; by apply Permutation_nil_r in Hperm).
  unfold ALLOC_MAX, STREAMOFF_MAX in *.
  destruct (scan_data_file keyLength data) as (es & Hscan & Hes & _); [lia|].
  assert (es = []) as ->.
  { apply (indexes_from_no_long_record data keyLength); [done|].
    intros off r Hrec%is_record_length. lia. }
  split_and!.
  - unfold createIndex, ifstream_open. rewrite Hdata.
    rewrite checkOrCreateIndexFile_id, ofstream_open_writable by done.
    cbn [files]. rewrite lookup_insert_ne by done.
    rewrite Hdata. cbn [default from_option id].
    pose proof (createIndex_scan_tellg (S (length data)) keyLength (ifstream_of data) [] 0 [])
      as Hscan'.
    change (write_entries keyLength [] []) with (@nil byte) in Hscan'.
    rewrite Hscan', Hscan. cbn [fmap outcome_fmap mbind outcome_bind].
    unfold ofstream_close. cbn [files unwritable].
    rewrite lookup_insert_eq.
    change (write_entries keyLength [] []) with (@nil byte).
    cbn [length createIndex_load ifstream_of good eofbit failbit negb andb].
    unfold ALLOC_MAX. destruct (Z.ltb_spec (2 ^ 63 - 1) keyLength); [done|lia].
  - unfold createIndexInMemorySort, ifstream_open. rewrite Hdata.
    pose proof (scan_length_tellg (S (length data)) keyLength data 0 [] [] 0) as Hsame.
    change (Z.of_nat 0) with 0 in Hsame. unfold ifstream_of in *.
    rewrite Hsame by (unfold STREAMOFF_MAX; lia). rewrite Hscan.
    cbn [mbind outcome_bind]. rewrite Hnil.
    rewrite ofstream_open_writable by done. unfold ofstream_close. cbn [files unwritable].
    by rewrite insert_insert_eq.
  - unfold createIndexInMemorySort_tellg, ifstream_open. rewrite Hdata, Hscan.
    cbn [mbind outcome_bind]. rewrite Hnil.
    rewrite ofstream_open_writable by done. unfold ofstream_close. cbn [files unwritable].
    by rewrite insert_insert_eq.
Qed.

Lemma build_without_long_record_sample :
  exists e,
    createIndex insertion_sort sample_fs "data.txt" "index.idx" 7 = Returns e /\
    files (fs_after e) !! "index.idx"%string = Some [] /\
    listRecords (fs_after e) "data.txt" "index.idx" 7 =
      Returns (Effects (fs_after e) [] []) /\
    forall target,
      searchForKey (fs_after e) "data.txt" "index.idx" target 7 =
        Returns (Effects (fs_after e) [bytes "Record not found"] []).
Proof.
  apply (build_without_long_record insertion_sort sample_fs "data.txt" "index.idx"
           sample_data 7).
  - apply insertion_sort_contract.
  - by vm_compute.
  - by vm_compute.
  - by vm_compute.
  - apply not_elem_of_empty.
  - apply not_elem_of_empty.
  - done.
  - done.
  - intros off r (_ & Hoff & ->).
    do 24 (destruct off as [|off]; [by vm_compute|]).
    change (length sample_data) with 24%nat in Hoff. lia.
Defined.

Lemma index_determined_by_data_sample :
  exists e1 e2 index,
    createIndex insertion_sort sample_fs "data.txt" "index.idx" 4 = Returns e1 /\
    createIndex insertion_sort sample_indexed_fs "data.txt" "index.idx" 4 = Returns e2 /\
    files (fs_after e1) !! "index.idx"%string = Some index /\
    files (fs_after e2) !! "index.idx"%string = Some index.
Proof.
  apply (index_determined_by_data insertion_sort sample_fs sample_indexed_fs
           "data.txt" "index.idx" "data.txt" "index.idx" sample_data 4).
  - by vm_compute.
  - by vm_compute.
  - by vm_compute.
  - by vm_compute.
  - apply not_elem_of_empty.
  - apply not_elem_of_empty.
  - done.
  - apply not_elem_of_empty.
  - apply not_elem_of_empty.
  - done.
Defined.

Lemma build_onto_data_file_overwrites_it_sample :
  exists e index,
    createIndex insertion_sort sample_fs "data.txt" "data.txt" 4 = Returns e /\
    cerr e = [] /\
    files (fs_after e) !! "data.txt"%string = Some index /\
    indexes_from 0 sample_data 4 (index_entries 4 index).
Proof.
  apply (build_onto_data_file_overwrites_it insertion_sort sample_fs "data.txt" sample_data 4).
  - apply insertion_sort_contract.
  - by vm_compute.
  - by vm_compute.
  - by vm_compute.
  - apply not_elem_of_empty.
  - apply not_elem_of_empty.
Defined.

Lemma build_from_temporary_name_destroys_data_sample :
  exists e,
    createIndex insertion_sort temporary_name_fs "index.idx.tmp" "index.idx" 4 = Returns e /\
    cerr e = [] /\
    files (fs_after e) !! "index.idx"%string = Some [] /\
    files (fs_after e) !! "index.idx.tmp"%string = None.
Proof.
  apply (build_from_temporary_name_destroys_data insertion_sort temporary_name_fs
           "index.idx" sample_data 4).
  - apply insertion_sort_contract.
  - by vm_compute.
  - by vm_compute.
  - apply not_elem_of_empty.
  - apply not_elem_of_empty.
Defined.

Lemma build_with_oversized_key_length_sample :
  createIndex insertion_sort sample_fs "data.txt" "index.idx" (wrap64 (-4)) =
    Anomaly length_error /\
  createIndexInMemorySort insertion_sort sample_fs "data.txt" "index.idx" (wrap64 (-4)) =
    Returns (Effects (Filesystem (<["index.idx"%string := []]> (files sample_fs))
                                 (unwritable sample_fs)) [] []) /\
  createIndexInMemorySort_tellg insertion_sort sample_fs "data.txt" "index.idx" (wrap64 (-4)) =
    Returns (Effects (Filesystem (<["index.idx"%string := []]> (files sample_fs))
                                 (unwritable sample_fs)) [] []).
Proof.
  apply (build_with_oversized_key_length insertion_sort sample_fs "data.txt" "index.idx"
           sample_data (wrap64 (-4))).
  - apply insertion_sort_contract.
  - by vm_compute.
  - by vm_compute.
  - by vm_compute.
  - apply not_elem_of_empty.
  - apply not_elem_of_empty.
  - done.
Defined.

(* ================================================================== *)
(** * The listing, on any index file *)

(** One entry of a listing: the seek and the read on the data stream. *)
Lemma getline_seekg_cases dataFile data off :
  content dataFile = data ->
  exists dataFile',
    getline (seekg dataFile off) [] =
      (dataFile',
       if failbit dataFile || unreadable_at data off then []
       else first_line (drop (Z.to_nat off) data)) /\
    content dataFile' = data /\
    failbit dataFile' = failbit dataFile || unreadable_at data off.
Proof.
  intros Hcontent. unfold seekg, unreadable_at.
  destruct (failbit dataFile) eqn:Hfail; cbn [orb].
  { unfold getline. cbn [good eofbit failbit negb andb set_fail content]. by eexists. }
  destruct (Z.ltb_spec off 0) as [Hneg|Hpos]; cbn [orb].
  { unfold getline. cbn [good eofbit failbit negb andb set_fail content]. by eexists. }
  unfold getline. cbn [good eofbit failbit negb andb content gpos gcount]. rewrite Hcontent.
  destruct (find_newline (drop (Z.to_nat off) data)) as [i|] eqn:Efind.
  - apply find_newline_Some in Efind as (_ & -> & Hi). rewrite length_drop in Hi.
    destruct (Z.leb_spec (Z.of_nat (length data)) off); [lia|]. by eexists.
  - apply find_newline_None in Efind.
    destruct (Z.leb_spec (Z.of_nat (length data)) off) as [Hend|Hin].
    + rewrite drop_ge by lia. eexists. split_and!; [done|done|]. cbn [failbit].
      by apply bool_decide_eq_true_2.
    + rewrite Efind. eexists. split_and!; [done|done|]. cbn [failbit].
      apply bool_decide_eq_false_2. intros Hnil.
      apply (f_equal length) in Hnil. rewrite length_drop in Hnil. simpl in Hnil. lia.
Qed.

Lemma entry_count_next keyLength index :
  0 <= keyLength ->
  Z.of_nat (length index) < (Z.of_nat (entry_count keyLength index) + 1) * (keyLength + 8).
Proof.
  intros Hk. unfold entry_count. rewrite Z2Nat.id by (apply Z.div_pos; lia).
  pose proof (Z.mul_succ_div_gt (Z.of_nat (length index)) (keyLength + 8)). lia.
Qed.

(** The loop of [listRecords] from the [i]-th entry of any index file on. *)
Lemma listRecords_loop_listed keyLength data index :
  0 <= keyLength <= ALLOC_MAX ->
  forall fuel (i : nat) dataFile cout gc,
    content dataFile = data ->
    (i <= entry_count keyLength index)%nat ->
    (entry_count keyLength index - i < fuel)%nat ->
    listRecords_loop fuel keyLength
      (Ifstream index (i * Z.to_nat (keyLength + 8)) false false gc) dataFile cout =
    Returns (cout ++ listed_lines data (failbit dataFile)
                       (map (entry_at keyLength index)
                            (seq i (entry_count keyLength index - i)))).
Proof.
  intros Hk.
  pose proof (entry_count_bound keyLength index ltac:(lia)) as Hbound.
  pose proof (entry_count_next keyLength index ltac:(lia)) as Hnext.
  induction fuel as [|fuel IH]; intros i dataFile cout gc Hcontent Hi Hfuel; [lia|].
  cbn [listRecords_loop good eofbit failbit negb andb].
  destruct (Z.ltb_spec ALLOC_MAX keyLength); [lia|].
  set (s0 := Ifstream index _ false false gc).
  destruct (decide (i = entry_count keyLength index)) as [->|Hne].
  - (* what is left of the file is no whole entry *)
    rewrite Nat.sub_diag. cbn [seq map listed_lines]. rewrite app_nil_r.
    destruct (read_cases s0 keyLength) as [[-> Hin]|(got & -> & Hshort)]; [done|lia| |].
    + cbn [gcount].
      destruct (Z.ltb_spec (Z.of_nat (Z.to_nat keyLength)) keyLength); [lia|].
      set (s1 := Ifstream _ _ _ _ _).
      destruct (read_cases s1 8) as [[-> Hin8]|(got & -> & _)]; [done|lia| |].
      * subst s1 s0. cbn [content gpos] in Hin8. specialize (Hin8 ltac:(lia)). nia.
      * done.
    + cbn [gcount]. by destruct (Z.ltb_spec (Z.of_nat (length got)) keyLength); [|lia].
  - (* a whole entry *)
    assert (Z.of_nat (S i) * (keyLength + 8) <= Z.of_nat (length index)) as Hin by nia.
    replace (entry_count keyLength index - i)%nat
      with (S (entry_count keyLength index - S i)) by lia.
    cbn [seq map listed_lines].
    subst s0. rewrite read_within; cbn [good eofbit failbit negb andb content gpos];
      [|done|lia|nia].
    cbn [gcount]. destruct (Z.ltb_spec (Z.of_nat (Z.to_nat keyLength)) keyLength); [lia|].
    rewrite read_within; cbn [good eofbit failbit negb andb content gpos]; [|done|lia|nia].
    destruct (getline_seekg_cases dataFile data
                (streamoff_of_bytes
                   (take (Z.to_nat 8)
                      (drop (i * Z.to_nat (keyLength + 8) + Z.to_nat keyLength) index))))
      as (dataFile' & Hget & Hcontent' & Hfail'); [done|].
    rewrite Hget.
    replace (i * Z.to_nat (keyLength + 8) + Z.to_nat keyLength + Z.to_nat 8)%nat
      with (S i * Z.to_nat (keyLength + 8))%nat by lia.
    rewrite IH by (done || lia). rewrite Hfail'.
    assert (offset (entry_at keyLength index i) =
            streamoff_of_bytes
              (take (Z.to_nat 8)
                 (drop (i * Z.to_nat (keyLength + 8) + Z.to_nat keyLength) index))) as <-.
    { unfold entry_at. cbn [offset]. by rewrite drop_drop. }
    by rewrite <- app_assoc.
Qed.

Lemma listRecords_listed fs dataFilename indexFilename keyLength index data :
  files fs !! indexFilename = Some index -> files fs !! dataFilename = Some data ->
  0 <= keyLength <= ALLOC_MAX ->
  listRecords fs dataFilename indexFilename keyLength =
  Returns (Effects fs (listed_lines data false (index_entries keyLength index)) []).
Proof.
  intros Hindex Hdata Hk.
  rewrite (listRecords_unfold _ _ _ _ _ _ Hindex Hdata).
  pose proof (entry_count_bound keyLength index ltac:(lia)) as Hbound.
  pose proof (listRecords_loop_listed keyLength data index Hk (S (length index)) 0
                (ifstream_of data) [] 0 eq_refl ltac:(lia) ltac:(nia)) as Hloop.
  rewrite Nat.sub_0_r in Hloop. unfold ifstream_of in *. cbn [Nat.mul failbit app] in Hloop.
  by rewrite Hloop.
Qed.

Lemma length_listed_lines data failed es :
  length (listed_lines data failed es) = length es.
Proof. revert failed. induction es as [|e es IH]; intros failed; simpl; [done|]. by rewrite IH. Qed.

Lemma listed_lines_failed data es (j : nat) :
  (j < length es)%nat -> listed_lines data true es !! j = Some [].
Proof.
  revert j. induction es as [|e es IH]; intros j Hj; simpl in *; [lia|].
  destruct j as [|j]; [done|]. apply IH. lia.
Qed.

Lemma listed_lines_readable data es (i : nat) e :
  es !! i = Some e ->
  (forall (j : nat) e', (j <= i)%nat -> es !! j = Some e' ->
     0 <= offset e' < Z.of_nat (length data)) ->
  listed_lines data false es !! i = Some (first_line (drop (Z.to_nat (offset e)) data)).
Proof.
  revert i. induction es as [|e0 es IH]; intros i Hi Hok; [done|].
  assert (unreadable_at data (offset e0) = false) as Hread.
  { specialize (Hok 0%nat e0 ltac:(lia) eq_refl). unfold unreadable_at.
    destruct (Z.ltb_spec (offset e0) 0); [lia|].
    by destruct (Z.leb_spec (Z.of_nat (length data)) (offset e0)); [lia|]. }
  cbn [listed_lines orb]. rewrite Hread.
  destruct i as [|i]; [by injection Hi as ->|].
  apply IH; [done|]. intros j e' Hj He'. apply (Hok (S j)); [lia|done].
Qed.

Lemma listed_lines_unreadable data failed es (i j : nat) e :
  es !! i = Some e -> unreadable_at data (offset e) = true ->
  (i <= j < length es)%nat ->
  listed_lines data failed es !! j = Some [].
Proof.
  revert failed i j. induction es as [|e0 es IH]; intros failed i j Hi Hbad Hj; [done|].
  cbn [listed_lines]. destruct i as [|i].
  - injection Hi as ->. rewrite Hbad, orb_true_r.
    destruct j as [|j]; [done|]. apply listed_lines_failed. simpl in Hj. lia.
  - destruct j as [|j]; [lia|]. apply (IH _ i); [done|done|]. simpl in Hj. lia.
Qed.

(** X11: on any index file, [listRecords] prints one line for each whole
    entry, in the order of the file, and nothing for what is left over at
    the end; it writes no diagnostic and changes no file.  As long as no
    offset read so far points outside the data file, the line of an entry is
    what the data file holds from its offset up to the next newline. *)
Theorem listRecords_line_per_entry (fs : filesystem) (dataFilename indexFilename : string)
    (index data : list byte) (keyLength : Z) :
  files fs !! indexFilename = Some index ->
  files fs !! dataFilename = Some data ->
  0 <= keyLength <= ALLOC_MAX ->
  exists lines,
    listRecords fs dataFilename indexFilename keyLength = Returns (Effects fs lines []) /\
    length lines = entry_count keyLength index /\
    forall (i : nat) entry,
      index_entries keyLength index !! i = Some entry ->
      (forall (j : nat) entry', (j <= i)%nat ->
         index_entries keyLength index !! j = Some entry' ->
         0 <= offset entry' < Z.of_nat (length data)) ->
      lines !! i = Some (first_line (drop (Z.to_nat (offset entry)) data)).
Proof.
  intros Hindex Hdata Hk. eexists. split; [by apply listRecords_listed|]. split.
  - rewrite length_listed_lines. unfold index_entries. by rewrite length_map, length_seq.
  - intros i entry Hentry Hok. by apply listed_lines_readable.
Qed.

(** X12: the data stream of [listRecords] is never cleared.  Once an entry
    carries an offset that is negative, or at or behind the end of the data
    file, its line and the line of every later entry are empty, whatever
    their offsets. *)
Theorem listRecords_bad_offset_blanks_rest (fs : filesystem)
    (dataFilename indexFilename : string) (index data : list byte) (keyLength : Z)
    (i : nat) (entry : IndexEntry) :
  files fs !! indexFilename = Some index ->
  files fs !! dataFilename = Some data ->
  0 <= keyLength <= ALLOC_MAX ->
  index_entries keyLength index !! i = Some entry ->
  ~ (0 <= offset entry < Z.of_nat (length data)) ->
  exists lines,
    listRecords fs dataFilename indexFilename keyLength = Returns (Effects fs lines []) /\
    forall j : nat, (i <= j < entry_count keyLength index)%nat -> lines !! j = Some [].
Proof.
  intros Hindex Hdata Hk Hentry Hbad. eexists. split; [by apply listRecords_listed|].
  intros j Hj. apply (listed_lines_unreadable _ _ _ i j entry); [done| |].
  - unfold unreadable_at. destruct (Z.ltb_spec (offset entry) 0); [done|].
    by destruct (Z.leb_spec (Z.of_nat (length data)) (offset entry)); [|lia].
  - unfold index_entries. by rewrite length_map, length_seq.
Qed.

(** X13: after a build, the listing prints the records of at least
    [keyLength] bytes, one line for each place where such a record starts
    (equal records are printed once each), in non-decreasing order of their
    keys. *)
Theorem listing_after_build
    (std_sort : list IndexEntry -> list IndexEntry) (fs : filesystem)
    (dataFilename indexFilename : string) (data : list byte) (keyLength : Z) :
  std_sort_contract std_sort ->
  files fs !! dataFilename = Some data ->
  0 <= keyLength <= ALLOC_MAX ->
  9 * Z.of_nat (length data) <= STREAMOFF_MAX ->
  indexFilename ∉ unwritable fs ->
  (indexFilename +:+ ".tmp")%string ∉ unwritable fs ->
  dataFilename <> (indexFilename +:+ ".tmp")%string ->
  dataFilename <> indexFilename ->
  exists e (offs : list nat),
    createIndex std_sort fs dataFilename indexFilename keyLength = Returns e /\
    NoDup offs /\
    (forall off : nat, off ∈ offs <->
       exists r, is_record data off r /\ keyLength <= Z.of_nat (length r)) /\
    listRecords (fs_after e) dataFilename indexFilename keyLength =
      Returns (Effects (fs_after e) (map (fun off => first_line (drop off data)) offs) []) /\
    keys_nondecreasing
      (map (fun off => substr (first_line (drop off data)) 0 keyLength) offs).
Proof.
  intros Hsort Hdata Hk Hsize Hidx Htmp Hnt Hni.
  destruct (createIndex_builds std_sort Hsort fs dataFilename indexFilename data keyLength
              Hdata Hk Hsize Hidx Htmp Hnt)
    as (e & es & Hrun & _ & _ & Hindex & Hdata' & Hes & Hsorted & Hwf & Hlen).
  specialize (Hdata' Hni).
  assert (forall entry, entry ∈ es ->
            exists (off : nat) r, is_record data off r /\ keyLength <= Z.of_nat (length r) /\
              entry = entry_of keyLength off r) as Hrecs.
  { intros entry Hentry. destruct Hes as [_ Hes].
    apply Hes in Hentry as (off & r & _ & Hrec & Hlong & ->). by exists off, r. }
  exists e, (map (fun entry => Z.to_nat (offset entry)) es). split_and!; [done| | | |].
  - destruct Hes as [Hnodup _].
    apply (NoDup_fmap_2_strong (fun entry => Z.to_nat (offset entry)));
      [|by apply (NoDup_fmap_1 offset)].
    intros x y Hx Hy Heq.
    destruct (Hrecs x Hx) as (ox & rx & Hrx & _ & ->).
    destruct (Hrecs y Hy) as (oy & ry & Hry & _ & ->).
    cbn [entry_of offset] in Heq. assert (ox = oy) as -> by lia.
    by rewrite (is_record_unique _ _ _ _ Hrx Hry).
  - intros off. destruct Hes as [_ Hes]. split.
    + intros (entry & -> & Hentry)%list_elem_of_fmap.
      destruct (Hrecs entry Hentry) as (off & r & Hrec & Hlong & ->).
      cbn [entry_of offset]. rewrite Nat2Z.id. by exists r.
    + intros (r & Hrec & Hlong). apply list_elem_of_fmap.
      exists (entry_of keyLength off r). split; [cbn [entry_of offset]; lia|].
      apply Hes. exists off, r. split_and!; [lia|done|done|done].
  - rewrite (listRecords_unfold _ _ _ _ _ _ Hindex Hdata').
    rewrite listRecords_loop_built by (done || lia). cbn [mbind outcome_bind].
    do 2 f_equal. rewrite map_map. apply map_ext_in. intros entry Hentry%list_elem_of_In.
    destruct (Hrecs entry Hentry) as (off & r & Hrec & _ & ->).
    cbn [entry_of offset]. rewrite Nat2Z.id. apply read_line_at_offset.
  - rewrite map_map.
    replace (map (fun entry => substr (first_line (drop (Z.to_nat (offset entry)) data)) 0
                                 keyLength) es) with (key <$> es).
    { by apply sorted_by_keys_nondecreasing. }
    apply map_ext_in. intros entry Hentry%list_elem_of_In.
    destruct (Hrecs entry Hentry) as (off & r & (_ & _ & ->) & _ & ->).
    cbn [entry_of offset key]. by rewrite Nat2Z.id.
Qed.

Lemma listRecords_line_per_entry_sample :
  exists lines,
    listRecords sample_indexed_fs "data.txt" "index.idx" 4 =
      Returns (Effects sample_indexed_fs lines []) /\
    length lines = entry_count 4 sample_index /\
    forall (i : nat) entry,
      index_entries 4 sample_index !! i = Some entry ->
      (forall (j : nat) entry', (j <= i)%nat ->
         index_entries 4 sample_index !! j = Some entry' ->
         0 <= offset entry' < Z.of_nat (length sample_data)) ->
      lines !! i = Some (first_line (drop (Z.to_nat (offset entry)) sample_data)).
Proof.
  apply (listRecords_line_per_entry sample_indexed_fs "data.txt" "index.idx"
           sample_index sample_data 4).
  - by vm_compute.
  - by vm_compute.
  - by vm_compute.
Defined.

Lemma listRecords_bad_offset_blanks_rest_sample :
  exists lines,
    listRecords stale_index_fs "data.txt" "index.idx" 4 =
      Returns (Effects stale_index_fs lines []) /\
    forall j : nat, (1 <= j < entry_count 4 sample_index)%nat -> lines !! j = Some [].
Proof.
  apply (listRecords_bad_offset_blanks_rest stale_index_fs "data.txt" "index.idx"
           sample_index (text ["AAAA-1"; "CCCC-3"]%string) 4 1
           (mkIndexEntry (bytes "BBBB") 14)).
  - by vm_compute.
  - by vm_compute.
  - by vm_compute.
  - by vm_compute.
  - intros [_ Hlt]. vm_compute in Hlt. discriminate Hlt.
Defined.

Lemma listing_after_build_sample :
  exists e (offs : list nat),
    createIndex insertion_sort sample_fs "data.txt" "index.idx" 4 = Returns e /\
    NoDup offs /\
    (forall off : nat, off ∈ offs <->
       exists r, is_record sample_data off r /\ 4 <= Z.of_nat (length r)) /\
    listRecords (fs_after e) "data.txt" "index.idx" 4 =
      Returns (Effects (fs_after e)
                 (map (fun off => first_line (drop off sample_data)) offs) []) /\
    keys_nondecreasing
      (map (fun off => substr (first_line (drop off sample_data)) 0 4) offs).
Proof.
  apply (listing_after_build insertion_sort sample_fs "data.txt" "index.idx" sample_data 4).
  - apply insertion_sort_contract.
  - by vm_compute.
  - by vm_compute.
  - by vm_compute.
  - apply not_elem_of_empty.
  - apply not_elem_of_empty.
  - done.
  - done.
Defined.

(* ================================================================== *)
(** * The search, on any index file *)

(** After [n] iterations that did not end in [break], the range is at most
    the [2 ^ n]-th part of what it was. *)
Lemma search_range_halves keyLength target index :
  0 <= keyLength <= ALLOC_MAX -> Z.of_nat (length index) <= STREAMOFF_MAX ->
  forall (n : nat) a b,
    nsteps (search_iteration keyLength target) n a b ->
    content (fst a) = index -> failbit (fst a) = false ->
    0 <= low (snd a) -> high (snd a) <= Z.of_nat (entry_count keyLength index) ->
    found (snd b) = false ->
    2 ^ Z.of_nat n * (high (snd b) - low (snd b)) <= high (snd a) - low (snd a).
Proof.
  intros Hk Hsize n a b Hsteps.
  induction Hsteps as [a|n a b c Hstep Hsteps IH]; intros Hcontent Hfail Hlow Hhigh Hfound.
  { change (2 ^ Z.of_nat 0) with 1. lia. }
  destruct Hstep as (Hlt & Hfa & Hprobe).
  destruct (searchForKey_probe_spec keyLength target index Hk Hsize (fst a) (snd a))
    as (s1 & Hprobe' & Hcontent1 & Hfail1);
    [exact Hcontent|exact Hfail|exact Hlow|exact Hlt|exact Hhigh|].
  rewrite Hprobe' in Hprobe. injection Hprobe as Heq. subst b. cbn [fst snd] in *.
  pose proof (mid_between (snd a) Hlt) as Hmid.
  assert (found (probe_state keyLength target index (snd a)) = false) as Hfb.
  { inversion Hsteps as [|? ? ? ? (_ & Hf & _) _]; subst; done. }
  assert (0 <= (high (snd a) - low (snd a)) / 2) as Hdiv by (apply Z.div_pos; lia).
  pose proof (Z.mul_div_le (high (snd a) - low (snd a)) 2 ltac:(lia)) as Hle.
  pose proof (Z.mul_succ_div_gt (high (snd a) - low (snd a)) 2 ltac:(lia)) as Hgt.
  rewrite Nat2Z.inj_succ, Z.pow_succ_r by lia.
  assert (0 <= 2 ^ Z.of_nat n) as Hpow by (apply Z.pow_nonneg; lia).
  destruct (probe_state_cases keyLength target index (snd a)) as [[_ Hst]|[[_ Hst]|[_ Hst]]];
    rewrite Hst in *; cbn [low high found] in *; [| |done].
  - specialize (IH Hcontent1 Hfail1 ltac:(lia) ltac:(lia) Hfound). nia.
  - specialize (IH Hcontent1 Hfail1 ltac:(lia) ltac:(lia) Hfound). nia.
Qed.

(** X14: the lookup of [searchForKey] is logarithmic.  On any index file it
    returns after some number [n] of probes, and unless it made none,
    [2 ^ (n - 1)] is at most the number of entries of the file. *)
Theorem search_probes_logarithmic (keyLength : Z) (target index : list byte) :
  0 <= keyLength <= ALLOC_MAX ->
  Z.of_nat (length index) <= STREAMOFF_MAX ->
  exists start (n : nat) indexFile st,
    searchForKey_init keyLength index = Returns start /\
    searchForKey_lookup keyLength target index = Returns st /\
    nsteps (search_iteration keyLength target) n start (indexFile, st) /\
    (n = 0%nat \/ 2 ^ (Z.of_nat n - 1) <= Z.of_nat (entry_count keyLength index)).
Proof.
  intros Hk Hsize.
  destruct (searchForKey_lookup_returns keyLength target index Hk Hsize)
    as (s & st & Hrun & Hreach & _).
  apply rtc_nsteps_1 in Hreach as [n Hsteps].
  eexists _, n, s, st. split_and!; [by apply searchForKey_init_spec|done|done|].
  destruct n as [|n]; [by left|right].
  apply nsteps_inv_r in Hsteps as ([s' st'] & Hsteps & (Hlt & Hfound & _)).
  cbn [fst snd] in *.
  pose proof (search_range_halves keyLength target index Hk Hsize n _ _ Hsteps
                eq_refl eq_refl ltac:(done) ltac:(cbn [snd high]; lia) Hfound) as Hhalf.
  cbn [fst snd low high] in Hhalf.
  replace (Z.of_nat (S n) - 1) with (Z.of_nat n) by lia.
  assert (0 <= 2 ^ Z.of_nat n) as Hpow by (apply Z.pow_nonneg; lia). nia.
Qed.

(** X15: [searchForKey] needs no sorted index file to be sound.  On any
    index file it prints exactly one line and no diagnostic, and changes no
    file; the line is "Record not found", or what the data file holds at the
    offset of an entry that carries the search key; and when no entry
    carries the key, it is "Record not found". *)
Theorem search_on_any_index (fs : filesystem) (dataFilename indexFilename : string)
    (data index target : list byte) (keyLength : Z) :
  files fs !! indexFilename = Some index ->
  files fs !! dataFilename = Some data ->
  0 <= keyLength <= ALLOC_MAX ->
  Z.of_nat (length index) <= STREAMOFF_MAX ->
  exists line,
    searchForKey fs dataFilename indexFilename target keyLength =
      Returns (Effects fs [line] []) /\
    (line = bytes "Record not found" \/
     exists entry,
       entry ∈ index_entries keyLength index /\ key entry = target /\
       line = read_line_at data (offset entry)) /\
    ((forall entry, entry ∈ index_entries keyLength index -> key entry <> target) ->
     line = bytes "Record not found").
Proof.
  intros Hindex Hdata Hk Hsize.
  destruct (searchForKey_lookup_returns keyLength target index Hk Hsize)
    as (s & st & Hrun & _ & Hfin).
  exists (searchForKey_print data st). split_and!.
  - by rewrite (searchForKey_unfold _ _ _ _ _ _ _ Hindex Hdata), Hrun.
  - destruct Hfin as [[Hfound _]|(Hfound & i & Hi & _ & Hkey & Hoff)].
    + left. by apply searchForKey_print_not_found.
    + right. exists (entry_at keyLength index i). split_and!; [|done|].
      * eapply list_elem_of_lookup_2. by apply index_entries_lookup.
      * by rewrite searchForKey_print_found, Hoff.
  - intros Habsent. destruct Hfin as [[Hfound _]|(_ & i & Hi & _ & Hkey & _)].
    + by apply searchForKey_print_not_found.
    + destruct (Habsent (entry_at keyLength index i)); [|done].
      eapply list_elem_of_lookup_2. by apply index_entries_lookup.
Qed.

Lemma search_probes_logarithmic_sample :
  exists start (n : nat) indexFile st,
    searchForKey_init 4 sample_index = Returns start /\
    searchForKey_lookup 4 (bytes "CCCC") sample_index = Returns st /\
    nsteps (search_iteration 4 (bytes "CCCC")) n start (indexFile, st) /\
    (n = 0%nat \/ 2 ^ (Z.of_nat n - 1) <= Z.of_nat (entry_count 4 sample_index)).
Proof.
  apply (search_probes_logarithmic 4 (bytes "CCCC") sample_index).
  - by vm_compute.
  - by vm_compute.
Defined.

Lemma search_on_any_index_sample :
  exists line,
    searchForKey stale_index_fs "data.txt" "index.idx" (bytes "CCCC") 4 =
      Returns (Effects stale_index_fs [line] []) /\
    (line = bytes "Record not found" \/
     exists entry,
       entry ∈ index_entries 4 sample_index /\ key entry = bytes "CCCC" /\
       line = read_line_at (text ["AAAA-1"; "CCCC-3"]%string) (offset entry)) /\
    ((forall entry, entry ∈ index_entries 4 sample_index -> key entry <> bytes "CCCC") ->
     line = bytes "Record not found").
Proof.
  apply (search_on_any_index stale_index_fs "data.txt" "index.idx"
           (text ["AAAA-1"; "CCCC-3"]%string) sample_index (bytes "CCCC") 4).
  - by vm_compute.
  - by vm_compute.
  - by vm_compute.
  - by vm_compute.
Defined.

(* ================================================================== *)
(** * Further properties of [main] *)

Lemma listRecords_fs fs dataFilename indexFilename keyLength e :
  listRecords fs dataFilename indexFilename keyLength = Returns e -> fs_after e = fs.
Proof.
  unfold listRecords. destruct (ifstream_open fs indexFilename); [|by intros [= <-]].
  destruct (ifstream_open fs dataFilename); [|by intros [= <-]].
  destruct (listRecords_loop _ _ _ _ _); [|done..]. by intros [= <-].
Qed.

Lemma searchForKey_fs fs dataFilename indexFilename target keyLength e :
  searchForKey fs dataFilename indexFilename target keyLength = Returns e -> fs_after e = fs.
Proof.
  unfold searchForKey. destruct (ifstream_open fs indexFilename); [|by intros [= <-]].
  destruct (ifstream_open fs dataFilename); [|by intros [= <-]].
  destruct (searchForKey_lookup _ _ _); [|done..]. by intros [= <-].
Qed.

(** X16: only the build mode writes.  A run of [main] in any other mode, or
    on a malformed command line, leaves every file as it was; in particular
    [checkOrCreateIndexFile] creates no index file. *)
Theorem main_writes_only_in_build_mode
    (std_sort : list IndexEntry -> list IndexEntry) (atoi : string -> Z)
    (argv : list string) (fs : filesystem) (status : Z) (e : effects) :
  main std_sort atoi argv fs = Returns (status, e) ->
  argument argv 1 <> "-c"%string ->
  fs_after e = fs.
Proof.
  intros Hrun Hmode. unfold main in Hrun. cbv zeta in Hrun.
  destruct (Z.of_nat (length argv) <? 5); [by injection Hrun as _ <-|].
  rewrite checkOrCreateIndexFile_id in Hrun.
  destruct (decide (argument argv 1 = "-c"%string)); [done|].
  destruct (decide (argument argv 1 = "-l"%string)).
  { destruct (listRecords _ _ _ _) as [e'| |] eqn:He; [|done..].
    injection Hrun as _ <-. by apply listRecords_fs in He. }
  destruct (decide (argument argv 1 = "-s"%string)); [|by injection Hrun as _ <-].
  destruct (decide (Z.of_nat (length argv) = 6)); [|by injection Hrun as _ <-].
  destruct (searchForKey _ _ _ _ _) as [e'| |] eqn:He; [|done..].
  injection Hrun as _ <-. by apply searchForKey_fs in He.
Qed.

(** X17: the two translation units give the same program, up to the
    temporary file.  Outside the build mode their [main] functions are the
    same function; in the build mode, when the index file and the temporary
    file can be written, both runs end with the same exit status, the same
    output and the same files, the temporary file apart: [createIndex]
    removes a file of that name, [createIndexInMemorySort] never touches
    it. *)
Theorem main_variants_agree
    (std_sort : list IndexEntry -> list IndexEntry) (atoi : string -> Z)
    (argv : list string) (fs : filesystem) :
  0 <= atoi (argument argv 4) <= ALLOC_MAX ->
  file_sizes_fit fs ->
  argument argv 3 ∉ unwritable fs ->
  (argument argv 3 +:+ ".tmp")%string ∉ unwritable fs ->
  argument argv 2 <> (argument argv 3 +:+ ".tmp")%string ->
  (argument argv 1 <> "-c"%string ->
   InMemory.main std_sort atoi argv fs = main std_sort atoi argv fs) /\
  exists status e1 e2,
    main std_sort atoi argv fs = Returns (status, e1) /\
    InMemory.main std_sort atoi argv fs = Returns (status, e2) /\
    cout e1 = cout e2 /\ cerr e1 = cerr e2 /\
    unwritable (fs_after e1) = unwritable (fs_after e2) /\
    forall name, name <> (argument argv 3 +:+ ".tmp")%string ->
      files (fs_after e1) !! name = files (fs_after e2) !! name.
Proof.
  intros Hatoi Hsizes Hidx Htmp Hnt.
  assert (argument argv 1 <> "-c"%string ->
          InMemory.main std_sort atoi argv fs = main std_sort atoi argv fs) as Hsame.
  { intros Hmode. unfold InMemory.main, main. cbv zeta.
    destruct (Z.of_nat (length argv) <? 5); [done|].
    by destruct (decide (argument argv 1 = "-c"%string)). }
  split; [done|].
  assert (0 <= wrap64 (atoi (argument argv 4)) <= ALLOC_MAX) as Hk.
  { rewrite wrap64_small; [done|]. unfold ALLOC_MAX, SIZE_WIDTH in *. lia. }
  destruct (decide (argument argv 1 = "-c"%string)) as [Hc|Hc].
  - unfold InMemory.main, main. cbv zeta.
    destruct (Z.of_nat (length argv) <? 5); [by eexists _, _, _|].
    rewrite checkOrCreateIndexFile_id. rewrite !decide_True by done.
    destruct (files fs !! argument argv 2) as [data|] eqn:Hdata.
    + pose proof (Hsizes _ _ Hdata) as Hsize.
      destruct (scan_data_file (wrap64 (atoi (argument argv 4))) data)
        as (es0 & Hscan & Hes0 & _); [lia|].
      rewrite (createIndex_run std_sort fs (argument argv 2) (argument argv 3) data _ es0)
        by done.
      rewrite (createIndexInMemorySort_tellg_run std_sort fs (argument argv 2)
                 (argument argv 3) data _ es0) by done.
      cbn [mbind outcome_bind]. eexists _, _, _. split_and!; [done|done|done|done|done|].
      intros name Hname. cbn [fs_after files]. by rewrite lookup_delete_ne.
    + unfold createIndex, createIndexInMemorySort_tellg, ifstream_open. rewrite Hdata.
      cbn [mbind outcome_bind]. by eexists _, _, _.
  - rewrite (Hsame Hc).
    assert (exists status e, main std_sort atoi argv fs = Returns (status, e))
      as (status & e & ->); [|by eexists _, _, _].
    unfold main. cbv zeta.
    destruct (Z.of_nat (length argv) <? 5); [by eexists _, _|].
    rewrite checkOrCreateIndexFile_id. rewrite decide_False by done.
    destruct (decide (argument argv 1 = "-l"%string)) as [Hl|Hl].
    { destruct (listRecords_returns fs (argument argv 2) (argument argv 3) _ Hk) as [e ->].
      by eexists _, _. }
    destruct (decide (argument argv 1 = "-s"%string)) as [Hs|Hs]; [|by eexists _, _].
    destruct (decide (Z.of_nat (length argv) = 6)) as [Hsix|Hsix]; [|by eexists _, _].
    destruct (searchForKey_returns fs (argument argv 2) (argument argv 3) _ Hk Hsizes
                (bytes (argument argv 5))) as [e ->].
    by eexists _, _.
Qed.

Lemma negative_key_length_wraps z :
  - 2 ^ 31 <= z < 0 -> wrap64 z = SIZE_WIDTH + z /\ ALLOC_MAX < wrap64 z.
Proof.
  intros Hneg.
  assert (wrap64 z = SIZE_WIDTH + z) as Hwrap.
  { unfold wrap64, SIZE_WIDTH in *. symmetry. apply (Z.mod_unique _ _ (-1)); lia. }
  split; [done|]. rewrite Hwrap. unfold ALLOC_MAX, SIZE_WIDTH. lia.
Qed.

(** X18: a negative [keylength] argument becomes a key length past
    [PTRDIFF_MAX], and the listing ends in the [std::bad_alloc] of its first
    [new char[keyLength]], before anything is printed. *)
Theorem list_with_negative_key_length
    (std_sort : list IndexEntry -> list IndexEntry) (atoi : string -> Z)
    (argv : list string) (fs : filesystem) (index data : list byte) :
  (5 <= length argv)%nat ->
  argument argv 1 = "-l"%string ->
  files fs !! argument argv 3 = Some index ->
  files fs !! argument argv 2 = Some data ->
  - 2 ^ 31 <= atoi (argument argv 4) < 0 ->
  main std_sort atoi argv fs = Anomaly bad_alloc.
Proof.
  intros Hargc Hl Hindex Hdata Hneg.
  destruct (negative_key_length_wraps _ Hneg) as [_ Hbig].
  unfold main. cbv zeta.
  destruct (Z.ltb_spec (Z.of_nat (length argv)) 5); [lia|].
  rewrite checkOrCreateIndexFile_id.
  rewrite decide_False by (rewrite Hl; discriminate).
  rewrite decide_True by done.
  unfold listRecords, ifstream_open. rewrite Hindex, Hdata.
  cbn [listRecords_loop ifstream_of good eofbit failbit negb andb].
  by destruct (Z.ltb_spec ALLOC_MAX (wrap64 (atoi (argument argv 4)))); [|lia].
Qed.

(** X19: a search with a negative [keylength] argument.  For -8 the stride
    is zero and the search divides by zero.  For an argument below -8, and
    for an index file of fewer than [keylength + 8] bytes, the index file is
    too short for one entry and the search prints "Record not found".
    Otherwise the first probe ends in [std::bad_alloc]. *)
Theorem search_with_negative_key_length
    (std_sort : list IndexEntry -> list IndexEntry) (atoi : string -> Z)
    (argv : list string) (fs : filesystem) (index data : list byte) :
  length argv = 6%nat ->
  argument argv 1 = "-s"%string ->
  files fs !! argument argv 3 = Some index ->
  files fs !! argument argv 2 = Some data ->
  Z.of_nat (length index) <= STREAMOFF_MAX ->
  - 2 ^ 31 <= atoi (argument argv 4) < 0 ->
  main std_sort atoi argv fs =
    if decide (atoi (argument argv 4) = -8) then Anomaly division_by_zero
    else if decide (atoi (argument argv 4) < -8 \/
                    Z.of_nat (length index) < atoi (argument argv 4) + 8)
    then Returns (0, Effects fs [bytes "Record not found"] [])
    else Anomaly bad_alloc.
Proof.
  intros Hsix Hs Hindex Hdata Hsize Hneg.
  set (z := atoi (argument argv 4)) in *.
  destruct (negative_key_length_wraps _ Hneg) as [Hwrap Hbig].
  unfold main. cbv zeta. fold z.
  destruct (Z.ltb_spec (Z.of_nat (length argv)) 5); [lia|].
  rewrite checkOrCreateIndexFile_id.
  rewrite decide_False by (rewrite Hs; discriminate).
  rewrite decide_False by (rewrite Hs; discriminate).
  rewrite decide_True by done. rewrite decide_True by lia.
  unfold searchForKey, ifstream_open. rewrite Hindex, Hdata.
  unfold searchForKey_lookup, searchForKey_init, ifstream_of, seekg_end, tellg, seekg.
  cbn [good eofbit failbit negb andb content gpos gcount fst snd].
  change (0 <? 0) with false. cbv iota.
  assert (wrap64 (Z.of_nat (length index)) = Z.of_nat (length index)) as ->
    by (apply wrap64_small; unfold STREAMOFF_MAX, SIZE_WIDTH in *; lia).
  rewrite Hwrap in *.
  destruct (decide (z = -8)) as [Hz|Hz].
  { rewrite decide_True; [done|]. rewrite Hz. by vm_compute. }
  destruct (decide (z < -8 \/ Z.of_nat (length index) < z + 8)) as [Hshort|Hlong].
  - assert (wrap64 (SIZE_WIDTH + z + 8) <> 0 /\
            Z.of_nat (length index) / wrap64 (SIZE_WIDTH + z + 8) = 0) as [Hnz Hdiv].
    { destruct (decide (z < -8)).
      - rewrite (wrap64_small (SIZE_WIDTH + z + 8)) by (unfold SIZE_WIDTH; lia).
        split; [unfold SIZE_WIDTH; lia|].
        apply Z.div_small. unfold SIZE_WIDTH, STREAMOFF_MAX in *. lia.
      - assert (wrap64 (SIZE_WIDTH + z + 8) = z + 8) as ->.
        { unfold wrap64, SIZE_WIDTH. symmetry. apply (Z.mod_unique _ _ 1); lia. }
        split; [lia|]. apply Z.div_small. lia. }
    rewrite decide_False by done. rewrite Hdiv.
    cbn [mbind outcome_bind searchForKey_loop low high].
    change (0 <? 0) with false. cbv iota. cbn [mbind outcome_bind].
    by rewrite searchForKey_print_not_found.
  - assert (wrap64 (SIZE_WIDTH + z + 8) = z + 8) as ->.
    { unfold wrap64, SIZE_WIDTH. symmetry. apply (Z.mod_unique _ _ 1); lia. }
    rewrite decide_False by lia.
    assert (1 <= Z.of_nat (length index) / (z + 8)) as Hone.
    { apply Z.div_le_lower_bound; lia. }
    cbn [mbind outcome_bind searchForKey_loop low high].
    destruct (Z.ltb_spec 0 (Z.of_nat (length index) / (z + 8))); [|lia].
    unfold searchForKey_probe. cbv zeta.
    by destruct (Z.ltb_spec ALLOC_MAX (SIZE_WIDTH + z)); [|lia].
Qed.

Lemma main_writes_only_in_build_mode_sample :
  main insertion_sort atoi_decimal
    ["INDEX"; "-s"; "data.txt"; "index.idx"; "4"; "AAAA"]%string sample_fs =
    Returns (0, Effects sample_fs [] ["Error opening index file for reading."%string]) /\
  fs_after (Effects sample_fs [] ["Error opening index file for reading."%string]) = sample_fs.
Proof.
  assert (main insertion_sort atoi_decimal
            ["INDEX"; "-s"; "data.txt"; "index.idx"; "4"; "AAAA"]%string sample_fs =
          Returns (0, Effects sample_fs [] ["Error opening index file for reading."%string]))
    as Hrun by (vm_compute; reflexivity).
  split; [exact Hrun|].
  apply (main_writes_only_in_build_mode insertion_sort atoi_decimal
           ["INDEX"; "-s"; "data.txt"; "index.idx"; "4"; "AAAA"]%string sample_fs 0 _ Hrun).
  discriminate.
Defined.

Lemma main_variants_agree_sample :
  (argument ["INDEX"; "-c"; "data.txt"; "index.idx"; "4"]%string 1 <> "-c"%string ->
   InMemory.main insertion_sort atoi_decimal
     ["INDEX"; "-c"; "data.txt"; "index.idx"; "4"]%string sample_indexed_fs =
   main insertion_sort atoi_decimal
     ["INDEX"; "-c"; "data.txt"; "index.idx"; "4"]%string sample_indexed_fs) /\
  exists status e1 e2,
    main insertion_sort atoi_decimal
      ["INDEX"; "-c"; "data.txt"; "index.idx"; "4"]%string sample_indexed_fs =
      Returns (status, e1) /\
    InMemory.main insertion_sort atoi_decimal
      ["INDEX"; "-c"; "data.txt"; "index.idx"; "4"]%string sample_indexed_fs =
      Returns (status, e2) /\
    cout e1 = cout e2 /\ cerr e1 = cerr e2 /\
    unwritable (fs_after e1) = unwritable (fs_after e2) /\
    forall name, name <> "index.idx.tmp"%string ->
      files (fs_after e1) !! name = files (fs_after e2) !! name.
Proof.
  apply (main_variants_agree insertion_sort atoi_decimal
           ["INDEX"; "-c"; "data.txt"; "index.idx"; "4"]%string sample_indexed_fs).
  - by vm_compute.
  - apply sample_indexed_fs_sizes.
  - apply not_elem_of_empty.
  - apply not_elem_of_empty.
  - done.
Defined.

Lemma list_with_negative_key_length_sample :
  main insertion_sort atoi_decimal
    ["INDEX"; "-l"; "data.txt"; "index.idx"; "-4"]%string sample_indexed_fs =
  Anomaly bad_alloc.
Proof.
  apply (list_with_negative_key_length insertion_sort atoi_decimal
           ["INDEX"; "-l"; "data.txt"; "index.idx"; "-4"]%string sample_indexed_fs
           sample_index sample_data).
  - simpl. lia.
  - reflexivity.
  - by vm_compute.
  - by vm_compute.
  - by vm_compute.
Defined.

Lemma search_with_negative_key_length_sample :
  main insertion_sort atoi_decimal
    ["INDEX"; "-s"; "data.txt"; "index.idx"; "-12"; "AAAA"]%string sample_indexed_fs =
  Returns (0, Effects sample_indexed_fs [bytes "Record not found"] []).
Proof.
  etrans.
  - apply (search_with_negative_key_length insertion_sort atoi_decimal
             ["INDEX"; "-s"; "data.txt"; "index.idx"; "-12"; "AAAA"]%string sample_indexed_fs
             sample_index sample_data).
    + reflexivity.
    + reflexivity.
    + by vm_compute.
    + by vm_compute.
    + by vm_compute.
    + by vm_compute.
  - reflexivity.
Defined.
